(** * Innovations Codex: privileged operations, catalog mirroring and
      category folders

    A shallow embedding of [main.js] of the Innovations Codex module: the
    GM-side handlers ([_gmAddCodexToActor], [_gmFabricate], [_gmRecall],
    [_gmSetFlag], [_gmMirror], [_gmNotify]), the folder repair pass
    [ensureFolderHierarchy], the lookups [getSpellLevelFolder] and
    [getSlotLevel], and the peer-side workflow [setSlotLevelForBlueprint].

    The document store of the host application is not part of the module.
    It is modelled as explicit state ([World]): every handler takes the
    world and returns its result together with the new world. *)

From Stdlib Require Import ZArith Ascii String Decimal DecimalString DecimalZ.
From Stdlib Require Import SpecFloat.
From stdpp Require Import base decidable option list strings gmap.

Local Open Scope string_scope.
Local Open Scope list_scope.

(** ** JavaScript values

    The primitive values that travel through flags, assignment maps,
    resource pools and level arguments: [undefined], [null], booleans,
    numbers and strings.  Objects and arrays are outside the embedding.
    A number is an IEEE 754 binary64 value.  Strings are sequences of
    8-bit code units. *)

#[global] Instance spec_float_eq_dec : EqDecision spec_float.
Proof. solve_decision. Defined.

Module Double.

Definition prec : Z := 53.
Definition emax : Z := 1024.

(** A binary64 value is a [spec_float] of the standard library in
    canonical form: a zero, an infinity, NaN, or [±m·2^e] with a mantissa
    [m] of 53 bits and [-1074 ≤ e ≤ 971], or of fewer bits and
    [e = -1074] (a subnormal number).  Every number has one such form. *)
Definition canonical (x : spec_float) : bool := valid_binary prec emax x.

Record t : Type := mk {
  val : spec_float;
  canon : canonical val = true
}.

#[global] Instance t_eq_dec : EqDecision t.
Proof.
  intros [x Hx] [y Hy]. destruct (decide (x = y)) as [->|Hne].
  - left. f_equal. apply (proof_irrel _ _).
  - right. by intros [= ?].
Defined.

Definition nan : t := mk S754_nan eq_refl.
Definition inf (negative : bool) : t := mk (S754_infinity negative) eq_refl.
Definition zero : t := mk (S754_zero false) eq_refl.
Definition negZero : t := mk (S754_zero true) eq_refl.

(** The operations of the standard library take numbers in canonical form
    to numbers in canonical form; [checked] records it for a result, by
    testing it. *)
Definition checked (x : spec_float) : t :=
  match canonical x as b return canonical x = b → t with
  | true => λ H, mk x H
  | false => λ _, nan
  end eq_refl.

(** The number nearest to [m·2^e], ties to the even mantissa; an infinity
    beyond the range. *)
Definition make (m e : Z) : t := checked (binary_normalize prec emax m e false).

(** The number nearest to the integer [z]. *)
Definition ofZ (z : Z) : t := make z 0.

Definition one : t := ofZ 1.

Definition isFinite (x : t) : bool :=
  match val x with
  | S754_zero _ | S754_finite _ _ _ => true
  | S754_infinity _ | S754_nan => false
  end.

(** [x - y], [x <= y], [x < y] and the comparison of [x === y]. *)
Definition sub (x y : t) : t := checked (SFsub prec emax (val x) (val y)).
Definition leb (x y : t) : bool := SFleb (val x) (val y).
Definition ltb (x y : t) : bool := SFltb (val x) (val y).
Definition eqb (x y : t) : bool := SFeqb (val x) (val y).

(** *** [Number::toString]

    For a finite number [x] that is not zero the specification takes
    integers [n], [k], [s] with [k ≥ 1], [10^(k-1) ≤ s < 10^k], such that
    [s·10^(n-k)] rounds to [x] and [k] is as small as possible; among
    several [s] it takes the one nearest to [x], and the even one of two
    that are equally near.  The digits of [s] are then laid out with the
    decimal point after [n] digits, or in exponent notation when [n] is
    above 21 or below -5. *)

(** [c·10^p] compared with [d·2^q], for exponents of any sign. *)
Definition compareScaled (c p d q : Z) : comparison :=
  (c * 10 ^ Z.max p 0 * 2 ^ Z.max (- q) 0
   ?= d * 2 ^ Z.max q 0 * 10 ^ Z.max (- p) 0)%Z.

(** The integer part of [d·2^q / 10^p]. *)
Definition floorScaled (d q p : Z) : Z :=
  ((d * 2 ^ Z.max q 0 * 10 ^ Z.max (- p) 0)
   / (2 ^ Z.max (- q) 0 * 10 ^ Z.max p 0))%Z.

Fixpoint pointUp (fuel : nat) (d q n : Z) : Z :=
  match fuel with
  | O => n
  | S fuel =>
      match compareScaled 1 n d q with
      | Gt => n
      | _ => pointUp fuel d q (n + 1)
      end
  end.

Fixpoint pointDown (fuel : nat) (d q n : Z) : Z :=
  match fuel with
  | O => n
  | S fuel =>
      match compareScaled 1 (n - 1) d q with
      | Gt => pointDown fuel d q (n - 1)
      | _ => n
      end
  end.

(** The [n] with [10^(n-1) ≤ d·2^q < 10^n], searched from an estimate; the
    decimal exponents of binary64 numbers lie between -323 and 309. *)
Definition decimalPoint (d q : Z) : Z :=
  let n0 := ((Z.log2 d + q) * 30103 / 100000)%Z in
  pointDown 700 d q (pointUp 700 d q n0).

(** The reals that round to the number [mid·2^scale]: those between
    [lo·2^scale] and [hi·2^scale], halfway to the neighbouring numbers, the
    ends included when the mantissa is even ([closed]). *)
Record Interval : Type := mkInterval {
  lo : Z;
  mid : Z;
  hi : Z;
  scale : Z;
  closed : bool
}.

Definition roundingInterval (m : positive) (e : Z) : Interval :=
  let m := Z.pos m in
  let lower :=
    (* at a power of two the number below is half as far *)
    if bool_decide (m = 2 ^ (prec - 1) ∧ 3 - emax - prec < e)%Z
    then (4 * m - 1)%Z else (4 * m - 2)%Z in
  mkInterval lower (4 * m) (4 * m + 2) (e - 2) (Z.even m).

Definition inside (iv : Interval) (s p : Z) : bool :=
  match compareScaled s p (lo iv) (scale iv),
        compareScaled s p (hi iv) (scale iv) with
  | Gt, Lt => true
  | Eq, Lt | Gt, Eq => closed iv
  | _, _ => false
  end.

(** The first [k], counting up from the one given, for which one of the
    two [k]-digit decimals next to the number rounds to it, with that
    decimal as [s·10^p].  Seventeen digits always suffice. *)
Fixpoint shortest (fuel : nat) (iv : Interval) (n k : Z) : Z * Z :=
  let p := (n - k)%Z in
  let a := floorScaled (mid iv) (scale iv) p in
  let b := (a + 1)%Z in
  let pick :=
    match inside iv a p, inside iv b p with
    | true, true =>
        match compareScaled (a + b) p (2 * mid iv) (scale iv) with
        | Lt => Some b
        | Gt => Some a
        | Eq => Some (if Z.even a then a else b)
        end
    | true, false => Some a
    | false, true => Some b
    | false, false => None
    end in
  match pick, fuel with
  | Some s, _ => (s, p)
  | None, S fuel => shortest fuel iv n (k + 1)
  | None, O => (a, p)
  end.

Definition decimal (z : Z) : string := NilZero.string_of_int (Z.to_int z).

Fixpoint zeros (n : nat) : string :=
  match n with
  | O => ""
  | S n => String "0" (zeros n)
  end.

Fixpoint stripZeros (s : string) : string :=
  match s with
  | String c s' =>
      match stripZeros s' with
      | "" => if Ascii.eqb c "0" then "" else String c ""
      | t => String c t
      end
  | "" => ""
  end.

Definition splitAt (n : nat) (s : string) : string * string :=
  (String.substring 0 n s, String.substring n (String.length s - n) s).

Definition positiveToString (m : positive) (e : Z) : string :=
  let iv := roundingInterval m e in
  let '(s, p) := shortest 17 iv (decimalPoint (mid iv) (scale iv)) 1 in
  let all := decimal s in
  let n := (p + Z.of_nat (String.length all))%Z in
  let ds := stripZeros all in
  let k := Z.of_nat (String.length ds) in
  if bool_decide (k ≤ n ≤ 21)%Z then ds +:+ zeros (Z.to_nat (n - k))
  else if bool_decide (0 < n ≤ 21)%Z then
    let '(int, frac) := splitAt (Z.to_nat n) ds in int +:+ "." +:+ frac
  else if bool_decide (-6 < n ≤ 0)%Z then "0." +:+ zeros (Z.to_nat (- n)) +:+ ds
  else
    let expo := (if bool_decide (n - 1 < 0)%Z then "-" else "+")
                +:+ decimal (Z.abs (n - 1)) in
    if bool_decide (k = 1)%Z then ds +:+ "e" +:+ expo
    else let '(d, rest) := splitAt 1 ds in d +:+ "." +:+ rest +:+ "e" +:+ expo.

Definition toString (x : t) : string :=
  match val x with
  | S754_zero _ => "0"
  | S754_infinity false => "Infinity"
  | S754_infinity true => "-Infinity"
  | S754_nan => "NaN"
  | S754_finite false m e => positiveToString m e
  | S754_finite true m e => "-" +:+ positiveToString m e
  end.

End Double.

Inductive JsVal : Type :=
  | JUndefined
  | JNull
  | JBool (b : bool)
  | JNum (x : Double.t)
  | JStr (s : string).

#[global] Instance JsVal_eq_dec : EqDecision JsVal.
Proof. solve_decision. Defined.

(** The number of an integer (the nearest number, for an integer that is
    none), NaN and the infinities. *)
Definition JInt (z : Z) : JsVal := JNum (Double.ofZ z).
Definition JNaN : JsVal := JNum Double.nan.
Definition JInf (negative : bool) : JsVal := JNum (Double.inf negative).

(** The result of [Number.parseInt]: the integer that the digits denote,
    or NaN ([None]).  The code uses the result only after testing it
    against 1 and 9; an integer is between 1 and 9 exactly when the number
    nearest to it is, and is then that number. *)
Definition JsNumber := option Z.

Module Js.

(** [String(v)]. *)
Definition toString (v : JsVal) : string :=
  match v with
  | JUndefined => "undefined"
  | JNull => "null"
  | JBool true => "true"
  | JBool false => "false"
  | JNum x => Double.toString x
  | JStr s => s
  end.

(** [a === b]: numbers compare by value (NaN differs from itself, the two
    zeros are equal), the other values are equal when they are the same. *)
Definition strictEq (a b : JsVal) : bool :=
  match a, b with
  | JNum x, JNum y => Double.eqb x y
  | JNum _, _ | _, JNum _ => false
  | _, _ => bool_decide (a = b)
  end.

(** White space skipped by [parseInt]: TAB, LF, VT, FF, CR, SP and NBSP
    (the code units below 256 of the StrWhiteSpaceChar production). *)
Definition isWhiteSpace (c : ascii) : bool :=
  let n := nat_of_ascii c in
  bool_decide (n = 9 ∨ n = 10 ∨ n = 11 ∨ n = 12 ∨ n = 13 ∨ n = 32 ∨ n = 160)%nat.

Fixpoint trimStart (s : string) : string :=
  match s with
  | String c s' => if isWhiteSpace c then trimStart s' else s
  | EmptyString => EmptyString
  end.

Definition digit (c : ascii) : option (uint → uint) :=
  match c with
  | "0" => Some D0 | "1" => Some D1 | "2" => Some D2 | "3" => Some D3
  | "4" => Some D4 | "5" => Some D5 | "6" => Some D6 | "7" => Some D7
  | "8" => Some D8 | "9" => Some D9
  | _ => None
  end%char.

(** The longest prefix of decimal digits, most significant first. *)
Fixpoint digits (s : string) : uint :=
  match s with
  | String c s' =>
      match digit c with
      | Some d => d (digits s')
      | None => Nil
      end
  | EmptyString => Nil
  end.

(** The digits of a string after its sign, as a number; NaN when there is
    no digit. *)
Definition magnitude (s : string) : JsNumber :=
  match digits s with
  | Nil => None
  | d => Some (Z.of_uint d)
  end.

(** [Number.parseInt(string, 10)] on a string: skip white space, read an
    optional sign, then the longest prefix of decimal digits.  With radix
    10 no [0x] prefix is recognised. *)
Definition parseIntString (s : string) : JsNumber :=
  match trimStart s with
  | String "-" s' => Z.opp <$> magnitude s'
  | String "+" s' => magnitude s'
  | s' => magnitude s'
  end.

(** [Number.parseInt(v, 10)]: the argument is first converted to a
    string. *)
Definition parseInt (v : JsVal) : JsNumber := parseIntString (toString v).

(** [Number.isFinite(v)]: true only for values of type number that are
    neither NaN nor infinite. *)
Definition isFinite (v : JsVal) : bool :=
  match v with
  | JNum x => Double.isFinite x
  | _ => false
  end.

(** [Number.isFinite(n) && n >= 1 && n <= 9] on the result of
    [parseInt]. *)
Definition isLevel (n : JsNumber) : bool :=
  match n with
  | Some z => bool_decide (1 ≤ z ≤ 9)%Z
  | None => false
  end.

(** [JSON.parse(JSON.stringify(v))] on a property value: a property whose
    value is [undefined] is left out, NaN and the infinities become
    [null], and the sign of zero is lost. *)
Definition jsonValue (v : JsVal) : option JsVal :=
  match v with
  | JUndefined => None
  | JNum x =>
      if negb (Double.isFinite x) then Some JNull
      else if Double.eqb x Double.zero then Some (JNum Double.zero)
      else Some v
  | _ => Some v
  end.

(** [foundry.utils.duplicate(map)], the JSON round trip of an object. *)
Definition duplicate `{Countable K} (m : gmap K JsVal) : gmap K JsVal :=
  omap jsonValue m.

End Js.

#[global] Arguments Double.toString : simpl never.
#[global] Arguments Double.ofZ : simpl never.
#[global] Arguments Double.make : simpl never.
#[global] Arguments Double.checked : simpl never.
#[global] Arguments Double.ltb : simpl never.
#[global] Arguments Double.sub : simpl never.
#[global] Arguments Double.leb : simpl never.
#[global] Arguments Double.eqb : simpl never.
#[global] Arguments JInt : simpl never.

(** ** Documents

    Document identifiers are opaque; the embedding takes natural numbers.
    A UUID is the dotted path of a document ([Actor.<id>],
    [Item.<id>], [Actor.<id>.Item.<id>], [Folder.<id>]), kept in parsed
    form. *)

Definition Id := nat.

Inductive Uuid : Type :=
  | UActor (actor : Id)
  | UItem (item : Id)
  | UOwned (actor item : Id)
  | UFolder (folder : Id).

#[global] Instance Uuid_eq_dec : EqDecision Uuid.
Proof. solve_decision. Defined.

#[global] Program Instance Uuid_countable : Countable Uuid :=
  inj_countable'
    (λ u, match u with
          | UActor a => inl (inl a)
          | UItem i => inl (inr i)
          | UOwned a i => inr (inl (a, i))
          | UFolder f => inr (inr f)
          end)
    (λ s, match s with
          | inl (inl a) => UActor a
          | inl (inr i) => UItem i
          | inr (inl (a, i)) => UOwned a i
          | inr (inr f) => UFolder f
          end) _.
Next Obligation. by intros []. Qed.

(** The flags of the module's private namespace ([flags.innovations-codex]).
    The module is the only writer of the namespace; each key has the type
    of the values the module stores under it.  An absent boolean flag reads
    as [false], an absent reference or map as [None], an absent
    [spellLevel] as [JUndefined]. *)
Module Flags.
Record t : Type := mk {
  isCodex : bool;
  isCreateFeature : bool;
  isInnovation : bool;
  isTemporary : bool;
  spellLevel : JsVal;
  createdBy : option Uuid;
  originUuid : option Uuid;
  mirrorOf : option Uuid;
  slotLevelsByUuid : option (gmap Uuid JsVal);
  slotLevelsByName : option (gmap string JsVal)
}.

Definition empty : t :=
  mk false false false false JUndefined None None None None None.
End Flags.

(** What [system.container] and [system.containerId] of an item hold:
    nothing (the field is null or absent), the identifier of an item, or
    its UUID. *)
Inductive RefVal : Type :=
  | RefNull
  | RefId (i : Id)
  | RefUuid (u : Uuid).

#[global] Instance RefVal_eq_dec : EqDecision RefVal.
Proof. solve_decision. Defined.

Module Item.
Record t : Type := mk {
  id : Id;
  name : string;
  img : string;
  type : string;
  folder : option Id;
  container : RefVal;         (* system.container *)
  containerId : RefVal;       (* system.containerId *)
  flags : Flags.t
}.
End Item.

Module Actor.
Record t : Type := mk {
  name : string;
  spells : gmap Z JsVal;      (* system.spells.spell<n>.value *)
  items : list Item.t
}.
End Actor.

Module Folder.
Record t : Type := mk {
  id : Id;
  name : string;
  type : string;
  folder : option Id          (* the parent folder *)
}.
End Folder.

Inductive LogEntry : Type :=
  | WarnMirrorFolderNotFound (level : option Z)
  | LogDeleteDuplicateRoot (folder : Id)
  | LogCreatedRoot (name : string) (folder : Id)
  | LogDeleteDuplicateSubfolder (name : string) (folder : Id)
  | LogCreatedSubfolder (name root : string)
  | LogDeleteStray (name : string) (folder : Id).

(** The state the handlers run against: [game.actors], [game.items],
    [game.folders], the chat log and the console. *)
Record World : Type := mkWorld {
  actors : gmap Id Actor.t;
  items : list Item.t;
  folders : list Folder.t;
  messages : list string;
  console : list LogEntry
}.

(** An Item document: its data and [item.parent], the identifier of the
    actor that owns it ([None] for an item of the world collection). *)
Record ItemDoc : Type := mkItemDoc {
  parent : option Id;
  data : Item.t
}.

Inductive Document : Type :=
  | DocActor (id : Id) (a : Actor.t)
  | DocItem (d : ItemDoc)
  | DocFolder (f : Folder.t).

(** [item.uuid]. *)
Definition uuid (d : ItemDoc) : Uuid :=
  match parent d with
  | Some a => UOwned a (Item.id (data d))
  | None => UItem (Item.id (data d))
  end.

(** [collection.find(pred)]: the first element that satisfies [pred]. *)
Definition findFirst {A} (P : A → Prop) `{∀ x, Decision (P x)} (l : list A)
    : option A :=
  snd <$> list_find P l.

(** Apply [f] to the first element that satisfies [P]. *)
Definition alterFirst {A} (P : A → Prop) `{∀ x, Decision (P x)}
    (f : A → A) (l : list A) : list A :=
  match list_find P l with
  | Some (k, _) => alter f k l
  | None => l
  end.

Definition hasId (i : Id) (it : Item.t) : Prop := Item.id it = i.
#[global] Instance hasId_dec i it : Decision (hasId i it).
Proof. unfold hasId. apply _. Defined.
#[global] Typeclasses Opaque hasId.

Definition fromUuid (w : World) (u : Uuid) : option Document :=
  match u with
  | UActor a => DocActor a <$> actors w !! a
  | UItem i => DocItem ∘ mkItemDoc None <$> findFirst (hasId i) (items w)
  | UOwned a i =>
      actors w !! a ≫= λ act,
        DocItem ∘ mkItemDoc (Some a) <$> findFirst (hasId i) (Actor.items act)
  | UFolder f => DocFolder <$> findFirst (λ x, Folder.id x = f) (folders w)
  end.

(** The store allocates an identifier that is not in use in the collection;
    the embedding takes the successor of the largest one. *)
Definition freshId (used : list Id) : Id := S (max_list used).

Definition setItems (f : list Item.t → list Item.t) (w : World) : World :=
  mkWorld (actors w) (f (items w)) (folders w) (messages w) (console w).

Definition setFolders (f : list Folder.t → list Folder.t) (w : World) : World :=
  mkWorld (actors w) (items w) (f (folders w)) (messages w) (console w).

Definition setActor (a : Id) (f : Actor.t → Actor.t) (w : World) : World :=
  mkWorld (alter f a (actors w)) (items w) (folders w) (messages w) (console w).

Definition setActorItems (f : list Item.t → list Item.t) (a : Actor.t) : Actor.t :=
  Actor.mk (Actor.name a) (Actor.spells a) (f (Actor.items a)).

Definition consoleLog (e : LogEntry) (w : World) : World :=
  mkWorld (actors w) (items w) (folders w) (messages w) (console w ++ [e]).

Definition withId (i : Id) (d : Item.t) : Item.t :=
  Item.mk i (Item.name d) (Item.img d) (Item.type d) (Item.folder d)
    (Item.container d) (Item.containerId d) (Item.flags d).

(** The document a collection creates from [data]: [data] under a new
    identifier. *)
Definition created (l : list Item.t) (data : Item.t) : Item.t :=
  withId (freshId (Item.id <$> l)) data.

Definition insertNew (data : Item.t) (l : list Item.t) : list Item.t :=
  l ++ [created l data].

(** [actor.createEmbeddedDocuments("Item", [data])] on the actor [a]. *)
Definition createEmbeddedItem (a : Id) (data : Item.t) (w : World) : World :=
  setActor a (setActorItems (insertNew data)) w.

(** [Item.create(data)] in the world collection. *)
Definition createItem (data : Item.t) (w : World) : World :=
  setItems (insertNew data) w.

(** [Folder.create({name, type, folder})]. *)
Definition createFolder (name type : string) (parent : option Id) (w : World)
    : Folder.t * World :=
  let created := Folder.mk (freshId (Folder.id <$> folders w)) name type parent in
  (created, setFolders (λ l, l ++ [created]) w).

(** Deleting a document removes the entry with its identifier from the
    collection. *)
Definition deleteById (i : Id) (l : list Item.t) : list Item.t :=
  filter (λ it, Item.id it ≠ i) l.

Definition deleteFolder (f : Folder.t) (w : World) : World :=
  setFolders (filter (λ x, Folder.id x ≠ Folder.id f)) w.

(** [item.update(changes)] on the item a [DocItem] stands for. *)
Definition updateItem (d : ItemDoc) (f : Item.t → Item.t) (w : World) : World :=
  match parent d with
  | Some a => setActor a (setActorItems (alterFirst (hasId (Item.id (data d))) f)) w
  | None => setItems (alterFirst (hasId (Item.id (data d))) f) w
  end.

(** [item.delete()], or [item.parent.deleteEmbeddedDocuments("Item",
    [item.id])] for an owned item. *)
Definition deleteItem (d : ItemDoc) (w : World) : World :=
  match parent d with
  | Some a => setActor a (setActorItems (deleteById (Item.id (data d)))) w
  | None => setItems (deleteById (Item.id (data d))) w
  end.

Definition setFlags (f : Flags.t → Flags.t) (d : Item.t) : Item.t :=
  Item.mk (Item.id d) (Item.name d) (Item.img d) (Item.type d) (Item.folder d)
    (Item.container d) (Item.containerId d) (f (Item.flags d)).

(** [delete data.folder], [system.container = null],
    [system.containerId = null]. *)
Definition stripLocation (keepFolder : bool) (d : Item.t) : Item.t :=
  Item.mk (Item.id d) (Item.name d) (Item.img d) (Item.type d)
    (if keepFolder then Item.folder d else None) RefNull RefNull (Item.flags d).

(** ** Constants *)

Definition CODEX_NAME : string := "Innovations Codex".

Definition SPELL_LEVEL_FOLDERS : list string :=
  ["Uncategorized";
   "1st"; "2nd"; "3rd"; "4th"; "5th"; "6th"; "7th"; "8th"; "9th"].

Definition MODULE_TAG : string := "<strong>innovations-codex</strong> | ".

(** ** Helpers (section 4 of the source) *)

Definition isRootFolder (f : Folder.t) : Prop :=
  Folder.name f = CODEX_NAME ∧ Folder.type f = "Item" ∧ Folder.folder f = None.

Definition isSubfolder (name : option string) (root : Id) (f : Folder.t) : Prop :=
  Some (Folder.name f) = name ∧ Folder.type f = "Item"
  ∧ Folder.folder f = Some root.

#[global] Instance isRootFolder_dec f : Decision (isRootFolder f).
Proof. unfold isRootFolder. apply _. Defined.
#[global] Instance isSubfolder_dec n r f : Decision (isSubfolder n r f).
Proof. unfold isSubfolder. apply _. Defined.
#[global] Typeclasses Opaque isRootFolder isSubfolder.

(** [SPELL_LEVEL_FOLDERS[level]] when [level] is between 1 and 9, else
    ["Uncategorized"].  [level] is [null] or an integer: the module passes
    [null] (from [createNewInnovation]) or the category that
    [setSlotLevelForBlueprint] has normalized.  A level of another kind (a
    fraction, a boolean, a string) is outside the embedding. *)
Definition folderName (level : option Z) : option string :=
  match level with
  | Some z =>
      if bool_decide (1 ≤ z ≤ 9)%Z then SPELL_LEVEL_FOLDERS !! Z.to_nat z
      else Some "Uncategorized"
  | None => Some "Uncategorized"
  end.

Definition getSpellLevelFolder (w : World) (level : option Z) : option Folder.t :=
  match findFirst isRootFolder (folders w) with
  | None => None
  | Some rootFolder =>
      findFirst (isSubfolder (folderName level) (Folder.id rootFolder)) (folders w)
  end.

Definition isCodexItem (item : Item.t) : bool :=
  Flags.isCodex (Item.flags item)
  || bool_decide (Item.type item = "container" ∧ Item.name item = CODEX_NAME).

(** A category as a flag value: [null] or the number. *)
Definition levelVal (level : option Z) : JsVal :=
  match level with
  | Some z => JInt z
  | None => JNull
  end.

(** [obj[key]] on an assignment map, a plain object: the value of the
    object's own property.  Without an own property of that name the code
    reads [undefined] or, for a name that [Object.prototype] defines, a
    function or an object; [Number.parseInt], the only reader, gives NaN
    for each of them, so the embedding takes [undefined] for all. *)
Definition getKey `{Countable K} (m : gmap K JsVal) (k : K) : JsVal :=
  default JUndefined (m !! k).

Definition getSlotLevel (codex : ItemDoc) (blueprint : ItemDoc) : option Z :=
  let uuidMap := default ∅ (Flags.slotLevelsByUuid (Item.flags (data codex))) in
  let nameMap := default ∅ (Flags.slotLevelsByName (Item.flags (data codex))) in
  let fromUuidVal := Js.parseInt (getKey uuidMap (uuid blueprint)) in
  if Js.isLevel fromUuidVal then fromUuidVal else
  let fromName := Js.parseInt (getKey nameMap (Item.name (data blueprint))) in
  if Js.isLevel fromName then fromName else
  let itemLevel := Flags.spellLevel (Item.flags (data blueprint)) in
  if bool_decide (itemLevel ≠ JNull ∧ itemLevel ≠ JUndefined) then
    let parsed := Js.parseInt itemLevel in
    if Js.isLevel parsed then parsed else None
  else None.

(** ** GM handlers (section 1 of the source) *)

Definition _gmAddCodexToActor (actorUuid : Uuid) (w : World)
    : option Uuid * World :=
  match fromUuid w actorUuid with
  | Some (DocActor a actor) =>
      match findFirst (λ i, isCodexItem i = true) (Actor.items actor) with
      | Some existing => (Some (uuid (mkItemDoc (Some a) existing)), w)
      | None =>
          match findFirst (λ i, Flags.isCodex (Item.flags i) = true) (items w) with
          | None => (None, w)
          | Some worldCodex =>
              let codexData := stripLocation false worldCodex in
              let new := created (Actor.items actor) codexData in
              (Some (uuid (mkItemDoc (Some a) new)),
               createEmbeddedItem a codexData w)
          end
      end
  | _ => (None, w)
  end.

Definition _gmCreateInnovation (actorUuid : Uuid) (codexId : Id)
    (itemName itemType : string) (w : World) : option Uuid * World :=
  match fromUuid w actorUuid with
  | Some (DocActor a actor) =>
      let itemData :=
        Item.mk 0 itemName "" (if decide (itemType = "") then "loot" else itemType)
          None (RefId codexId) RefNull
          (Flags.mk false false true false JNull (Some actorUuid) None None None None) in
      let new := created (Actor.items actor) itemData in
      (Some (uuid (mkItemDoc (Some a) new)), createEmbeddedItem a itemData w)
  | _ => (None, w)
  end.

Definition setSpells (f : gmap Z JsVal → gmap Z JsVal) (a : Actor.t) : Actor.t :=
  Actor.mk (Actor.name a) (f (Actor.spells a)) (Actor.items a).

Definition setName (n : string) (d : Item.t) : Item.t :=
  Item.mk (Item.id d) n (Item.img d) (Item.type d) (Item.folder d)
    (Item.container d) (Item.containerId d) (Item.flags d).

Definition setNameImg (n i : string) (d : Item.t) : Item.t :=
  Item.mk (Item.id d) n i (Item.type d) (Item.folder d)
    (Item.container d) (Item.containerId d) (Item.flags d).

Definition setFolder (f : option Id) (d : Item.t) : Item.t :=
  Item.mk (Item.id d) (Item.name d) (Item.img d) (Item.type d) f
    (Item.container d) (Item.containerId d) (Item.flags d).

Definition markTemporary (codexUuid : Uuid) (f : Flags.t) : Flags.t :=
  Flags.mk (Flags.isCodex f) (Flags.isCreateFeature f) (Flags.isInnovation f)
    true (Flags.spellLevel f) (Flags.createdBy f) (Some codexUuid)
    (Flags.mirrorOf f) (Flags.slotLevelsByUuid f) (Flags.slotLevelsByName f).

(** [system.spells.spell<slotLevel>.value] of an actor. *)
Definition slotsOf (a : Actor.t) (slotLevel : Z) : JsVal :=
  default JUndefined (Actor.spells a !! slotLevel).

(** How a call of a handler ends: it returns a value, or it throws (the
    promise is rejected). *)
Inductive Completion (A : Type) : Type :=
  | Returned (a : A)
  | Threw.
#[global] Arguments Returned {A} a.
#[global] Arguments Threw {A}.

(** [attached] tells whether [createEmbeddedDocuments], the second step,
    succeeds; when it does not, the call rejects and the handler throws,
    after the pool has been updated. *)
Definition _gmFabricate (ownerActorUuid targetActorUuid blueprintUuid
    codexUuid : Uuid) (slotLevel : Z) (attached : bool) (w : World)
    : Completion bool * World :=
  match fromUuid w ownerActorUuid, fromUuid w targetActorUuid,
        fromUuid w blueprintUuid with
  | Some (DocActor owner ownerActor), Some (DocActor target _),
    Some (DocItem blueprint) =>
      (* Deduct spell slot *)
      match slotsOf ownerActor slotLevel with
      | JNum currentSlots =>
          if negb (Double.isFinite currentSlots)
             || Double.leb currentSlots Double.zero
          then (Returned false, w) else
          let w1 :=
            setActor owner
              (setSpells <[slotLevel := JNum (Double.sub currentSlots Double.one)]>)
              w in
          (* Create temporary item on target *)
          let itemData :=
            setFlags (markTemporary codexUuid)
              (setName ("Temporary " +:+ Item.name (data blueprint))
                 (stripLocation true (data blueprint))) in
          if attached then (Returned true, createEmbeddedItem target itemData w1)
          else (Threw, w1)
      | _ => (Returned false, w)   (* not a number *)
      end
  | _, _, _ => (Returned false, w)
  end.

Definition _gmRecall (itemUuid : Uuid) (codexUuid : option Uuid) (w : World)
    : bool * World :=
  match fromUuid w itemUuid with
  | Some (DocItem item) =>
      let originUuid := Flags.originUuid (Item.flags (data item)) in
      if decide (originUuid ≠ codexUuid) then (false, w)
      else (true, deleteItem item w)
  | _ => (false, w)
  end.

(** The handler takes a key and a value.  The module calls it from three
    places, in [setSlotLevelForBlueprint], with the keys
    [slotLevelsByUuid], [slotLevelsByName] and [spellLevel]; an entry is one
    of these keys with a value of its type.  A call with another key is
    outside the embedding. *)
Inductive FlagEntry : Type :=
  | SlotLevelsByUuid (m : gmap Uuid JsVal)
  | SlotLevelsByName (m : gmap string JsVal)
  | SpellLevel (v : JsVal).

(** [item.setFlag(MODULE_ID, key, value)]: overwrites one flag entry. *)
Definition setFlag (e : FlagEntry) (f : Flags.t) : Flags.t :=
  match e with
  | SlotLevelsByUuid m =>
      Flags.mk (Flags.isCodex f) (Flags.isCreateFeature f) (Flags.isInnovation f)
        (Flags.isTemporary f) (Flags.spellLevel f) (Flags.createdBy f)
        (Flags.originUuid f) (Flags.mirrorOf f) (Some m) (Flags.slotLevelsByName f)
  | SlotLevelsByName m =>
      Flags.mk (Flags.isCodex f) (Flags.isCreateFeature f) (Flags.isInnovation f)
        (Flags.isTemporary f) (Flags.spellLevel f) (Flags.createdBy f)
        (Flags.originUuid f) (Flags.mirrorOf f) (Flags.slotLevelsByUuid f) (Some m)
  | SpellLevel v =>
      Flags.mk (Flags.isCodex f) (Flags.isCreateFeature f) (Flags.isInnovation f)
        (Flags.isTemporary f) v (Flags.createdBy f)
        (Flags.originUuid f) (Flags.mirrorOf f) (Flags.slotLevelsByUuid f)
        (Flags.slotLevelsByName f)
  end.

Definition _gmSetFlag (itemUuid : Uuid) (flag : FlagEntry) (w : World) : World :=
  match fromUuid w itemUuid with
  | Some (DocItem item) => updateItem item (setFlags (setFlag flag)) w
  | _ => w
  end.

Definition isMirrorOf (actorItemUuid : Uuid) (i : Item.t) : Prop :=
  Flags.mirrorOf (Item.flags i) = Some actorItemUuid.
#[global] Instance isMirrorOf_dec u i : Decision (isMirrorOf u i).
Proof. unfold isMirrorOf. apply _. Defined.
#[global] Typeclasses Opaque isMirrorOf.

Definition markMirror (actorItemUuid : Uuid) (level : option Z) (f : Flags.t)
    : Flags.t :=
  Flags.mk (Flags.isCodex f) (Flags.isCreateFeature f) (Flags.isInnovation f)
    (Flags.isTemporary f) (levelVal level) (Flags.createdBy f)
    (Flags.originUuid f) (Some actorItemUuid) (Flags.slotLevelsByUuid f)
    (Flags.slotLevelsByName f).

(** [foundry.utils.duplicate(itemData)], the JSON round trip of the
    payload: it reaches the values of the flags. *)
Definition duplicateFlags (f : Flags.t) : Flags.t :=
  Flags.mk (Flags.isCodex f) (Flags.isCreateFeature f) (Flags.isInnovation f)
    (Flags.isTemporary f) (default JUndefined (Js.jsonValue (Flags.spellLevel f)))
    (Flags.createdBy f) (Flags.originUuid f) (Flags.mirrorOf f)
    (Js.duplicate <$> Flags.slotLevelsByUuid f)
    (Js.duplicate <$> Flags.slotLevelsByName f).

Definition duplicateItem (d : Item.t) : Item.t := setFlags duplicateFlags d.

Definition _gmMirror (itemData : Item.t) (actorItemUuid : Uuid)
    (level : option Z) (w : World) : World :=
  match getSpellLevelFolder w level with
  | None => consoleLog (WarnMirrorFolderNotFound level) w
  | Some folder =>
      match list_find (isMirrorOf actorItemUuid) (items w) with
      | Some (k, mirrorItem) =>
          let w1 :=
            if decide (Item.folder mirrorItem ≠ Some (Folder.id folder))
            then setItems (alter (setFolder (Some (Folder.id folder))) k) w
            else w in
          setItems (alter (setNameImg (Item.name itemData) (Item.img itemData)) k) w1
      | None =>
          let mirrorData :=
            setFlags (markMirror actorItemUuid level)
              (stripLocation true
                 (setFolder (Some (Folder.id folder)) (duplicateItem itemData))) in
          createItem mirrorData w
      end
  end.

Definition _gmNotify (message : string) (w : World) : World :=
  mkWorld (actors w) (items w) (folders w)
    (messages w ++ [MODULE_TAG +:+ message]) (console w).

(** ** Folder setup (section 3 of the source) *)

Definition parentId (f : Folder.t) : option Id := Folder.folder f.

Definition isFolderEmpty (w : World) (f : Folder.t) : bool :=
  negb (bool_decide (Exists (λ it, Item.folder it = Some (Folder.id f)) (items w)))
  && negb (bool_decide
             (Exists (λ child, parentId child = Some (Folder.id f)) (folders w))).

(** The repair pass is threaded through a journal: every [delete()] it
    executes is recorded with the folder deleted and the world the call ran
    in. *)
Record Deletion : Type := mkDeletion {
  victim : Folder.t;
  before : World
}.

Record Repair : Type := mkRepair {
  world : World;
  deleted : list Deletion
}.

(** [if (isFolderEmpty(f)) { console.log(...); await f.delete(); }] *)
Definition deleteIfEmpty (entry : Id → LogEntry) (s : Repair) (f : Folder.t)
    : Repair :=
  if isFolderEmpty (world s) f then
    mkRepair (deleteFolder f (consoleLog (entry (Folder.id f)) (world s)))
      (deleted s ++ [mkDeletion f (world s)])
  else s.

Definition isStray (name : string) (f : Folder.t) : Prop :=
  Folder.name f = name ∧ Folder.type f = "Item" ∧ parentId f = None.
#[global] Instance isStray_dec n f : Decision (isStray n f).
Proof. unfold isStray. apply _. Defined.
#[global] Typeclasses Opaque isStray.

(** Root folder: keep the first candidate and delete the other candidates
    that are empty, or create the root. *)
Definition ensureRoot (s : Repair) : Folder.t * Repair :=
  match filter isRootFolder (folders (world s)) with
  | rootFolder :: dupes =>
      (rootFolder, foldl (deleteIfEmpty LogDeleteDuplicateRoot) s dupes)
  | [] =>
      let '(rootFolder, w) := createFolder CODEX_NAME "Item" None (world s) in
      (rootFolder,
       mkRepair
         (consoleLog (LogCreatedRoot (Folder.name rootFolder) (Folder.id rootFolder)) w)
         (deleted s))
  end.

(** One round of the subfolder loop. *)
Definition ensureSubfolder (rootFolder : Folder.t) (s : Repair) (name : string)
    : Repair :=
  let matches :=
    filter (isSubfolder (Some name) (Folder.id rootFolder)) (folders (world s)) in
  let s1 :=
    if bool_decide (1 < length matches) then
      foldl (deleteIfEmpty (LogDeleteDuplicateSubfolder name)) s (tail matches)
    else s in
  if bool_decide (length matches = 0) then
    let '(sub, w) :=
      createFolder name "Item" (Some (Folder.id rootFolder)) (world s1) in
    mkRepair
      (consoleLog (LogCreatedSubfolder (Folder.name sub) (Folder.name rootFolder)) w)
      (deleted s1)
  else s1.

(** One round of the stray loop. *)
Definition cleanStrays (s : Repair) (name : string) : Repair :=
  foldl (deleteIfEmpty (LogDeleteStray name)) s
    (filter (isStray name) (folders (world s))).

Definition ensureFolderHierarchy (w : World) : Folder.t * Repair :=
  let '(rootFolder, s) := ensureRoot (mkRepair w []) in
  let s := foldl (ensureSubfolder rootFolder) s SPELL_LEVEL_FOLDERS in
  let s := foldl cleanStrays s SPELL_LEVEL_FOLDERS in
  (rootFolder, s).

(** ** Relay wrappers (section 2 of the source)

    [executeAsGM] runs the handler of the same name on the executor; the
    wrappers are the handlers themselves. *)

Definition setItemFlag := _gmSetFlag.
Definition requestGMNotification := _gmNotify.

Definition mirrorToWorldFolder (actorItem : ItemDoc) (level : option Z)
    (w : World) : World :=
  _gmMirror (data actorItem) (uuid actorItem) level w.

(** ** Assigning a category (section 4 of the source) *)

Definition resolveItem (w : World) (u : Uuid) : option ItemDoc :=
  match fromUuid w u with
  | Some (DocItem d) => Some d
  | _ => None
  end.

(** [normalizedLevel]: [null], or the result of [Number.parseInt]. *)
Inductive Normalized : Type :=
  | NNull
  | NNumber (n : JsNumber).

Definition normalizeLevel (level : JsVal) : Normalized :=
  if Js.strictEq level JNull || Js.strictEq level (JStr "")
     || Js.strictEq level (JStr "0") || Js.strictEq level (JInt 0)
  then NNull
  else NNumber (Js.parseInt level).

(** The guard of line 446: [None] when the workflow returns early, else
    the category ([None] for uncategorized). *)
Definition checkLevel (n : Normalized) : option (option Z) :=
  match n with
  | NNull => Some None
  | NNumber n => if Js.isLevel n then Some n else None
  end.

Definition levelLabel (level : option Z) : string :=
  match level with
  | Some z =>
      if decide (z = 0%Z) then "Uncategorized" else "Level " +:+ Js.toString (JInt z)
  | None => "Uncategorized"
  end.

Definition actorName (w : World) (codex : ItemDoc) : string :=
  match parent codex ≫= λ a, actors w !! a with
  | Some actor => Actor.name actor
  | None => "Unknown Actor"
  end.

(** [obj[name] = value] on a plain object whose keys are names: the
    assignment creates or overwrites the own property [name], except for
    the name ["__proto__"], which [Object.prototype] defines with a setter:
    without an own property of that name the setter runs, and for a value
    that is not an object it does nothing. *)
Definition assign (name : string) (value : JsVal) (m : gmap string JsVal)
    : gmap string JsVal :=
  if decide (name = "__proto__" ∧ m !! name = None) then m
  else <[name := value]> m.

(** The documents [codex] and [blueprint] are live references into the
    store: they are given by UUID and read from the world. A reference
    that does not resolve to an item is the falsy argument of line 441. *)
Definition setSlotLevelForBlueprint (userName : string)
    (codexRef blueprintRef : Uuid) (level : JsVal) (w : World) : World :=
  match resolveItem w codexRef, resolveItem w blueprintRef with
  | Some codex, Some blueprint =>
      match checkLevel (normalizeLevel level) with
      | None => w
      | Some normalizedLevel =>
          let blueprintUuid := uuid blueprint in
          let blueprintName := Item.name (data blueprint) in
          (* Update codex flag maps via GM *)
          let uuidMap :=
            Js.duplicate
              (default ∅ (Flags.slotLevelsByUuid (Item.flags (data codex)))) in
          let nameMap :=
            Js.duplicate
              (default ∅ (Flags.slotLevelsByName (Item.flags (data codex)))) in
          let uuidMap :=
            match normalizedLevel with
            | None => delete blueprintUuid uuidMap
            | Some z => <[blueprintUuid := JInt z]> uuidMap
            end in
          let nameMap :=
            if decide (blueprintName = "") then nameMap else
            match normalizedLevel with
            | None => delete blueprintName nameMap
            | Some z => assign blueprintName (JInt z) nameMap
            end in
          let w := setItemFlag (uuid codex) (SlotLevelsByUuid uuidMap) w in
          let w := setItemFlag (uuid codex) (SlotLevelsByName nameMap) w in
          (* Update the item's own flag via GM *)
          let w := setItemFlag blueprintUuid (SpellLevel (levelVal normalizedLevel)) w in
          (* Mirror to world folder *)
          let w :=
            mirrorToWorldFolder (default blueprint (resolveItem w blueprintUuid))
              normalizedLevel w in
          (* Notify GM *)
          requestGMNotification
            ("<strong>" +:+ userName +:+ "</strong>'s character <strong>"
             +:+ actorName w codex +:+ "</strong> assigned <strong>"
             +:+ blueprintName +:+ "</strong> to <strong>"
             +:+ levelLabel normalizedLevel +:+ "</strong>") w
      end
  | _, _ => w
  end.


(** ** World items (section 3 of the source, continued) *)

Definition FEAT_NAME : string := "Create Innovation".

(** The data of the two world items.  The description and the activity of
    the feature are text and sheet configuration; they are not part of the
    embedding. *)
Definition featData (rootFolder : Folder.t) : Item.t :=
  Item.mk 0 FEAT_NAME "icons/skills/trades/smithing-anvil-silver-red.webp" "feat"
    (Some (Folder.id rootFolder)) RefNull RefNull
    (Flags.mk false true false false JUndefined None None None None None).

Definition codexTemplateData (rootFolder : Folder.t) : Item.t :=
  Item.mk 0 CODEX_NAME "icons/sundries/books/book-symbol-yellow-grey.webp"
    "container" (Some (Folder.id rootFolder)) RefNull RefNull
    (Flags.mk true false false false JUndefined None None None None None).

(** [create] is the answer to [Dialog.confirm]; it is read only when one of
    the two items is missing. *)
Definition ensureWorldItems (rootFolder : Folder.t) (create : bool) (w : World)
    : World :=
  let existingFeat :=
    findFirst (λ i, Flags.isCreateFeature (Item.flags i) = true) (items w) in
  let existingCodex :=
    findFirst (λ i, Flags.isCodex (Item.flags i) = true) (items w) in
  if bool_decide (is_Some existingFeat ∧ is_Some existingCodex) then w else
  if negb create then w else
  let w :=
    if bool_decide (existingFeat = None) then createItem (featData rootFolder) w
    else w in
  if bool_decide (existingCodex = None)
  then createItem (codexTemplateData rootFolder) w
  else w.

(** The [ready] hook. *)
Definition onReady (isGM create : bool) (w : World) : World :=
  if isGM then
    let '(rootFolder, s) := ensureFolderHierarchy w in
    ensureWorldItems rootFolder create (world s)
  else w.

(** ** Helpers (section 4 of the source, continued) *)

Module SlotOption.
Record t : Type := mk {
  value : string;
  label : string;
  selected : bool
}.
End SlotOption.

Definition buildSlotOptions (selectedLevel : JsVal) : list SlotOption.t :=
  SlotOption.mk "0" "Uncategorized"
    (Js.strictEq selectedLevel JNull || Js.strictEq selectedLevel (JInt 0)
     || Js.strictEq selectedLevel JUndefined)
  :: ((λ i, SlotOption.mk (Js.toString (JInt i)) (Js.toString (JInt i))
              (Js.strictEq (JInt i) selectedLevel))
        <$> seqZ 1 9).

(** A row of the "blueprints" tab. *)
Module Blueprint.
Record t : Type := mk {
  name : string;
  img : string;
  uuid : Uuid;
  slotLevel : option Z;
  canFabricate : bool;
  slotOptions : list SlotOption.t
}.
End Blueprint.

(** [===] of [system.container] and [system.containerId] with the
    identifier and with the UUID of the Container. *)
Definition isItemInCodex (item : Item.t) (codex : ItemDoc) : bool :=
  let container := Item.container item in
  let containerId := Item.containerId item in
  bool_decide (container = RefId (Item.id (data codex))
               ∨ container = RefUuid (uuid codex)
               ∨ containerId = RefId (Item.id (data codex))
               ∨ containerId = RefUuid (uuid codex)).

(** [actor] is the actor with identifier [a]. *)
Definition getBlueprintItems (a : Id) (actor : Actor.t) (codex : ItemDoc)
    : list Blueprint.t :=
  (λ item,
     let level := getSlotLevel codex (mkItemDoc (Some a) item) in
     Blueprint.mk (Item.name item) (Item.img item) (uuid (mkItemDoc (Some a) item))
       level
       (match level with
        | Some z => bool_decide (1 ≤ z ≤ 9)%Z
        | None => false
        end)
       (buildSlotOptions (levelVal level)))
    <$> filter (λ item, isItemInCodex item codex = true) (Actor.items actor).

(** An entry of the "active" tab.  The portrait of the holder is not part
    of the embedding. *)
Module Active.
Record t : Type := mk {
  itemName : string;
  itemImg : string;
  itemUuid : Uuid;
  actorName : string
}.
End Active.

(** The store keeps the actors as a finite map: the entries come in the
    order of the map, not in the order of [game.actors.contents]; within an
    actor they follow its items. *)
Definition getActiveInnovations (codex : option ItemDoc) (w : World)
    : list Active.t :=
  match codex with
  | None => []
  | Some codex =>
      '(a, actor) ← map_to_list (actors w);
      (λ item, Active.mk (Item.name item) (Item.img item)
                 (uuid (mkItemDoc (Some a) item)) (Actor.name actor))
        <$> filter (λ item, Flags.originUuid (Item.flags item) = Some (uuid codex))
              (Actor.items actor)
  end.

(** ** Player-facing logic (section 5 of the source) *)

(** [RECENT_OPEN]: per Container, the time of the last window opened for
    it. *)
Definition RecentOpen := gmap Uuid Z.

(** [now] is [Date.now()]; the second component is the Container a window
    is rendered for, if any. *)
Definition openCodex (codexItem : option ItemDoc) (now : Z) (recent : RecentOpen)
    : RecentOpen * option ItemDoc :=
  match codexItem with
  | None => (recent, None)
  | Some codexItem =>
      let lastOpen := default 0%Z (recent !! uuid codexItem) in
      if bool_decide (now - lastOpen < 250)%Z then (recent, None)
      else (<[uuid codexItem := now]> recent, Some codexItem)
  end.

(** What [ui.notifications] shows: the message, without the names its
    text quotes. *)
Inductive Notice : Type :=
  | WarnFeatureNotOnActor
  | ErrorAddCodexFailed
  | ErrorCodexNotFound
  | InfoCodexAdded
  | WarnNameRequired
  | ErrorCreateFailed
  | ErrorCreatedNotFound
  | ErrorBlueprintNotFound
  | ErrorTargetNotFound
  | ErrorCodexNotOwned
  | WarnAssignLevel
  | WarnNoSlots
  | InfoFabricated
  | ErrorFabricationFailed.

#[global] Instance Notice_eq_dec : EqDecision Notice.
Proof. solve_decision. Defined.

(** The client state: the world and [RECENT_OPEN]. *)
Record Client : Type := mkClient {
  store : World;
  recent : RecentOpen
}.

(** [item.parent] when it is an Actor. *)
Definition parentActor (w : World) (d : ItemDoc) : option (Id * Actor.t) :=
  parent d ≫= λ a, pair a <$> actors w !! a.

Definition addCodexToActor := _gmAddCodexToActor.
Definition createInnovationOnActor := _gmCreateInnovation.
Definition fabricate := _gmFabricate.

(** The store is replicated: a handler runs against the store of the
    executor, and the caller reads its own copy, which follows the
    executor's in time.  The copy is taken to be current when a workflow
    starts.  [replica synced before after] is what the caller reads after a
    handler took the store from [before] to [after]: the store the handler
    left when the copy has caught up, and the store from before the call
    when it has not. *)
Definition replica (synced : bool) (before after : World) : World :=
  if synced then after else before.

(** The result: the client state, the notifications shown and the
    Container a window is rendered for, if any. *)
Definition useCreateFeature (feat : ItemDoc) (now : Z) (synced : bool)
    (c : Client) : Client * list Notice * option ItemDoc :=
  match parentActor (store c) feat with
  | None => (c, [WarnFeatureNotOnActor], None)
  | Some (a, actor) =>
      (* Check if actor already has a codex *)
      match findFirst (λ i, isCodexItem i = true) (Actor.items actor) with
      | Some codex =>
          let '(r, opened) := openCodex (Some (mkItemDoc (Some a) codex)) now (recent c) in
          (mkClient (store c) r, [], opened)
      | None =>
          (* Ask GM to add the codex via socketlib *)
          match addCodexToActor (UActor a) (store c) with
          | (None, w) => (mkClient w (recent c), [ErrorAddCodexFailed], None)
          | (Some codexUuid, w) =>
              match resolveItem (replica synced (store c) w) codexUuid with
              | None => (mkClient w (recent c), [ErrorCodexNotFound], None)
              | Some codex =>
                  let '(r, opened) := openCodex (Some codex) now (recent c) in
                  (mkClient w r, [InfoCodexAdded], opened)
              end
          end
      end
  end.

(** [result] is what the dialog returns: nothing when it is closed, else
    the trimmed name and the type chosen.  The result is the created
    blueprint, or null. *)
Definition createNewInnovation (userName : string) (codex : ItemDoc)
    (actor : Id) (result : option (string * string)) (synced : bool) (w : World)
    : option ItemDoc * list Notice * World :=
  match result with
  | None => (None, [WarnNameRequired], w)
  | Some (name, type) =>
      if decide (name = "") then (None, [WarnNameRequired], w) else
      (* Create item via GM *)
      match createInnovationOnActor (UActor actor) (Item.id (data codex)) name type w with
      | (None, w) => (None, [ErrorCreateFailed], w)
      | (Some createdUuid, w1) =>
          match resolveItem (replica synced w w1) createdUuid with
          | None => (None, [ErrorCreatedNotFound], w1)
          | Some created =>
              (* Mirror to world Uncategorized folder via GM *)
              let w := mirrorToWorldFolder created None w1 in
              (* Notify GM *)
              let w :=
                requestGMNotification
                  ("<strong>" +:+ userName +:+ "</strong>'s character <strong>"
                   +:+ default "Unknown Actor" (Actor.name <$> actors w !! actor)
                   +:+ "</strong> created a new innovation: <strong>"
                   +:+ name +:+ "</strong> (Uncategorized)") w in
              (Some created, [], w)
          end
      end
  end.

(** ** The Container window (section 6 of the source)

    The window holds its Container as a live document: it is given by
    reference and read from the world. *)

(** The value of [Number.parseInt] as a value.  The sign of a zero is not
    kept: the readers compare the value with [=== 0] or convert it to a
    string, and neither tells the zeros apart. *)
Definition numberVal (n : JsNumber) : JsVal :=
  match n with
  | Some z => JInt z
  | None => JNaN
  end.

(** The level the [change] listener of a category selector passes on. *)
Definition levelOfRaw (rawValue : string) : JsVal :=
  if decide (rawValue = "0") then JNull
  else numberVal (Js.parseInt (JStr rawValue)).

(** The [change] listener of a category selector; [rawValue] is the value
    of the option chosen.  A reference to a document that is not an item is
    outside the embedding ([None]). *)
Definition onSlotLevelChange (userName : string) (codexRef : option Uuid)
    (blueprintUuid : option Uuid) (rawValue : string) (w : World) : option World :=
  match blueprintUuid, codexRef with
  | Some blueprintUuid, Some codexRef =>
      let level := levelOfRaw rawValue in
      match fromUuid w blueprintUuid with
      | None => Some w
      | Some (DocItem _) =>
          Some (setSlotLevelForBlueprint userName codexRef blueprintUuid level w)
      | Some _ => None
      end
  | _, _ => Some w
  end.

(** [_fabricate].  The checks and the handler are apart in time: [others]
    is what happens to the world while the dialog is open, [transit] what
    happens to it while the request travels to the executor; [confirmSpend]
    is the answer to the dialog, [attached] tells whether the second step of
    the handler succeeds.  The owner is a live document: after the dialog
    its pool is read from the world as it is then, or from what the window
    last saw when the actor is gone.  When the handler throws, so does
    [_fabricate], before any notification. *)
Definition _fabricate (codexRef : option Uuid) (blueprintUuid targetUuid : Uuid)
    (confirmSpend : bool) (others transit : World → World) (attached : bool)
    (w : World) : Completion (list Notice) * World :=
  match codexRef ≫= resolveItem w with
  | None => (Returned [], w)
  | Some codex =>
      match fromUuid w blueprintUuid, fromUuid w targetUuid, parentActor w codex with
      | Some (DocItem blueprint), Some (DocActor target targetActor),
        Some (owner, ownerActor) =>
          match getSlotLevel codex blueprint with
          | None => (Returned [WarnAssignLevel], w)
          | Some slotLevel =>
              if bool_decide (slotLevel = 0 ∨ slotLevel < 1 ∨ slotLevel > 9)%Z
              then (Returned [WarnAssignLevel], w) else
              let w := others w in
              if negb confirmSpend then (Returned [], w) else
              let ownerActor := default ownerActor (actors w !! owner) in
              match slotsOf ownerActor slotLevel with
              | JNum currentSlots =>
                  if negb (Double.isFinite currentSlots)
                     || Double.leb currentSlots Double.zero
                  then (Returned [WarnNoSlots], w) else
                  (* All GM operations via socketlib *)
                  match fabricate (UActor owner) (UActor target) blueprintUuid
                          (uuid codex) slotLevel attached (transit w) with
                  | (Returned true, w) => (Returned [InfoFabricated], w)
                  | (Returned false, w) => (Returned [ErrorFabricationFailed], w)
                  | (Threw, w) => (Threw, w)
                  end
              | _ => (Returned [WarnNoSlots], w)
              end
          end
      | Some (DocItem _), Some (DocActor _ _), None =>
          (Returned [ErrorCodexNotOwned], w)
      | Some (DocItem _), _, _ => (Returned [ErrorTargetNotFound], w)
      | _, _, _ => (Returned [ErrorBlueprintNotFound], w)
      end
  end.
(** ** Vocabulary of the statements *)

(** The item the update path of [mirror] leaves in place of the Mirror. *)
Definition relocated (mirrorItem itemData : Item.t) (folder : Folder.t) : Item.t :=
  Item.mk (Item.id mirrorItem) (Item.name itemData) (Item.img itemData)
    (Item.type mirrorItem) (Some (Folder.id folder)) (Item.container mirrorItem)
    (Item.containerId mirrorItem) (Item.flags mirrorItem).

(** The two assignment maps of a Container, read as [getFlag(...) ?? {}]. *)
Definition uuidMapOf (codex : ItemDoc) : gmap Uuid JsVal :=
  default ∅ (Flags.slotLevelsByUuid (Item.flags (data codex))).

Definition nameMapOf (codex : ItemDoc) : gmap string JsVal :=
  default ∅ (Flags.slotLevelsByName (Item.flags (data codex))).

(** The flags of the item a reference resolves to. *)
Definition flagsAt (w : World) (u : Uuid) : option Flags.t :=
  Item.flags ∘ data <$> resolveItem w u.

(** The inputs the assign-category workflow maps to "uncategorized". *)
Definition uncategorizedInputs : list JsVal :=
  [JNull; JStr ""; JStr "0"; JInt 0; JNum Double.negZero].

(** [new] is the temporary copy [fabricate] makes of [blueprint]: the
    blueprint's data with the name prefixed, the container fields cleared
    and the two flags of a Temporary Derived Record set. *)
Definition temporaryCopyOf (codexUuid : Uuid) (blueprint new : Item.t) : Prop :=
  Item.name new = "Temporary " +:+ Item.name blueprint
  ∧ Item.img new = Item.img blueprint
  ∧ Item.type new = Item.type blueprint
  ∧ Item.folder new = Item.folder blueprint
  ∧ Item.container new = RefNull ∧ Item.containerId new = RefNull
  ∧ Flags.isTemporary (Item.flags new) = true
  ∧ Flags.originUuid (Item.flags new) = Some codexUuid
  ∧ Flags.isCodex (Item.flags new) = Flags.isCodex (Item.flags blueprint)
  ∧ Flags.isCreateFeature (Item.flags new) = Flags.isCreateFeature (Item.flags blueprint)
  ∧ Flags.isInnovation (Item.flags new) = Flags.isInnovation (Item.flags blueprint)
  ∧ Flags.spellLevel (Item.flags new) = Flags.spellLevel (Item.flags blueprint)
  ∧ Flags.createdBy (Item.flags new) = Flags.createdBy (Item.flags blueprint)
  ∧ Flags.mirrorOf (Item.flags new) = Flags.mirrorOf (Item.flags blueprint)
  ∧ Flags.slotLevelsByUuid (Item.flags new)
    = Flags.slotLevelsByUuid (Item.flags blueprint)
  ∧ Flags.slotLevelsByName (Item.flags new)
    = Flags.slotLevelsByName (Item.flags blueprint).

(** The Mirrors of a source record, in the order of the world collection. *)
Definition mirrorsOf (actorItemUuid : Uuid) (w : World) : list Item.t :=
  filter (isMirrorOf actorItemUuid) (items w).

(** The repair pass, seen from the world [w0] it started in: it has left
    actors, items and chat alone, every folder it deleted was empty in the
    world the deletion ran in, and every folder of [w0] is still there or
    was deleted by a journaled call. *)
Definition Conservative (w0 : World) (s : Repair) : Prop :=
  actors (world s) = actors w0 ∧ items (world s) = items w0
  ∧ messages (world s) = messages w0
  ∧ Forall (λ d, isFolderEmpty (before d) (victim d) = true
                 ∧ items (before d) = items w0) (deleted s)
  ∧ ∀ f, f ∈ folders w0 →
         f ∈ folders (world s)
         ∨ ∃ d, d ∈ deleted s ∧ Folder.id (victim d) = Folder.id f.

(** Nothing is parented to the folder identifier [x]: no item lies in it
    and no folder has it as parent. *)
Definition holdsNothing (w : World) (x : Id) : Prop :=
  Forall (λ it, Item.folder it ≠ Some x) (items w)
  ∧ Forall (λ child, parentId child ≠ Some x) (folders w).

#[global] Instance holdsNothing_dec w x : Decision (holdsNothing w x).
Proof. unfold holdsNothing. apply _. Defined.

(** A sweep over the candidates [cands], started in the world [w], deletes
    the folders that carry a candidate's identifier and hold nothing. *)
Definition doomed (w : World) (cands : list Folder.t) (f : Folder.t) : Prop :=
  Folder.id f ∈ Folder.id <$> cands ∧ holdsNothing w (Folder.id f).

#[global] Instance doomed_dec w cands f : Decision (doomed w cands f).
Proof. unfold doomed. apply _. Defined.

(** The folder identifiers of a world are distinct. *)
Definition wfFolders (w : World) : Prop := NoDup (Folder.id <$> folders w).

(** The root candidates are [root] followed by folders that hold
    something. *)
Definition RootsOk (root : Folder.t) (w : World) : Prop :=
  ∃ rest, filter isRootFolder (folders w) = root :: rest
          ∧ Forall (λ d, ¬ holdsNothing w (Folder.id d)) rest.

(** Under [root] there is a subfolder named [name], and the further ones of
    that name hold something. *)
Definition SubsOk (root : Folder.t) (w : World) (name : string) : Prop :=
  ∃ first rest,
    filter (isSubfolder (Some name) (Folder.id root)) (folders w) = first :: rest
    ∧ Forall (λ d, ¬ holdsNothing w (Folder.id d)) rest.

(** The top-level folders named [name] hold something. *)
Definition StraysOk (w : World) (name : string) : Prop :=
  Forall (λ d, ¬ holdsNothing w (Folder.id d)) (filter (isStray name) (folders w)).

(** What a phase of the repair pass, from [w] to [w'], leaves alone:
    the items, "holds nothing" for every identifier but the root's, and
    every folder other than the root that holds something. *)
Definition Spares (root : Folder.t) (w w' : World) : Prop :=
  items w' = items w
  ∧ (∀ x, x ≠ Folder.id root → holdsNothing w' x ↔ holdsNothing w x)
  ∧ (∀ f, f ∈ folders w → Folder.id f ≠ Folder.id root →
          ¬ holdsNothing w (Folder.id f) → f ∈ folders w').

(** The state the repair pass leaves: nothing is left for it to do. *)
Definition Repaired (root : Folder.t) (w : World) : Prop :=
  wfFolders w ∧ RootsOk root w
  ∧ Forall (SubsOk root w) SPELL_LEVEL_FOLDERS
  ∧ Forall (StraysOk w) SPELL_LEVEL_FOLDERS.

(** ** Sample worlds *)

Module Sample.

Definition emptyWorld : World := mkWorld ∅ [] [] [] [].

Definition item (i : Id) (name : string) (f : Flags.t) : Item.t :=
  Item.mk i name "icon.webp" "loot" None RefNull RefNull f.

Definition originFlags (u : Uuid) : Flags.t :=
  Flags.mk false false false true JUndefined None (Some u) None None None.

(** The codex of actor 1 is item 5; actor 2 holds item 7, fabricated from
    that codex. *)
Definition codexFlags : Flags.t :=
  Flags.mk true false false false JUndefined None None None None None.

Definition artificer : Actor.t :=
  Actor.mk "Artificer" {[ 3%Z := JInt 0; 4%Z := JInt 2 ]}
    [Item.mk 5 CODEX_NAME "book.webp" "container" None RefNull RefNull codexFlags;
     item 6 "Grapple Gun" Flags.empty].

Definition ally : Actor.t :=
  Actor.mk "Ally" ∅ [item 7 "Temporary Grapple Gun" (originFlags (UOwned 1 5))].

Definition party : World :=
  mkWorld {[ 1 := artificer; 2 := ally ]} [] [] [] [].

(** Actor 3 holds a codex (item 5) and a blueprint without a name
    (item 8). *)
Definition tinkerer : Actor.t :=
  Actor.mk "Tinkerer" ∅
    [Item.mk 5 CODEX_NAME "book.webp" "container" None RefNull RefNull codexFlags;
     item 8 "" Flags.empty].

Definition workshop : World := mkWorld {[ 3 := tinkerer ]} [] [] [] [].

(** A world with the Container template (world item 1) and an actor
    that owns nothing yet. *)
Definition library : World :=
  mkWorld {[ 4 := Actor.mk "Newcomer" ∅ [] ]}
    [Item.mk 1 CODEX_NAME "book.webp" "container" (Some 1) RefNull RefNull codexFlags]
    [] [] [].

(** A world with the folder tree in place: the root has identifier 1,
    "Uncategorized" 2, "1st" 3, ..., "9th" 11. *)
Definition catalog : World := world (ensureFolderHierarchy emptyWorld).2.

Definition grappleGun : Item.t := item 6 "Grapple Gun" Flags.empty.

(** The catalog after the blueprint was mirrored under category 3. *)
Definition mirrored : World := _gmMirror grappleGun (UOwned 1 6) (Some 3%Z) catalog.

(** A Container whose maps disagree about the blueprint "Grapple Gun"
    (item 6 of actor 1): 3 by reference, 7 by name. *)
Definition markedCodex : ItemDoc :=
  mkItemDoc (Some 1)
    (Item.mk 5 CODEX_NAME "book.webp" "container" None RefNull RefNull
       (Flags.mk true false false false JUndefined None None None
          (Some {[ UOwned 1 6 := JStr "3" ]})
          (Some {[ "Grapple Gun" := JInt 7 ]}))).

Definition gunDoc : ItemDoc := mkItemDoc (Some 1) (item 6 "Grapple Gun" Flags.empty).

(** A world with a duplicate root (2, empty), a duplicate "1st" subfolder
    that holds an item (4) and an empty stray "2nd" at top level (5). *)
Definition cluttered : World :=
  mkWorld ∅
    [Item.mk 1 "Grapple Gun" "icon.webp" "loot" (Some 4) RefNull RefNull Flags.empty]
    [Folder.mk 1 CODEX_NAME "Item" None;
     Folder.mk 2 CODEX_NAME "Item" None;
     Folder.mk 3 "1st" "Item" (Some 1);
     Folder.mk 4 "1st" "Item" (Some 1);
     Folder.mk 5 "2nd" "Item" None]
    [] [].

Definition grappleHook : Item.t := item 6 "Grapple Hook" Flags.empty.

Definition gunMirror : Item.t :=
  Item.mk 1 "Grapple Gun" "icon.webp" "loot" (Some 5) RefNull RefNull
    (Flags.mk false false false false (JInt 3) None None (Some (UOwned 1 6))
       None None).

Definition fifth : Folder.t := Folder.mk 7 "5th" "Item" (Some 1).

End Sample.


(** ** Vocabulary of the further statements *)

(** The world holds the feature item, and the Container template. *)
Definition hasFeature (w : World) : Prop :=
  is_Some (findFirst (λ i, Flags.isCreateFeature (Item.flags i) = true) (items w)).

Definition hasTemplate (w : World) : Prop :=
  is_Some (findFirst (λ i, Flags.isCodex (Item.flags i) = true) (items w)).


(** A sequence of [openCodex] calls, each with the Container and the time
    of the call: the final [RECENT_OPEN] and the windows rendered, with
    the time of their call, in order. *)
Definition openAll (calls : list (ItemDoc * Z)) (recent : RecentOpen)
    : RecentOpen * list (ItemDoc * Z) :=
  foldl (λ '(r, rendered) '(codexItem, now),
           match openCodex (Some codexItem) now r with
           | (r', Some c) => (r', rendered ++ [(c, now)])
           | (r', None) => (r', rendered)
           end)
    (recent, []) calls.

(** The value of the option that stands for a category. *)
Definition optionValue (level : option Z) : string :=
  match level with
  | Some z => Js.toString (JInt z)
  | None => "0"
  end.


(** What a sequence of [openCodex] calls maintains: [RECENT_OPEN] holds,
    for every window rendered, a time not before it; and two windows for the
    same Container are 250 ms apart. *)
Definition Spaced (st : RecentOpen * list (ItemDoc * Z)) : Prop :=
  (∀ c t, (c, t) ∈ st.2 → ∃ t', st.1 !! uuid c = Some t' ∧ (t ≤ t')%Z)
  ∧ (∀ i j c1 t1 c2 t2, (i < j)%nat →
       st.2 !! i = Some (c1, t1) → st.2 !! j = Some (c2, t2) →
       uuid c1 = uuid c2 → (t1 + 250 ≤ t2)%Z).


(** * Properties *)

#[global] Arguments findFirst : simpl never.
#[global] Arguments alterFirst : simpl never.
#[global] Arguments deleteById : simpl never.

(** ** Collections *)

Section collections.
Context {A : Type} (P : A → Prop) `{!∀ x, Decision (P x)}.

Lemma findFirst_nil : findFirst P [] = None.
Proof. reflexivity. Qed.

Lemma findFirst_cons x l :
  findFirst P (x :: l) = if decide (P x) then Some x else findFirst P l.
Proof.
  unfold findFirst. cbn. destruct (decide (P x)); [done|].
  destruct (list_find P l) as [[k y]|]; done.
Qed.

Lemma findFirst_None l : findFirst P l = None ↔ Forall (λ x, ¬ P x) l.
Proof.
  unfold findFirst. rewrite fmap_None. apply list_find_None.
Qed.

Lemma findFirst_Some l x : findFirst P l = Some x → x ∈ l ∧ P x.
Proof.
  unfold findFirst. intros [[k y] [Hf ->]]%fmap_Some.
  apply list_find_Some in Hf as (Hk & HP & _). split; [|done].
  by eapply list_elem_of_lookup_2.
Qed.

(** Filtering on a condition that every [P]-element meets does not change
    what [find] returns. *)
Lemma findFirst_filter (Q : A → Prop) `{!∀ x, Decision (Q x)} l :
  (∀ x, P x → Q x) → findFirst P (filter Q l) = findFirst P l.
Proof.
  intros HPQ. induction l as [|x l IH]; [done|].
  rewrite filter_cons. destruct (decide (Q x)) as [HQ|HQ].
  - rewrite !findFirst_cons, IH. done.
  - rewrite findFirst_cons, IH. destruct (decide (P x)) as [HP|]; [|done].
    destruct HQ. auto.
Qed.

(** An element appended to a list with no [P]-element is the first
    [P]-element when it satisfies [P]. *)
Lemma findFirst_snoc l x :
  findFirst P (l ++ [x]) =
    match findFirst P l with
    | Some y => Some y
    | None => if decide (P x) then Some x else None
    end.
Proof.
  induction l as [|y l IH]; cbn [app].
  - rewrite findFirst_cons, findFirst_nil. done.
  - rewrite !findFirst_cons. destruct (decide (P y)); done.
Qed.
End collections.

Lemma findFirst_deleteById_same i l : findFirst (hasId i) (deleteById i l) = None.
Proof.
  apply findFirst_None, Forall_forall. intros x Hx.
  apply list_elem_of_filter in Hx as [Hne _]. exact Hne.
Qed.

Lemma findFirst_deleteById_other i j l :
  i ≠ j → findFirst (hasId j) (deleteById i l) = findFirst (hasId j) l.
Proof.
  intros Hij. apply findFirst_filter. unfold hasId. congruence.
Qed.

(** ** Recall *)

Lemma resolveItem_deleteItem_same w u item :
  resolveItem w u = Some item → resolveItem (deleteItem item w) u = None.
Proof.
  unfold resolveItem, deleteItem. destruct u as [a|i|a i|f]; cbn.
  - destruct (actors w !! a); discriminate.
  - destruct (findFirst (hasId i) (items w)) as [x|] eqn:Hx; [|discriminate].
    intros [= <-]. cbn. apply findFirst_Some in Hx as [_ Hid].
    unfold hasId in Hid. rewrite Hid, findFirst_deleteById_same. done.
  - destruct (actors w !! a) as [act|] eqn:Ha; [|discriminate]. cbn.
    destruct (findFirst (hasId i) (Actor.items act)) as [x|] eqn:Hx; [|discriminate].
    intros [= <-]. cbn. rewrite lookup_alter_eq, Ha. cbn.
    apply findFirst_Some in Hx as [_ Hid].
    unfold hasId in Hid. rewrite Hid, findFirst_deleteById_same. done.
  - destruct (findFirst _ (folders w)); discriminate.
Qed.

Lemma resolveItem_deleteItem_other w u u' item :
  resolveItem w u = Some item → u' ≠ u →
  resolveItem (deleteItem item w) u' = resolveItem w u'.
Proof.
  unfold resolveItem, deleteItem. intros Hres Hne.
  destruct u as [a|i|a i|f]; cbn in Hres.
  - destruct (actors w !! a); discriminate.
  - destruct (findFirst (hasId i) (items w)) as [x|] eqn:Hx; [|discriminate].
    injection Hres as <-. cbn. apply findFirst_Some in Hx as [_ Hid].
    unfold hasId in Hid. rewrite Hid.
    destruct u' as [a'|i'|a' i'|f']; cbn; try done.
    rewrite findFirst_deleteById_other; [done|congruence].
  - destruct (actors w !! a) as [act|] eqn:Ha; [|discriminate]. cbn in Hres.
    destruct (findFirst (hasId i) (Actor.items act)) as [x|] eqn:Hx; [|discriminate].
    injection Hres as <-. cbn. apply findFirst_Some in Hx as [_ Hid].
    unfold hasId in Hid. rewrite Hid.
    destruct u' as [a'|i'|a' i'|f']; cbn; try done.
    + destruct (alter _ a (actors w) !! a'); destruct (actors w !! a'); done.
    + destruct (decide (a = a')) as [<-|Haa].
      * rewrite lookup_alter_eq, Ha. cbn.
        rewrite findFirst_deleteById_other; [done|congruence].
      * rewrite lookup_alter_ne; done.
  - destruct (findFirst _ (folders w)); discriminate.
Qed.

(** C1. [recall(recordRef, containerRef)]: when the record does not exist
    or its origin back-reference differs from [containerRef], the handler
    returns [false] and leaves the world as it was; when the back-reference
    equals [containerRef], it returns [true] and the record is deleted from
    the collection that held it (its owner's items, or the world items for
    an ownerless record): the reference no longer resolves, and every other
    item reference resolves as before. *)
Theorem recall_authorization (itemUuid : Uuid) (codexUuid : option Uuid)
    (w : World) :
  ((resolveItem w itemUuid = None
    ∨ ∃ item, resolveItem w itemUuid = Some item
              ∧ Flags.originUuid (Item.flags (data item)) ≠ codexUuid) →
   _gmRecall itemUuid codexUuid w = (false, w))
  ∧ (∀ item, resolveItem w itemUuid = Some item →
       Flags.originUuid (Item.flags (data item)) = codexUuid →
       ∃ w', _gmRecall itemUuid codexUuid w = (true, w')
             ∧ w' = deleteItem item w
             ∧ resolveItem w' itemUuid = None
             ∧ ∀ u, u ≠ itemUuid → resolveItem w' u = resolveItem w u).
Proof.
  split.
  - unfold _gmRecall, resolveItem.
    intros [Hnone | (item & Hsome & Hne)].
    + destruct (fromUuid w itemUuid) as [[| |]|]; done.
    + destruct (fromUuid w itemUuid) as [[|d|]|]; try done.
      injection Hsome as ->. rewrite decide_True; done.
  - intros item Hsome Hauth. exists (deleteItem item w).
    split_and!; [|done|by eapply resolveItem_deleteItem_same|].
    + unfold _gmRecall. unfold resolveItem in Hsome.
      destruct (fromUuid w itemUuid) as [[|d|]|]; try done.
      injection Hsome as ->. rewrite decide_False; [done|]. by intros [].
    + intros u Hu. by eapply resolveItem_deleteItem_other.
Qed.

Lemma recall_authorization_witness :
  _gmRecall (UOwned 2 7) (Some (UOwned 1 9)) Sample.party = (false, Sample.party)
  ∧ ∃ w', _gmRecall (UOwned 2 7) (Some (UOwned 1 5)) Sample.party = (true, w')
          ∧ resolveItem w' (UOwned 2 7) = None.
Proof.
  split.
  - apply (proj1 (recall_authorization (UOwned 2 7) (Some (UOwned 1 9)) Sample.party)).
    right. eexists. split; [reflexivity|]. vm_compute. discriminate.
  - destruct (proj2 (recall_authorization (UOwned 2 7) (Some (UOwned 1 5)) Sample.party)
                _ eq_refl eq_refl) as (w' & Hrun & _ & Hgone & _).
    exists w'. split; assumption.
Defined.

(** ** Number parsing *)

Lemma digits_string_of_uint d : Js.digits (NilEmpty.string_of_uint d) = d.
Proof. induction d; cbn; congruence. Qed.

Lemma magnitude_uint d :
  d ≠ Nil → Js.magnitude (NilEmpty.string_of_uint d) = Some (Z.of_uint d).
Proof.
  intros Hd. unfold Js.magnitude. rewrite digits_string_of_uint.
  destruct d; done.
Qed.

(** A string that starts with a digit has no white space or sign to skip. *)
Lemma parseIntString_digit c s :
  is_Some (Js.digit c) → Js.parseIntString (String c s) = Js.magnitude (String c s).
Proof.
  intros [f Hf].
  destruct c as [[] [] [] [] [] [] [] []]; cbn in Hf; try discriminate Hf;
    reflexivity.
Qed.

Lemma parseIntString_uint d :
  d ≠ Nil → Js.parseIntString (NilEmpty.string_of_uint d) = Some (Z.of_uint d).
Proof.
  intros Hd. rewrite <- (magnitude_uint d Hd).
  destruct d; [done|..]; cbn [NilEmpty.string_of_uint];
    apply parseIntString_digit; by eexists.
Qed.

Lemma string_of_uint_nonnil d :
  d ≠ Nil → NilZero.string_of_uint d = NilEmpty.string_of_uint d.
Proof. destruct d; done. Qed.

(** A number is determined by its canonical form. *)
Lemma Double_eq (x y : Double.t) : Double.val x = Double.val y → x = y.
Proof.
  destruct x as [x Hx], y as [y Hy]. cbn. intros ->.
  f_equal. apply (proof_irrel _ _).
Qed.

(** The numbers that [=== 0] holds for are the two zeros. *)
Lemma eqb_zero x :
  Double.eqb x Double.zero = true ↔ x = Double.zero ∨ x = Double.negZero.
Proof.
  split.
  - destruct x as [[[]|[]| |[] m e] Hx]; try discriminate; intros _;
      [right|left]; by apply Double_eq.
  - by intros [->| ->].
Qed.

(** The numbers of the integers 0 to 9 print as one digit, which parses
    back to the integer. *)
Lemma JInt_0 : JInt 0 = JNum Double.zero.
Proof. reflexivity. Qed.

Lemma toString_digit z :
  (0 ≤ z ≤ 9)%Z → Js.toString (JInt z) = NilZero.string_of_int (Z.to_int z).
Proof.
  intros Hz.
  assert (z = 0 ∨ z = 1 ∨ z = 2 ∨ z = 3 ∨ z = 4 ∨ z = 5 ∨ z = 6 ∨ z = 7
          ∨ z = 8 ∨ z = 9)%Z as Hcases by lia.
  repeat destruct Hcases as [->|Hcases]; try subst z; vm_compute; reflexivity.
Qed.

Lemma parseInt_digit z : (0 ≤ z ≤ 9)%Z → Js.parseInt (JInt z) = Some z.
Proof.
  intros Hz.
  assert (z = 0 ∨ z = 1 ∨ z = 2 ∨ z = 3 ∨ z = 4 ∨ z = 5 ∨ z = 6 ∨ z = 7
          ∨ z = 8 ∨ z = 9)%Z as Hcases by lia.
  repeat destruct Hcases as [->|Hcases]; try subst z; vm_compute; reflexivity.
Qed.

(** Beyond the digits the string of a number is not the decimal of an
    integer: a fraction prints with a point, and from [10^21] on the
    exponent notation sets in; [parseInt] reads the digits before the point
    or the [e]. *)
Example toString_fraction :
  Js.toString (JNum (Double.make 11 (-1))) = "5.5"
  ∧ Js.parseInt (JNum (Double.make 11 (-1))) = Some 5%Z.
Proof. split; vm_compute; reflexivity. Qed.

Example toString_exponent :
  Js.toString (JInt (10 ^ 21 - 1)) = "1e+21"
  ∧ Js.toString (JInt (10 ^ 21)) = "1e+21"
  ∧ Js.parseInt (JInt (10 ^ 21)) = Some 1%Z
  ∧ Js.toString (JInt (10 ^ 20)) = "100000000000000000000"
  ∧ Js.toString (JInt (2 ^ 53 + 1)) = "9007199254740992"
  ∧ Js.toString (JNum (Double.make 1 (-1074))) = "5e-324"
  ∧ Js.toString (JNum (Double.make 1 (-1080))) = "0"
  ∧ Js.toString (JNum (Double.make 3 (-3))) = "0.375"
  ∧ Js.toString (JNum (Double.make (-1) (-20))) = "-9.5367431640625e-7"
  ∧ Js.toString (JInt (2 ^ 1024)) = "Infinity".
Proof. split_and!; vm_compute; reflexivity. Qed.

(** The string of a negative number starts with the sign: [parseInt] gives
    NaN or a number that is not above zero. *)
Lemma magnitude_nonneg s z : Js.magnitude s = Some z → (0 ≤ z)%Z.
Proof.
  unfold Js.magnitude. destruct (Js.digits s); intros [= <-];
    unfold Z.of_uint; apply N2Z.is_nonneg.
Qed.

Lemma parseInt_negative x :
  Double.ltb x Double.zero = true → Js.isLevel (Js.parseInt (JNum x)) = false.
Proof.
  destruct x as [[[]|[]| |[] m e] Hx]; try discriminate; intros _; [done|].
  unfold Js.parseInt, Js.toString, Double.toString. cbn [Double.val].
  change (Js.parseIntString ("-" +:+ ?s)) with (Z.opp <$> Js.magnitude s).
  destruct (Js.magnitude (Double.positiveToString m e)) as [z|] eqn:Hz; [|done].
  apply magnitude_nonneg in Hz. cbn. apply bool_decide_eq_false_2. lia.
Qed.

Lemma isLevel_Some n : Js.isLevel n = true ↔ ∃ z, n = Some z ∧ (1 ≤ z ≤ 9)%Z.
Proof.
  destruct n as [z|]; cbn.
  - rewrite bool_decide_eq_true. split; [eauto|]. by intros (? & [= <-] & ?).
  - split; [done|]. by intros (? & ? & ?).
Qed.

Lemma parseInt_null : Js.parseInt JNull = None.
Proof. reflexivity. Qed.
Lemma parseInt_undefined : Js.parseInt JUndefined = None.
Proof. reflexivity. Qed.

(** ** Fabricate *)

(** C2. [fabricate]: when the owner's resource pool for the category is 0,
    or is not a finite number, the handler returns failure and the world is
    left as it was: no derived record is created on the target and the
    owner's pool is unchanged.  The second step is not reached: the outcome
    does not depend on whether it would succeed. *)
Theorem fabricate_without_slots (ownerActorUuid targetActorUuid blueprintUuid
    codexUuid : Uuid) (slotLevel : Z) (attached : bool) (w : World) (owner : Id)
    (ownerActor : Actor.t) :
  fromUuid w ownerActorUuid = Some (DocActor owner ownerActor) →
  slotsOf ownerActor slotLevel = JInt 0
  ∨ Js.isFinite (slotsOf ownerActor slotLevel) = false →
  _gmFabricate ownerActorUuid targetActorUuid blueprintUuid codexUuid
    slotLevel attached w = (Returned false, w).
Proof.
  intros Howner Hslots. unfold _gmFabricate. rewrite Howner.
  destruct (fromUuid w targetActorUuid) as [[target ?| |]|]; try done.
  destruct (fromUuid w blueprintUuid) as [[|blueprint|]|]; try done.
  destruct Hslots as [-> | Hnf]; [by rewrite JInt_0|].
  destruct (slotsOf ownerActor slotLevel) as [| | |x|]; try done.
  cbn in Hnf. by rewrite Hnf.
Qed.

Lemma fabricate_without_slots_witness :
  _gmFabricate (UActor 1) (UActor 2) (UOwned 1 6) (UOwned 1 5) 3 false Sample.party
  = (Returned false, Sample.party).
Proof.
  apply (fabricate_without_slots (UActor 1) (UActor 2) (UOwned 1 6) (UOwned 1 5) 3
           false Sample.party 1 Sample.artificer).
  - reflexivity.
  - left. reflexivity.
Defined.

(** With a slot left, the same call spends it and creates the record. *)
Example fabricate_with_slots :
  ∃ w', _gmFabricate (UActor 1) (UActor 2) (UOwned 1 6) (UOwned 1 5) 4 true
          Sample.party
        = (Returned true, w')
        ∧ (λ a, slotsOf a 4) <$> actors w' !! 1 = Some (JInt 1)
        ∧ (actors w' !! 2 ≫= λ a, Item.name <$> last (Actor.items a))
          = Some "Temporary Grapple Gun".
Proof. eexists. split; [vm_compute; reflexivity|]. split; vm_compute; reflexivity. Qed.

(** The pool is a number, and the handler computes with numbers: a pool
    that is negative fails as the empty one does, a pool of one half is
    spent and left at minus one half, and above [2^53] the difference is
    rounded: [2^53 + 2] less one is [2^53]. *)
Example fabricate_pools :
  let run pool :=
    _gmFabricate (UActor 1) (UActor 2) (UOwned 1 6) (UOwned 1 5) 4 true
      (setActor 1 (setSpells <[4%Z := pool]>) Sample.party) in
  let pool w := (λ a, slotsOf a 4) <$> actors w !! 1 in
  (run (JInt (-1))).1 = Returned false
  ∧ (run (JNum (Double.make 1 (-1)))).1 = Returned true
  ∧ pool (run (JNum (Double.make 1 (-1)))).2 = Some (JNum (Double.make (-1) (-1)))
  ∧ pool (run (JInt (2 ^ 53 + 2))).2 = Some (JInt (2 ^ 53))
  ∧ pool (run (JInt (2 ^ 53))).2 = Some (JInt (2 ^ 53 - 1)).
Proof. cbn zeta. split_and!; vm_compute; reflexivity. Qed.

(** ** Mirror *)

Lemma getSpellLevelFolder_no_root w level :
  findFirst isRootFolder (folders w) = None → getSpellLevelFolder w level = None.
Proof. unfold getSpellLevelFolder. by intros ->. Qed.

(** C8. [mirror]: when the folder matching the category does not exist, in
    particular when the root folder is absent, the handler changes nothing
    in the store (actors, items, folders and chat are as before) and
    returns normally; its only effect is one warning on the console. *)
Theorem mirror_missing_folder (itemData : Item.t) (actorItemUuid : Uuid)
    (level : option Z) (w : World) :
  getSpellLevelFolder w level = None
  ∨ findFirst isRootFolder (folders w) = None →
  let w' := _gmMirror itemData actorItemUuid level w in
  actors w' = actors w ∧ items w' = items w ∧ folders w' = folders w
  ∧ messages w' = messages w
  ∧ console w' = console w ++ [WarnMirrorFolderNotFound level].
Proof.
  intros Hmissing.
  assert (getSpellLevelFolder w level = None) as Hnone.
  { destruct Hmissing; [done|]. by apply getSpellLevelFolder_no_root. }
  cbn zeta. unfold _gmMirror. rewrite Hnone. done.
Qed.

Lemma mirror_missing_folder_witness :
  let w' := _gmMirror (Sample.item 6 "Grapple Gun" Flags.empty) (UOwned 1 6)
              (Some 3%Z) Sample.party in
  actors w' = actors Sample.party ∧ items w' = items Sample.party
  ∧ folders w' = folders Sample.party ∧ messages w' = messages Sample.party
  ∧ console w' = console Sample.party ++ [WarnMirrorFolderNotFound (Some 3%Z)].
Proof.
  apply (mirror_missing_folder (Sample.item 6 "Grapple Gun" Flags.empty)
           (UOwned 1 6) (Some 3%Z) Sample.party).
  right. reflexivity.
Defined.

Lemma alter_lookup_insert {A} (f : A → A) (l : list A) k x :
  l !! k = Some x → alter f k l = <[k := f x]> l.
Proof.
  revert k. induction l as [|y l IH]; intros [|k] Hk; try done; cbn in *.
  - by injection Hk as ->.
  - by rewrite (IH k Hk).
Qed.

(** C10. [mirror], update path: when a Mirror of the source exists, the
    handler changes the Mirror's folder, name and image and nothing else.
    The Mirror keeps its identifier, type, container fields and all its
    flags, the stored category flag [spellLevel] among them; every other
    item and the rest of the world are as before. *)
Theorem mirror_update_frame (itemData : Item.t) (actorItemUuid : Uuid)
    (level : option Z) (w : World) (folder : Folder.t) (k : nat)
    (mirrorItem : Item.t) :
  getSpellLevelFolder w level = Some folder →
  list_find (isMirrorOf actorItemUuid) (items w) = Some (k, mirrorItem) →
  let w' := _gmMirror itemData actorItemUuid level w in
  items w' = <[k := relocated mirrorItem itemData folder]> (items w)
  ∧ Flags.spellLevel (Item.flags (relocated mirrorItem itemData folder))
    = Flags.spellLevel (Item.flags mirrorItem)
  ∧ actors w' = actors w ∧ folders w' = folders w
  ∧ messages w' = messages w ∧ console w' = console w.
Proof.
  intros Hfolder Hfind. cbn zeta. unfold _gmMirror. rewrite Hfolder, Hfind.
  apply list_find_Some in Hfind as (Hk & _ & _).
  destruct (decide (Item.folder mirrorItem ≠ Some (Folder.id folder))) as [Hne|Heq];
    cbn; (split; [|done]).
  - rewrite list_alter_alter_eq. by rewrite (alter_lookup_insert _ _ _ _ Hk).
  - apply dec_stable in Heq. rewrite (alter_lookup_insert _ _ _ _ Hk).
    unfold relocated, setNameImg. by rewrite Heq.
Qed.

Lemma mirror_update_frame_witness :
  let w' := _gmMirror Sample.grappleHook (UOwned 1 6) (Some 5%Z) Sample.mirrored in
  items w'
  = <[0 := relocated Sample.gunMirror Sample.grappleHook Sample.fifth]>
      (items Sample.mirrored)
  ∧ Flags.spellLevel
      (Item.flags (relocated Sample.gunMirror Sample.grappleHook Sample.fifth))
    = Flags.spellLevel (Item.flags Sample.gunMirror)
  ∧ actors w' = actors Sample.mirrored ∧ folders w' = folders Sample.mirrored
  ∧ messages w' = messages Sample.mirrored ∧ console w' = console Sample.mirrored.
Proof.
  apply (mirror_update_frame Sample.grappleHook (UOwned 1 6) (Some 5%Z)
           Sample.mirrored Sample.fifth 0 Sample.gunMirror); reflexivity.
Defined.

(** After a relocation the stored category flag may differ from the folder
    the Mirror sits in: the Mirror created under category 3 and moved to
    category 5 lies in the "5th" folder and still carries the flag 3. *)
Example mirror_flag_lags_folder :
  let w' := _gmMirror Sample.grappleHook (UOwned 1 6) (Some 5%Z) Sample.mirrored in
  ∃ m, items w' = [m]
       ∧ Item.folder m = Folder.id <$> getSpellLevelFolder w' (Some 5%Z)
       ∧ Flags.spellLevel (Item.flags m) = JInt 3.
Proof. eexists. split; [vm_compute; reflexivity|]. split; vm_compute; reflexivity. Qed.

(** ** Category lookup *)



(** The flag is read through its string: a blueprint that carries the
    number [10^21], whose string is ["1e+21"], reports category 1, and one
    that carries 5.5 reports category 5. *)
Example getSlotLevel_flag_strings :
  let lookup flag :=
    getSlotLevel (mkItemDoc (Some 1) (Sample.item 5 CODEX_NAME Sample.codexFlags))
      (mkItemDoc (Some 1)
         (Sample.item 6 "Grapple Gun" (setFlag (SpellLevel flag) Flags.empty))) in
  lookup (JInt (10 ^ 21)) = Some 1%Z
  ∧ lookup (JNum (Double.make 11 (-1))) = Some 5%Z
  ∧ lookup (JInt 10) = None
  ∧ lookup (JStr "3rd") = Some 3%Z.
Proof. cbn zeta. split_and!; vm_compute; reflexivity. Qed.

(** ** Assigning a category: validation *)

Lemma uncategorized_spec level :
  Js.strictEq level JNull || Js.strictEq level (JStr "")
  || Js.strictEq level (JStr "0") || Js.strictEq level (JInt 0) = true
  ↔ level ∈ uncategorizedInputs.
Proof.
  unfold uncategorizedInputs. rewrite !elem_of_cons, elem_of_nil, JInt_0.
  destruct level as [| |b|x|s]; cbn.
  - split; [done|]. intros [|[|[|[|[|[]]]]]]; discriminate.
  - split; [tauto|done].
  - split; [done|]. intros [|[|[|[|[|[]]]]]]; discriminate.
  - rewrite eqb_zero. split.
    + intros [->| ->]; tauto.
    + intros [|[|[|[[= ->]|[[= ->]|[]]]]]]; try discriminate; tauto.
  - split.
    + intros H. repeat (apply orb_prop in H as [H|H]); try discriminate;
        apply bool_decide_eq_true in H; tauto.
    + intros [|[H|[H|[|[|[]]]]]]; try discriminate; rewrite H; reflexivity.
Qed.

Lemma normalizeLevel_uncategorized level :
  level ∈ uncategorizedInputs → normalizeLevel level = NNull.
Proof.
  intros H%uncategorized_spec. unfold normalizeLevel. by rewrite H.
Qed.

Lemma normalizeLevel_other level :
  level ∉ uncategorizedInputs → normalizeLevel level = NNumber (Js.parseInt level).
Proof.
  intros H. unfold normalizeLevel.
  destruct (_ || _) eqn:Hunc; [|done]. by apply uncategorized_spec in Hunc.
Qed.

Lemma checkLevel_rejected level :
  checkLevel (normalizeLevel level) = None
  ↔ (level ∉ uncategorizedInputs) ∧ Js.isLevel (Js.parseInt level) = false.
Proof.
  destruct (decide (level ∈ uncategorizedInputs)) as [Hin|Hout].
  - rewrite normalizeLevel_uncategorized by done. cbn. split; [done|]. by intros [].
  - rewrite normalizeLevel_other by done. cbn.
    destruct (Js.isLevel (Js.parseInt level)); split; try done. by intros [].
Qed.

Lemma checkLevel_accepted level z :
  checkLevel (normalizeLevel level) = Some (Some z)
  ↔ (level ∉ uncategorizedInputs) ∧ Js.parseInt level = Some z ∧ (1 ≤ z ≤ 9)%Z.
Proof.
  destruct (decide (level ∈ uncategorizedInputs)) as [Hin|Hout].
  - rewrite normalizeLevel_uncategorized by done. cbn. split; [done|]. by intros [].
  - rewrite normalizeLevel_other by done. cbn.
    destruct (Js.isLevel (Js.parseInt level)) eqn:Hlvl.
    + apply isLevel_Some in Hlvl as (z' & Hz' & Hrange). rewrite Hz'. split.
      * intros [= <-]. done.
      * intros (_ & [= <-] & _). done.
    + split; [done|]. intros (_ & Hp & Hz). rewrite Hp in Hlvl. cbn in Hlvl.
      by rewrite bool_decide_eq_true_2 in Hlvl.
Qed.

Lemma setSlotLevelForBlueprint_rejected userName codexRef blueprintRef level w :
  checkLevel (normalizeLevel level) = None →
  setSlotLevelForBlueprint userName codexRef blueprintRef level w = w.
Proof.
  intros Hrej. unfold setSlotLevelForBlueprint. rewrite Hrej.
  destruct (resolveItem w codexRef), (resolveItem w blueprintRef); done.
Qed.

Lemma checkLevel_uncategorized level :
  checkLevel (normalizeLevel level) = Some None ↔ level ∈ uncategorizedInputs.
Proof.
  destruct (decide (level ∈ uncategorizedInputs)) as [Hin|Hout].
  - by rewrite normalizeLevel_uncategorized.
  - rewrite normalizeLevel_other by done. cbn.
    destruct (Js.isLevel (Js.parseInt level)) eqn:Hlvl; [|done].
    apply isLevel_Some in Hlvl as (z & -> & _). done.
Qed.

(** C6, as the code has it.  The assign-category workflow maps [null],
    [""], ["0"] and the number zero to uncategorized, and nothing else; it
    accepts the integers 1 to 9 as they are.  Any other input is accepted
    exactly when [Number.parseInt(input, 10)] is an integer between 1 and
    9, and is then normalized to that integer; it is rejected otherwise,
    and a rejected input changes nothing in the world.  [parseInt] reads
    the digits at the start of the string of the input: [undefined],
    booleans, NaN, the infinities, the negative numbers and integers such
    as 10, 12 and 100 are rejected, while the number 5.5 is accepted as
    category 5 and the number [10^21], whose string is ["1e+21"], as
    category 1. *)
Theorem assign_category_validation :
  (∀ level, level ∈ uncategorizedInputs →
     checkLevel (normalizeLevel level) = Some None)
  ∧ (∀ z, (1 ≤ z ≤ 9)%Z → checkLevel (normalizeLevel (JInt z)) = Some (Some z))
  ∧ (∀ level z,
       checkLevel (normalizeLevel level) = Some (Some z)
       ↔ (level ∉ uncategorizedInputs) ∧ Js.parseInt level = Some z ∧ (1 ≤ z ≤ 9)%Z)
  ∧ (∀ level,
       checkLevel (normalizeLevel level) = None
       ↔ (level ∉ uncategorizedInputs) ∧ Js.isLevel (Js.parseInt level) = false)
  ∧ (∀ level,
       checkLevel (normalizeLevel level) = Some None ↔ level ∈ uncategorizedInputs)
  ∧ (∀ x, Double.ltb x Double.zero = true →
       checkLevel (normalizeLevel (JNum x)) = None)
  ∧ (∀ level, level ∈ [JUndefined; JNaN; JInf false; JInf true;
                        JBool false; JBool true; JInt 10; JInt 12; JInt 100] →
       checkLevel (normalizeLevel level) = None)
  ∧ checkLevel (normalizeLevel (JNum (Double.make 11 (-1)))) = Some (Some 5%Z)
  ∧ checkLevel (normalizeLevel (JInt (10 ^ 21))) = Some (Some 1%Z)
  ∧ (∀ userName codexRef blueprintRef level w,
       checkLevel (normalizeLevel level) = None →
       setSlotLevelForBlueprint userName codexRef blueprintRef level w = w).
Proof.
  split_and!.
  - intros level Hin. by rewrite normalizeLevel_uncategorized.
  - intros z Hz. apply checkLevel_accepted.
    split; [|split; [apply parseInt_digit; lia|done]].
    intros Hin%uncategorized_spec.
    assert (z = 1 ∨ z = 2 ∨ z = 3 ∨ z = 4 ∨ z = 5 ∨ z = 6 ∨ z = 7 ∨ z = 8
            ∨ z = 9)%Z as Hcases by lia.
    repeat destruct Hcases as [->|Hcases]; try subst z; vm_compute in Hin;
      discriminate.
  - apply checkLevel_accepted.
  - apply checkLevel_rejected.
  - apply checkLevel_uncategorized.
  - intros x Hx. apply checkLevel_rejected. split; [|by apply parseInt_negative].
    intros Hin%uncategorized_spec. cbn in Hin. rewrite JInt_0 in Hin.
    apply eqb_zero in Hin as [->| ->]; discriminate.
  - intros level. rewrite !elem_of_cons, elem_of_nil.
    intros [->|[->|[->|[->|[->|[->|[->|[->|[->|[]]]]]]]]]]; vm_compute; reflexivity.
  - vm_compute. reflexivity.
  - vm_compute. reflexivity.
  - apply setSlotLevelForBlueprint_rejected.
Qed.

Lemma assign_category_validation_witness :
  checkLevel (normalizeLevel (JStr "0")) = Some None
  ∧ checkLevel (normalizeLevel (JInt 7)) = Some (Some 7%Z)
  ∧ checkLevel (normalizeLevel (JStr " 7th")) = Some (Some 7%Z)
  ∧ checkLevel (normalizeLevel (JInt (-12))) = None
  ∧ setSlotLevelForBlueprint "Player" (UOwned 1 5) (UOwned 1 6) (JStr "seven")
      Sample.party = Sample.party.
Proof.
  destruct assign_category_validation
    as (Hnull & Hint & Hacc & Hrej & _ & Hneg & _ & _ & _ & Hnoop).
  split_and!.
  - apply Hnull. unfold uncategorizedInputs. rewrite !elem_of_cons. tauto.
  - apply Hint. lia.
  - apply Hacc. split; [|split; [reflexivity|lia]].
    unfold uncategorizedInputs. rewrite !elem_of_cons, elem_of_nil.
    intros [|[|[|[|[|[]]]]]]; discriminate.
  - apply Hneg. reflexivity.
  - apply Hnoop. reflexivity.
Defined.

(** C6 as stated fails: the string ["5x"] is none of [null], [""], ["0"],
    [0] and is not an integer, yet the workflow accepts it as category 5
    and changes the world (the blueprint's flag becomes 5). *)
Lemma assign_category_accepts_5x :
  (JStr "5x" ∉ uncategorizedInputs)
  ∧ (∀ z, JStr "5x" ≠ JInt z)
  ∧ checkLevel (normalizeLevel (JStr "5x")) = Some (Some 5%Z)
  ∧ setSlotLevelForBlueprint "Player" (UOwned 1 5) (UOwned 1 6) (JStr "5x")
      Sample.party ≠ Sample.party
  ∧ Flags.spellLevel
      <$> flagsAt (setSlotLevelForBlueprint "Player" (UOwned 1 5) (UOwned 1 6)
                     (JStr "5x") Sample.party) (UOwned 1 6)
    = Some (JInt 5).
Proof.
  split_and!.
  - unfold uncategorizedInputs. rewrite !elem_of_cons, elem_of_nil.
    intros [|[|[|[|[|[]]]]]]; discriminate.
  - discriminate.
  - reflexivity.
  - intros Heq. apply (f_equal messages) in Heq. vm_compute in Heq. discriminate.
  - vm_compute. reflexivity.
Qed.

(** The same holds for numbers that are no integers between 1 and 9: the
    workflow accepts 5.5 as category 5 and [10^21] as category 1, and
    stores that category. *)
Example assign_category_accepts_numbers :
  let flagAfter level :=
    Flags.spellLevel
      <$> flagsAt (setSlotLevelForBlueprint "Player" (UOwned 1 5) (UOwned 1 6)
                     level Sample.party) (UOwned 1 6) in
  flagAfter (JNum (Double.make 11 (-1))) = Some (JInt 5)
  ∧ flagAfter (JInt (10 ^ 21)) = Some (JInt 1)
  ∧ Js.toString (JInt (10 ^ 21)) = "1e+21".
Proof. cbn zeta. split_and!; vm_compute; reflexivity. Qed.

(** ** Assigning a category: the two maps *)

Section alterFirst.
Context {A : Type} (P : A → Prop) `{!∀ x, Decision (P x)} (f : A → A).

Lemma alterFirst_cons x l :
  alterFirst P f (x :: l) = if decide (P x) then f x :: l else x :: alterFirst P f l.
Proof.
  unfold alterFirst. cbn [list_find]. destruct (decide (P x)); [done|].
  destruct (list_find P l) as [[k y]|]; done.
Qed.

Lemma findFirst_alterFirst_same l :
  (∀ x, P x → P (f x)) → findFirst P (alterFirst P f l) = f <$> findFirst P l.
Proof.
  intros Hf. induction l as [|x l IH]; [done|].
  rewrite alterFirst_cons, findFirst_cons.
  destruct (decide (P x)) as [HP|HP].
  - rewrite findFirst_cons, decide_True by auto. done.
  - rewrite findFirst_cons, decide_False by done. done.
Qed.

Lemma findFirst_alterFirst_other (Q : A → Prop) `{!∀ x, Decision (Q x)} l :
  (∀ x, P x → ¬ Q x ∧ ¬ Q (f x)) →
  findFirst Q (alterFirst P f l) = findFirst Q l.
Proof.
  intros Hf. induction l as [|x l IH]; [done|].
  rewrite alterFirst_cons. destruct (decide (P x)) as [HP|HP].
  - destruct (Hf x HP). rewrite !findFirst_cons, !decide_False by done. done.
  - rewrite !findFirst_cons, IH. done.
Qed.
End alterFirst.

Lemma resolveItem_uuid w u d : resolveItem w u = Some d → uuid d = u.
Proof.
  unfold resolveItem. destruct u as [a|i|a i|f]; cbn.
  - destruct (actors w !! a); done.
  - destruct (findFirst (hasId i) (items w)) as [x|] eqn:Hx; [|done].
    intros [= <-]. apply findFirst_Some in Hx as [_ Hid]. unfold uuid. cbn.
    by rewrite Hid.
  - destruct (actors w !! a) as [act|]; [|done]. cbn.
    destruct (findFirst (hasId i) (Actor.items act)) as [x|] eqn:Hx; [|done].
    intros [= <-]. apply findFirst_Some in Hx as [_ Hid]. unfold uuid. cbn.
    by rewrite Hid.
  - destruct (findFirst _ (folders w)); done.
Qed.

Lemma resolveItem_UItem w i :
  resolveItem w (UItem i) = mkItemDoc None <$> findFirst (hasId i) (items w).
Proof. unfold resolveItem. cbn. by destruct (findFirst _ _). Qed.

Lemma resolveItem_UOwned w a i :
  resolveItem w (UOwned a i)
  = actors w !! a ≫= λ act, mkItemDoc (Some a) <$> findFirst (hasId i) (Actor.items act).
Proof.
  unfold resolveItem. cbn. destruct (actors w !! a) as [act|]; [|done]. cbn.
  by destruct (findFirst _ _).
Qed.

Lemma resolveItem_UActor w a : resolveItem w (UActor a) = None.
Proof. unfold resolveItem. cbn. by destruct (actors w !! a). Qed.

Lemma resolveItem_UFolder w f : resolveItem w (UFolder f) = None.
Proof. unfold resolveItem. cbn. by destruct (findFirst _ _). Qed.

(** Updating the item a reference resolves to changes what that reference
    resolves to, and no other item. *)
Lemma resolveItem_updateItem w u d f v :
  (∀ x, Item.id (f x) = Item.id x) →
  resolveItem w u = Some d →
  resolveItem (updateItem d f w) v
  = if decide (v = u) then Some (mkItemDoc (parent d) (f (data d)))
    else resolveItem w v.
Proof.
  intros Hid Hres. pose proof (resolveItem_uuid _ _ _ Hres) as Hu.
  destruct d as [[a|] x]; unfold uuid in Hu; cbn in Hu; subst u;
    unfold updateItem; cbn [parent data].
  - rewrite resolveItem_UOwned in Hres.
    destruct (actors w !! a) as [act|] eqn:Ha; [|done]. cbn in Hres.
    destruct (findFirst (hasId (Item.id x)) (Actor.items act)) as [y|] eqn:Hy;
      [|done].
    injection Hres as ->.
    destruct v as [b|j|b j|g];
      rewrite ?resolveItem_UActor, ?resolveItem_UFolder, ?resolveItem_UItem,
        ?resolveItem_UOwned; try by rewrite decide_False.
    cbn [actors setActor]. destruct (decide (b = a)) as [->|Hb].
    + rewrite lookup_alter_eq, Ha. cbn.
      destruct (decide (j = Item.id x)) as [->|Hj].
      * rewrite decide_True by done.
        rewrite findFirst_alterFirst_same, Hy; [done|].
        unfold hasId. intros. by rewrite Hid.
      * rewrite decide_False by congruence.
        rewrite findFirst_alterFirst_other; [done|].
        unfold hasId. intros. rewrite Hid. split; congruence.
    + rewrite lookup_alter_ne by done. rewrite decide_False by congruence. done.
  - rewrite resolveItem_UItem in Hres.
    destruct (findFirst (hasId (Item.id x)) (items w)) as [y|] eqn:Hy; [|done].
    injection Hres as ->.
    destruct v as [b|j|b j|g];
      rewrite ?resolveItem_UActor, ?resolveItem_UFolder, ?resolveItem_UItem,
        ?resolveItem_UOwned; try by rewrite decide_False.
    cbn [items setItems]. destruct (decide (j = Item.id x)) as [->|Hj].
    + rewrite decide_True by done.
      rewrite findFirst_alterFirst_same, Hy; [done|].
      unfold hasId. intros. by rewrite Hid.
    + rewrite decide_False by congruence.
      rewrite findFirst_alterFirst_other; [done|].
      unfold hasId. intros. rewrite Hid. split; congruence.
Qed.

Lemma flagsAt_setFlag w u e v d :
  resolveItem w u = Some d →
  flagsAt (_gmSetFlag u e w) v
  = if decide (v = u) then Some (setFlag e (Item.flags (data d))) else flagsAt w v.
Proof.
  intros Hres. unfold flagsAt, _gmSetFlag.
  unfold resolveItem in Hres.
  destruct (fromUuid w u) as [[|d'|]|] eqn:Hu; try done. injection Hres as ->.
  rewrite (resolveItem_updateItem w u d _ v); [|done|by unfold resolveItem; rewrite Hu].
  by destruct (decide (v = u)).
Qed.

Lemma resolveItem_setFlag_is_Some w u e v :
  is_Some (resolveItem w v) → is_Some (resolveItem (_gmSetFlag u e w) v).
Proof.
  intros Hv. unfold _gmSetFlag.
  destruct (fromUuid w u) as [[|d|]|] eqn:Hu; try done.
  rewrite (resolveItem_updateItem w u d _ v); [|done|by unfold resolveItem; rewrite Hu].
  by destruct (decide (v = u)).
Qed.

Lemma flagsAt_Some w u fl :
  flagsAt w u = Some fl ↔ ∃ d, resolveItem w u = Some d ∧ Item.flags (data d) = fl.
Proof.
  unfold flagsAt. destruct (resolveItem w u) as [d|]; cbn.
  - split; [intros [= <-]; eauto|]. by intros (? & [= <-] & <-).
  - split; [done|]. by intros (? & ? & ?).
Qed.

Lemma flagsAt_setFlag_Some w u e v fl :
  flagsAt w u = Some fl →
  flagsAt (_gmSetFlag u e w) v
  = if decide (v = u) then Some (setFlag e fl) else flagsAt w v.
Proof.
  intros (d & Hd & <-)%flagsAt_Some. by apply flagsAt_setFlag.
Qed.

Lemma flagsAt_ext w w' v :
  actors w' = actors w → items w' = items w → flagsAt w' v = flagsAt w v.
Proof.
  intros Ha Hi. unfold flagsAt.
  destruct v;
    rewrite ?resolveItem_UActor, ?resolveItem_UFolder, ?resolveItem_UItem,
      ?resolveItem_UOwned; by rewrite ?Ha, ?Hi.
Qed.

Lemma flagsAt_UItem w i :
  flagsAt w (UItem i) = Item.flags <$> findFirst (hasId i) (items w).
Proof.
  unfold flagsAt. rewrite resolveItem_UItem. by destruct (findFirst _ _).
Qed.

Lemma flagsAt_items w w' v :
  actors w' = actors w →
  (∀ i, Item.flags <$> findFirst (hasId i) (items w')
        = Item.flags <$> findFirst (hasId i) (items w)) →
  flagsAt w' v = flagsAt w v.
Proof.
  intros Ha Hi. destruct v as [a|i|a i|f].
  - unfold flagsAt. by rewrite !resolveItem_UActor.
  - by rewrite !flagsAt_UItem.
  - unfold flagsAt. by rewrite !resolveItem_UOwned, Ha.
  - unfold flagsAt. by rewrite !resolveItem_UFolder.
Qed.

Lemma findFirst_alter_flags (g : Item.t → Item.t) k l i :
  (∀ x, Item.id (g x) = Item.id x) →
  (∀ x, Item.flags (g x) = Item.flags x) →
  Item.flags <$> findFirst (hasId i) (alter g k l)
  = Item.flags <$> findFirst (hasId i) l.
Proof.
  intros Hid Hfl. revert k. induction l as [|x l IH]; intros [|k]; try done.
  - cbn [alter list_alter]. rewrite !findFirst_cons.
    destruct (decide (hasId i (g x))) as [H1|H1], (decide (hasId i x)) as [H2|H2];
      unfold hasId in H1, H2; rewrite Hid in H1; try done.
    cbn. by rewrite Hfl.
  - cbn [alter list_alter]. rewrite !findFirst_cons.
    destruct (decide (hasId i x)); [done|]. apply IH.
Qed.

(** [mirror] leaves the flags of every item that exists as they are. *)
Lemma flagsAt_mirror itemData actorItemUuid level w v fl :
  flagsAt w v = Some fl →
  flagsAt (_gmMirror itemData actorItemUuid level w) v = Some fl.
Proof.
  intros Hfl. unfold _gmMirror.
  destruct (getSpellLevelFolder w level) as [folder|].
  2:{ by rewrite (flagsAt_ext w). }
  destruct (list_find (isMirrorOf actorItemUuid) (items w)) as [[k m]|].
  - rewrite <- Hfl. apply flagsAt_items.
    + by destruct (decide (Item.folder m ≠ Some (Folder.id folder))).
    + intros i. cbn [items setItems]. rewrite findFirst_alter_flags by done.
      destruct (decide (Item.folder m ≠ Some (Folder.id folder))); [|done].
      cbn [items setItems]. by rewrite findFirst_alter_flags.
  - destruct v as [a|i|a i|f].
    + unfold flagsAt in Hfl. by rewrite resolveItem_UActor in Hfl.
    + rewrite flagsAt_UItem in *. unfold createItem, insertNew. cbn [items setItems].
      rewrite findFirst_snoc. by destruct (findFirst (hasId i) (items w)).
    + rewrite <- Hfl. unfold flagsAt. by rewrite !resolveItem_UOwned.
    + unfold flagsAt in Hfl. by rewrite resolveItem_UFolder in Hfl.
Qed.

(** The flags of the Container after an accepted assignment: the maps of
    the workflow are stored. *)
Lemma assign_category_stores_maps userName codexRef blueprintRef level w
    codex blueprint lvl :
  resolveItem w codexRef = Some codex →
  resolveItem w blueprintRef = Some blueprint →
  checkLevel (normalizeLevel level) = Some lvl →
  ∃ fl, flagsAt (setSlotLevelForBlueprint userName codexRef blueprintRef level w)
          codexRef = Some fl
        ∧ Flags.slotLevelsByUuid fl
          = Some (match lvl with
                  | None => delete blueprintRef (Js.duplicate (uuidMapOf codex))
                  | Some z => <[blueprintRef := JInt z]> (Js.duplicate (uuidMapOf codex))
                  end)
        ∧ Flags.slotLevelsByName fl
          = Some (if decide (Item.name (data blueprint) = "")
                  then Js.duplicate (nameMapOf codex)
                  else match lvl with
                       | None =>
                           delete (Item.name (data blueprint))
                             (Js.duplicate (nameMapOf codex))
                       | Some z =>
                           assign (Item.name (data blueprint)) (JInt z)
                             (Js.duplicate (nameMapOf codex))
                       end).
Proof.
  intros Hcodex Hbp Hlvl. unfold setSlotLevelForBlueprint.
  rewrite Hcodex, Hbp, Hlvl.
  rewrite (resolveItem_uuid _ _ _ Hcodex), (resolveItem_uuid _ _ _ Hbp).
  fold (uuidMapOf codex). fold (nameMapOf codex).
  unfold setItemFlag, requestGMNotification, mirrorToWorldFolder.
  set (m1 := match lvl with
             | None => delete blueprintRef (Js.duplicate (uuidMapOf codex))
             | Some z => <[blueprintRef := JInt z]> (Js.duplicate (uuidMapOf codex))
             end).
  set (m2 := if decide (Item.name (data blueprint) = "")
             then Js.duplicate (nameMapOf codex)
             else match lvl with
                  | None =>
                      delete (Item.name (data blueprint)) (Js.duplicate (nameMapOf codex))
                  | Some z =>
                      assign (Item.name (data blueprint)) (JInt z)
                        (Js.duplicate (nameMapOf codex))
                  end).
  set (w1 := _gmSetFlag codexRef (SlotLevelsByUuid m1) w).
  set (w2 := _gmSetFlag codexRef (SlotLevelsByName m2) w1).
  set (w3 := _gmSetFlag blueprintRef (SpellLevel (levelVal lvl)) w2).
  assert (flagsAt w1 codexRef
          = Some (setFlag (SlotLevelsByUuid m1) (Item.flags (data codex)))) as H1.
  { unfold w1. rewrite (flagsAt_setFlag w codexRef _ codexRef codex Hcodex).
    by rewrite decide_True. }
  assert (flagsAt w2 codexRef
          = Some (setFlag (SlotLevelsByName m2)
                    (setFlag (SlotLevelsByUuid m1) (Item.flags (data codex))))) as H2.
  { unfold w2. rewrite (flagsAt_setFlag_Some w1 codexRef _ codexRef _ H1).
    by rewrite decide_True. }
  assert (is_Some (resolveItem w2 blueprintRef)) as [bp2 Hbp2].
  { unfold w2, w1. do 2 apply resolveItem_setFlag_is_Some. by rewrite Hbp. }
  assert (∃ fl, flagsAt w3 codexRef = Some fl
                ∧ Flags.slotLevelsByUuid fl = Some m1
                ∧ Flags.slotLevelsByName fl = Some m2) as (fl & H3 & Hm1 & Hm2).
  { unfold w3. rewrite (flagsAt_setFlag w2 blueprintRef _ codexRef bp2 Hbp2).
    destruct (decide (codexRef = blueprintRef)) as [->|Hne].
    - unfold flagsAt in H2. rewrite Hbp2 in H2. cbn in H2. injection H2 as ->.
      eexists. split; [reflexivity|]. split; reflexivity.
    - eexists. split; [exact H2|]. split; reflexivity. }
  exists fl. split; [|done].
  rewrite (flagsAt_ext (_gmMirror _ _ _ w3)) by done.
  by apply flagsAt_mirror.
Qed.

(** C5, as the code has it.  After an accepted category assignment for a
    blueprint whose display name is neither empty nor ["__proto__"], the
    identifier-keyed map and the name-keyed map of the Container both hold
    the assigned category for the blueprint; after an un-assignment
    (category null) the blueprint's identifier is absent from the
    identifier-keyed map and its name from the name-keyed map.  For a
    blueprint with an empty name the workflow updates the identifier-keyed
    map only; the name-keyed map is stored as its JSON copy.  For a
    blueprint named ["__proto__"] the assignment to the name-keyed map
    takes effect only when the map has an entry of that name already. *)
Theorem assign_category_maps (userName : string) (codexRef blueprintRef : Uuid)
    (level : JsVal) (w : World) (codex blueprint : ItemDoc) (lvl : option Z) :
  resolveItem w codexRef = Some codex →
  resolveItem w blueprintRef = Some blueprint →
  checkLevel (normalizeLevel level) = Some lvl →
  let w' := setSlotLevelForBlueprint userName codexRef blueprintRef level w in
  let name := Item.name (data blueprint) in
  ∃ codex', resolveItem w' codexRef = Some codex'
    ∧ uuidMapOf codex' !! blueprintRef = JInt <$> lvl
    ∧ (name ≠ "" → name ≠ "__proto__" → nameMapOf codex' !! name = JInt <$> lvl)
    ∧ (name = "" → nameMapOf codex' = Js.duplicate (nameMapOf codex))
    ∧ (name = "__proto__" →
       nameMapOf codex' !! name
       = if decide (is_Some (Js.duplicate (nameMapOf codex) !! name))
         then JInt <$> lvl else None).
Proof.
  intros Hcodex Hbp Hlvl w' name.
  destruct (assign_category_stores_maps userName codexRef blueprintRef level w
              codex blueprint lvl Hcodex Hbp Hlvl) as (fl & Hfl & Hm1 & Hm2).
  apply flagsAt_Some in Hfl as (codex' & Hcodex' & <-).
  exists codex'. split; [exact Hcodex'|].
  unfold uuidMapOf at 1. rewrite Hm1. unfold nameMapOf at 1 2 4. rewrite Hm2.
  fold name. cbn [default].
  split_and!.
  - destruct lvl; cbn; [apply lookup_insert_eq | apply lookup_delete_eq].
  - intros Hname Hproto. rewrite decide_False by done.
    destruct lvl; cbn; [|apply lookup_delete_eq].
    unfold assign. rewrite decide_False by tauto. apply lookup_insert_eq.
  - intros Hname. by rewrite decide_True.
  - intros Hname. rewrite decide_False by (rewrite Hname; discriminate).
    destruct lvl as [z|]; cbn.
    + unfold assign. destruct (decide (is_Some _)) as [Hsome|Hnone].
      * rewrite decide_False; [apply lookup_insert_eq|].
        intros [_ Hnone]. rewrite Hnone in Hsome. by destruct Hsome.
      * apply eq_None_not_Some in Hnone. rewrite decide_True by done. exact Hnone.
    + rewrite lookup_delete_eq. by destruct (decide (is_Some _)).
Qed.

Lemma assign_category_maps_witness :
  let w' := setSlotLevelForBlueprint "Player" (UOwned 1 5) (UOwned 1 6) (JStr "4")
              Sample.party in
  ∃ codex', resolveItem w' (UOwned 1 5) = Some codex'
    ∧ uuidMapOf codex' !! UOwned 1 6 = Some (JInt 4)
    ∧ nameMapOf codex' !! "Grapple Gun" = Some (JInt 4).
Proof.
  destruct (assign_category_maps "Player" (UOwned 1 5) (UOwned 1 6) (JStr "4")
              Sample.party
              (mkItemDoc (Some 1)
                 (Item.mk 5 CODEX_NAME "book.webp" "container" None RefNull RefNull
                    Sample.codexFlags))
              (mkItemDoc (Some 1) (Sample.item 6 "Grapple Gun" Flags.empty))
              (Some 4%Z) eq_refl eq_refl eq_refl)
    as (codex' & Hres & Huuid & Hname & _).
  exists codex'. split_and!; [exact Hres | exact Huuid |].
  apply Hname; discriminate.
Defined.

(** C5 as stated fails: assigning category 5 to the blueprint without a
    name in [Sample.workshop] is accepted and stores 5 in the
    identifier-keyed map, while the name-keyed map has no entry for the
    blueprint's name: only one of the two maps is updated. *)
Lemma assign_category_empty_name :
  let w' := setSlotLevelForBlueprint "Player" (UOwned 3 5) (UOwned 3 8) (JInt 5)
              Sample.workshop in
  checkLevel (normalizeLevel (JInt 5)) = Some (Some 5%Z)
  ∧ ∃ codex', resolveItem w' (UOwned 3 5) = Some codex'
      ∧ uuidMapOf codex' !! UOwned 3 8 = Some (JInt 5)
      ∧ nameMapOf codex' !! "" = None
      ∧ nameMapOf codex' = ∅.
Proof.
  split; [vm_compute; reflexivity|]. eexists. split; [vm_compute; reflexivity|].
  split_and!; vm_compute; reflexivity.
Qed.

(** The name ["__proto__"] is one more: the assignment of category 5 to a
    blueprint of that name stores 5 in the identifier-keyed map and nothing
    in the name-keyed map. *)
Example assign_category_proto_name :
  let w :=
    setActor 1 (setActorItems (alterFirst (hasId 6) (setName "__proto__")))
      Sample.party in
  let w' := setSlotLevelForBlueprint "Player" (UOwned 1 5) (UOwned 1 6) (JInt 5) w in
  (Item.name ∘ data <$> resolveItem w (UOwned 1 6)) = Some "__proto__"
  ∧ ∃ codex', resolveItem w' (UOwned 1 5) = Some codex'
      ∧ uuidMapOf codex' !! UOwned 1 6 = Some (JInt 5)
      ∧ nameMapOf codex' !! "__proto__" = None.
Proof.
  split; [vm_compute; reflexivity|]. eexists. split; [vm_compute; reflexivity|].
  split; vm_compute; reflexivity.
Qed.

(** The scenario of the specification: null, then 5, then null again. *)
Example assign_category_round_trip :
  let w1 := setSlotLevelForBlueprint "Player" (UOwned 1 5) (UOwned 1 6) (JInt 5)
              Sample.party in
  let w2 := setSlotLevelForBlueprint "Player" (UOwned 1 5) (UOwned 1 6) JNull w1 in
  ∃ codex', resolveItem w2 (UOwned 1 5) = Some codex'
    ∧ uuidMapOf codex' !! UOwned 1 6 = None
    ∧ nameMapOf codex' !! "Grapple Gun" = None.
Proof. eexists. split; [vm_compute; reflexivity|]. split; vm_compute; reflexivity. Qed.

(** ** Identifiers *)

Lemma freshId_fresh (used : list Id) : freshId used ∉ used.
Proof. apply max_list_not_elem_of_gt. unfold freshId. lia. Qed.

Lemma created_id_fresh l d : Item.id (created l d) ∉ Item.id <$> l.
Proof. apply freshId_fresh. Qed.

Lemma findFirst_hasId_None i l : i ∉ Item.id <$> l → findFirst (hasId i) l = None.
Proof.
  intros Hi. apply findFirst_None, Forall_forall. intros x Hx Hid.
  apply Hi. unfold hasId in Hid. rewrite <- Hid. by apply list_elem_of_fmap_2.
Qed.

(** A created item is the one its identifier resolves to. *)
Lemma findFirst_insertNew l d :
  findFirst (hasId (Item.id (created l d))) (insertNew d l) = Some (created l d).
Proof.
  unfold insertNew. rewrite findFirst_snoc.
  rewrite findFirst_hasId_None by apply created_id_fresh.
  by rewrite decide_True.
Qed.

Lemma findFirst_insertNew_other l d i :
  i ≠ Item.id (created l d) →
  findFirst (hasId i) (insertNew d l) = findFirst (hasId i) l.
Proof.
  intros Hi. unfold insertNew. rewrite findFirst_snoc.
  destruct (findFirst (hasId i) l); [done|].
  rewrite decide_False; [done|]. unfold hasId. congruence.
Qed.

Lemma deleteById_absent i l : i ∉ Item.id <$> l → deleteById i l = l.
Proof.
  unfold deleteById. induction l as [|x l IH]; [done|].
  cbn [fmap list_fmap]. rewrite not_elem_of_cons. intros [Hx Hl].
  rewrite filter_cons_True by congruence. f_equal. by apply IH.
Qed.

(** Deleting a created item gives the collection back. *)
Lemma deleteById_insertNew l d :
  deleteById (Item.id (created l d)) (insertNew d l) = l.
Proof.
  unfold insertNew, deleteById. rewrite filter_app, filter_cons_False, filter_nil.
  2:{ intros Hne. by apply Hne. }
  rewrite app_nil_r. apply deleteById_absent, created_id_fresh.
Qed.

(** The reference of a created item resolves to it; every other reference
    resolves as before. *)
Lemma resolveItem_createEmbeddedItem w a act d v :
  actors w !! a = Some act →
  resolveItem (createEmbeddedItem a d w) v
  = if decide (v = UOwned a (Item.id (created (Actor.items act) d)))
    then Some (mkItemDoc (Some a) (created (Actor.items act) d))
    else resolveItem w v.
Proof.
  intros Ha. destruct v as [b|j|b j|g];
    rewrite ?resolveItem_UActor, ?resolveItem_UFolder, ?resolveItem_UItem,
      ?resolveItem_UOwned; try by rewrite decide_False.
  cbn [createEmbeddedItem setActor actors].
  destruct (decide (b = a)) as [->|Hb].
  - rewrite lookup_alter_eq, Ha. cbn [fmap option_fmap option_map mbind option_bind
      setActorItems Actor.items].
    destruct (decide (j = Item.id (created (Actor.items act) d))) as [->|Hj].
    + rewrite decide_True by done. by rewrite findFirst_insertNew.
    + rewrite decide_False by congruence. by rewrite findFirst_insertNew_other.
  - rewrite lookup_alter_ne by done. by rewrite decide_False by congruence.
Qed.

Lemma resolveItem_fresh w a act d :
  actors w !! a = Some act →
  resolveItem w (UOwned a (Item.id (created (Actor.items act) d))) = None.
Proof.
  intros Ha. rewrite resolveItem_UOwned, Ha. cbn [mbind option_bind].
  by rewrite (findFirst_hasId_None _ _ (created_id_fresh (Actor.items act) d)).
Qed.

(** ** Ensure-container *)

Lemma fromUuid_actor w u a actor :
  fromUuid w u = Some (DocActor a actor) → u = UActor a ∧ actors w !! a = Some actor.
Proof.
  destruct u as [a'|i|a' i|f]; cbn.
  - destruct (actors w !! a') eqn:Ha; [|done]. by intros [= <- <-].
  - destruct (findFirst (hasId i) (items w)); done.
  - destruct (actors w !! a'); [|done]. cbn.
    destruct (findFirst (hasId i) (Actor.items _)); done.
  - destruct (findFirst _ (folders w)); done.
Qed.

Lemma isCodexItem_created l d :
  Flags.isCodex (Item.flags d) = true →
  isCodexItem (created l (stripLocation false d)) = true.
Proof. intros Hd. unfold isCodexItem. cbn. by rewrite Hd. Qed.

(** When the owner has no Container and the template exists, the handler
    creates one and a second call finds it. *)
Lemma addCodex_created_found w a actor worldCodex :
  actors w !! a = Some actor →
  findFirst (λ i, isCodexItem i = true) (Actor.items actor) = None →
  findFirst (λ i, Flags.isCodex (Item.flags i) = true) (items w) = Some worldCodex →
  let codexData := stripLocation false worldCodex in
  let w1 := createEmbeddedItem a codexData w in
  _gmAddCodexToActor (UActor a) w1
  = (Some (uuid (mkItemDoc (Some a) (created (Actor.items actor) codexData))), w1).
Proof.
  intros Ha Hnone Htemplate. cbn zeta. unfold _gmAddCodexToActor at 1.
  cbn [fromUuid createEmbeddedItem setActor actors].
  rewrite lookup_alter_eq, Ha. cbn [fmap option_fmap option_map setActorItems Actor.items].
  unfold insertNew. rewrite findFirst_snoc, Hnone.
  apply findFirst_Some in Htemplate as [_ Hflag].
  rewrite decide_True; [done|]. by apply isCodexItem_created.
Qed.

(** C4, as the code has it.  [ensure-container] is idempotent: two calls
    in succession return the same reference, and the second call leaves
    the world as the first one left it (it creates no Container).  The
    handler returns null exactly when the owner is missing, or the owner
    has no Container and the template is missing.  An owner that already
    has a Container gets that Container's reference whether or not the
    template exists.  For an owner without a Container, when the template
    exists, the handler attaches a copy of the template to the owner and
    returns the copy's reference: the reference was not in use, it resolves
    to the copy afterwards, [isCodexItem] recognises the copy, and a second
    call returns the same reference and changes nothing. *)
Theorem ensure_container_idempotent (actorUuid : Uuid) (w : World) :
  (let r1 := _gmAddCodexToActor actorUuid w in
   let r2 := _gmAddCodexToActor actorUuid r1.2 in
   r2.1 = r1.1 ∧ r2.2 = r1.2)
  ∧ ((∀ a actor, fromUuid w actorUuid ≠ Some (DocActor a actor)) →
     _gmAddCodexToActor actorUuid w = (None, w))
  ∧ (∀ a actor, fromUuid w actorUuid = Some (DocActor a actor) →
       findFirst (λ i, isCodexItem i = true) (Actor.items actor) = None →
       findFirst (λ i, Flags.isCodex (Item.flags i) = true) (items w) = None →
       _gmAddCodexToActor actorUuid w = (None, w))
  ∧ (∀ a actor existing, fromUuid w actorUuid = Some (DocActor a actor) →
       findFirst (λ i, isCodexItem i = true) (Actor.items actor) = Some existing →
       _gmAddCodexToActor actorUuid w = (Some (UOwned a (Item.id existing)), w))
  ∧ (∀ a actor worldCodex, fromUuid w actorUuid = Some (DocActor a actor) →
       findFirst (λ i, isCodexItem i = true) (Actor.items actor) = None →
       findFirst (λ i, Flags.isCodex (Item.flags i) = true) (items w)
       = Some worldCodex →
       let new := created (Actor.items actor) (stripLocation false worldCodex) in
       let w1 := createEmbeddedItem a (stripLocation false worldCodex) w in
       _gmAddCodexToActor actorUuid w = (Some (UOwned a (Item.id new)), w1)
       ∧ resolveItem w (UOwned a (Item.id new)) = None
       ∧ resolveItem w1 (UOwned a (Item.id new)) = Some (mkItemDoc (Some a) new)
       ∧ isCodexItem new = true
       ∧ _gmAddCodexToActor actorUuid w1 = (Some (UOwned a (Item.id new)), w1))
  ∧ ((_gmAddCodexToActor actorUuid w).1 = None
     ↔ (∀ a actor, fromUuid w actorUuid ≠ Some (DocActor a actor))
       ∨ ∃ a actor, fromUuid w actorUuid = Some (DocActor a actor)
           ∧ findFirst (λ i, isCodexItem i = true) (Actor.items actor) = None
           ∧ findFirst (λ i, Flags.isCodex (Item.flags i) = true) (items w) = None).
Proof.
  split_and!.
  - cbn zeta.
    assert (∀ r, _gmAddCodexToActor actorUuid w = (r, w) →
              (_gmAddCodexToActor actorUuid (_gmAddCodexToActor actorUuid w).2).1
              = (_gmAddCodexToActor actorUuid w).1
              ∧ (_gmAddCodexToActor actorUuid (_gmAddCodexToActor actorUuid w).2).2
                = (_gmAddCodexToActor actorUuid w).2) as Hsame.
    { intros r Hr. rewrite Hr. cbn [fst snd]. by rewrite Hr. }
    destruct (fromUuid w actorUuid) as [[a actor| |]|] eqn:Hactor;
      try (apply (Hsame None); unfold _gmAddCodexToActor; by rewrite Hactor).
    apply fromUuid_actor in Hactor as Hactor'. destruct Hactor' as [-> Ha].
    destruct (findFirst (λ i, isCodexItem i = true) (Actor.items actor))
      as [existing|] eqn:Hexisting.
    { eapply Hsame. unfold _gmAddCodexToActor. by rewrite Hactor, Hexisting. }
    destruct (findFirst (λ i, Flags.isCodex (Item.flags i) = true) (items w))
      as [worldCodex|] eqn:Htemplate.
    2:{ eapply Hsame. unfold _gmAddCodexToActor.
        by rewrite Hactor, Hexisting, Htemplate. }
    assert (_gmAddCodexToActor (UActor a) w
            = (Some (uuid (mkItemDoc (Some a)
                             (created (Actor.items actor)
                                (stripLocation false worldCodex)))),
               createEmbeddedItem a (stripLocation false worldCodex) w)) as Hfirst.
    { unfold _gmAddCodexToActor. by rewrite Hactor, Hexisting, Htemplate. }
    rewrite Hfirst. cbn [fst snd].
    by rewrite (addCodex_created_found w a actor worldCodex).
  - intros Hmissing. unfold _gmAddCodexToActor.
    destruct (fromUuid w actorUuid) as [[a actor| |]|]; try done.
    by destruct (Hmissing a actor).
  - intros a actor Hactor Hnone Htemplate. unfold _gmAddCodexToActor.
    by rewrite Hactor, Hnone, Htemplate.
  - intros a actor existing Hactor Hexisting. unfold _gmAddCodexToActor.
    by rewrite Hactor, Hexisting.
  - intros a actor worldCodex Hactor Hnone Htemplate new w1.
    pose proof (fromUuid_actor _ _ _ _ Hactor) as [-> Ha].
    split_and!.
    + unfold _gmAddCodexToActor. by rewrite Hactor, Hnone, Htemplate.
    + by apply resolveItem_fresh.
    + unfold w1. rewrite (resolveItem_createEmbeddedItem w a actor) by done.
      by rewrite decide_True.
    + apply findFirst_Some in Htemplate as [_ Hflag]. by apply isCodexItem_created.
    + by apply addCodex_created_found.
  - unfold _gmAddCodexToActor.
    destruct (fromUuid w actorUuid) as [[a actor| |]|] eqn:Hactor;
      try (split; [intros _; by left|done]).
    destruct (findFirst (λ i, isCodexItem i = true) (Actor.items actor))
      as [existing|] eqn:Hexisting.
    { split; [done|]. intros [Hmissing|(a' & actor' & [= <- <-] & Hnone & _)].
      - by destruct (Hmissing a actor).
      - by rewrite Hexisting in Hnone. }
    destruct (findFirst (λ i, Flags.isCodex (Item.flags i) = true) (items w))
      as [worldCodex|] eqn:Htemplate.
    + split; [done|]. intros [Hmissing|(a' & actor' & _ & _ & Hnone)].
      * by destruct (Hmissing a actor).
      * discriminate Hnone.
    + split; [|done]. intros _. right. by exists a, actor.
Qed.

Lemma ensure_container_idempotent_witness :
  (let r1 := _gmAddCodexToActor (UActor 4) Sample.library in
   let r2 := _gmAddCodexToActor (UActor 4) r1.2 in
   r2.1 = r1.1 ∧ r2.2 = r1.2)
  ∧ _gmAddCodexToActor (UActor 9) Sample.library = (None, Sample.library)
  ∧ _gmAddCodexToActor (UActor 2) Sample.party = (None, Sample.party)
  ∧ _gmAddCodexToActor (UActor 1) Sample.party = (Some (UOwned 1 5), Sample.party)
  ∧ ∃ u w1, _gmAddCodexToActor (UActor 4) Sample.library = (Some u, w1)
      ∧ resolveItem Sample.library u = None
      ∧ (isCodexItem ∘ data <$> resolveItem w1 u) = Some true
      ∧ _gmAddCodexToActor (UActor 4) w1 = (Some u, w1).
Proof.
  split_and!.
  - apply (proj1 (ensure_container_idempotent (UActor 4) Sample.library)).
  - apply (proj1 (proj2 (ensure_container_idempotent (UActor 9) Sample.library))).
    intros a actor. vm_compute. discriminate.
  - apply (proj1 (proj2 (proj2 (ensure_container_idempotent (UActor 2) Sample.party)))
             2 Sample.ally); reflexivity.
  - apply (proj1 (proj2 (proj2 (proj2
             (ensure_container_idempotent (UActor 1) Sample.party))))
             1 Sample.artificer
             (Item.mk 5 CODEX_NAME "book.webp" "container" None RefNull RefNull
                Sample.codexFlags)); reflexivity.
  - destruct (proj1 (proj2 (proj2 (proj2 (proj2
               (ensure_container_idempotent (UActor 4) Sample.library)))))
               4 (Actor.mk "Newcomer" ∅ [])
               (Item.mk 1 CODEX_NAME "book.webp" "container" (Some 1) RefNull RefNull
                  Sample.codexFlags) eq_refl eq_refl eq_refl)
      as (Hcall & Hfresh & Hres & Hcodex & Hagain).
    eexists _, _. split; [exact Hcall|]. split; [exact Hfresh|].
    split; [|exact Hagain]. rewrite Hres. exact (f_equal Some Hcodex).
Defined.

(** The first call on an owner without a Container creates one, and the
    second returns the same reference. *)
Example ensure_container_twice :
  let r1 := _gmAddCodexToActor (UActor 4) Sample.library in
  let r2 := _gmAddCodexToActor (UActor 4) r1.2 in
  r1.1 = Some (UOwned 4 1) ∧ r2 = r1.
Proof. split; reflexivity. Qed.

(** C4 as stated fails: in [Sample.party] the template is missing (the
    world holds no item), yet the call on actor 1, which already owns a
    Container, returns that Container's reference and not null. *)
Lemma ensure_container_template_missing :
  findFirst (λ i, Flags.isCodex (Item.flags i) = true) (items Sample.party) = None
  ∧ (_gmAddCodexToActor (UActor 1) Sample.party).1 = Some (UOwned 1 5)
  ∧ (_gmAddCodexToActor (UActor 1) Sample.party).1 ≠ None.
Proof. split_and!; [reflexivity | reflexivity | discriminate]. Qed.



(** * Further properties of the handlers *)

(** ** Category lookup: the three sources in turn *)

Section getSlotLevel.
Context (codex blueprint : ItemDoc).
Let byUuid := Js.parseInt (getKey (uuidMapOf codex) (uuid blueprint)).
Let byName := Js.parseInt (getKey (nameMapOf codex) (Item.name (data blueprint))).
Let byFlag := Js.parseInt (Flags.spellLevel (Item.flags (data blueprint))).

Lemma getSlotLevel_byUuid :
  Js.isLevel byUuid = true → getSlotLevel codex blueprint = byUuid.
Proof.
  intros H1. unfold getSlotLevel. fold (uuidMapOf codex). fold byUuid.
  by rewrite H1.
Qed.

Lemma getSlotLevel_byName :
  Js.isLevel byUuid = false → Js.isLevel byName = true →
  getSlotLevel codex blueprint = byName.
Proof.
  intros H1 H2. unfold getSlotLevel. fold (uuidMapOf codex). fold (nameMapOf codex).
  fold byUuid. fold byName. by rewrite H1, H2.
Qed.

Lemma getSlotLevel_byFlag :
  Js.isLevel byUuid = false → Js.isLevel byName = false →
  getSlotLevel codex blueprint = if Js.isLevel byFlag then byFlag else None.
Proof.
  intros H1 H2. unfold getSlotLevel. fold (uuidMapOf codex). fold (nameMapOf codex).
  fold byUuid. fold byName. rewrite H1, H2. cbn zeta.
  case_bool_decide as Hflag; [done|]. unfold byFlag.
  destruct (Flags.spellLevel (Item.flags (data blueprint))); try done;
    destruct Hflag; done.
Qed.

Lemma getSlotLevel_range z :
  getSlotLevel codex blueprint = Some z → (1 ≤ z ≤ 9)%Z.
Proof.
  intros Hz. destruct (Js.isLevel byUuid) eqn:H1.
  { rewrite getSlotLevel_byUuid in Hz by done. rewrite Hz in H1.
    apply isLevel_Some in H1 as (? & [= <-] & ?). done. }
  destruct (Js.isLevel byName) eqn:H2.
  { rewrite getSlotLevel_byName in Hz by done. rewrite Hz in H2.
    apply isLevel_Some in H2 as (? & [= <-] & ?). done. }
  rewrite getSlotLevel_byFlag in Hz by done.
  destruct (Js.isLevel byFlag) eqn:H3; [|done].
  rewrite Hz in H3. apply isLevel_Some in H3 as (? & [= <-] & ?). done.
Qed.

Lemma getSlotLevel_None :
  getSlotLevel codex blueprint = None ↔
    Js.isLevel byUuid = false ∧ Js.isLevel byName = false
    ∧ Js.isLevel byFlag = false.
Proof.
  destruct (Js.isLevel byUuid) eqn:H1.
  { rewrite getSlotLevel_byUuid by done. split; [|by intros (? & _)].
    intros Hn. rewrite Hn in H1. done. }
  destruct (Js.isLevel byName) eqn:H2.
  { rewrite getSlotLevel_byName by done. split; [|by intros (_ & ? & _)].
    intros Hn. rewrite Hn in H2. done. }
  rewrite getSlotLevel_byFlag by done.
  destruct (Js.isLevel byFlag) eqn:H3; [|done].
  split; [|by intros (_ & _ & ?)]. intros Hn. rewrite Hn in H3. done.
Qed.

End getSlotLevel.

(** ** Fabricate: the success path *)

(** X1. When owner and target resolve to actors, the blueprint to an item,
    the owner's pool for the category is a finite number above 0 and the
    second step succeeds, [fabricate] returns true; the pool entry becomes
    the number that subtracting one from it gives, the target gains exactly
    one item, appended under an identifier not in use, which is the
    temporary copy of the blueprint; nothing else changes. *)
Theorem fabricate_success (ownerActorUuid targetActorUuid blueprintUuid
    codexUuid : Uuid) (slotLevel : Z) (w : World) (owner target : Id)
    (ownerActor targetActor : Actor.t) (blueprint : ItemDoc) (x : Double.t) :
  fromUuid w ownerActorUuid = Some (DocActor owner ownerActor) →
  fromUuid w targetActorUuid = Some (DocActor target targetActor) →
  fromUuid w blueprintUuid = Some (DocItem blueprint) →
  slotsOf ownerActor slotLevel = JNum x →
  Double.isFinite x = true → Double.leb x Double.zero = false →
  ∃ w' new,
    _gmFabricate ownerActorUuid targetActorUuid blueprintUuid codexUuid
      slotLevel true w = (Returned true, w')
    ∧ temporaryCopyOf codexUuid (data blueprint) new
    ∧ (Item.id new ∉ Item.id <$> Actor.items targetActor)
    ∧ Actor.items <$> actors w' !! target = Some (Actor.items targetActor ++ [new])
    ∧ Actor.spells <$> actors w' !! owner
      = Some (<[slotLevel := JNum (Double.sub x Double.one)]>
                (Actor.spells ownerActor))
    ∧ (owner ≠ target →
       Actor.items <$> actors w' !! owner = Some (Actor.items ownerActor)
       ∧ Actor.spells <$> actors w' !! target = Some (Actor.spells targetActor))
    ∧ (∀ a, a ≠ owner → a ≠ target → actors w' !! a = actors w !! a)
    ∧ items w' = items w ∧ folders w' = folders w
    ∧ messages w' = messages w ∧ console w' = console w.
Proof.
  intros Howner Htarget Hbp Hslots Hfin Hpos.
  pose proof (fromUuid_actor _ _ _ _ Howner) as [-> Ho].
  pose proof (fromUuid_actor _ _ _ _ Htarget) as [-> Ht].
  unfold _gmFabricate. rewrite Howner, Htarget, Hbp, Hslots, Hfin, Hpos.
  cbn [negb orb].
  set (itemData := setFlags (markTemporary codexUuid)
                     (setName ("Temporary " +:+ Item.name (data blueprint))
                        (stripLocation true (data blueprint)))).
  eexists _, (created (Actor.items targetActor) itemData).
  split; [reflexivity|].
  split; [by repeat split|].
  split; [apply created_id_fresh|].
  cbn [createEmbeddedItem setActor actors items folders messages console].
  split_and!; try done.
  - rewrite lookup_alter_eq. destruct (decide (owner = target)) as [->|Hne].
    + rewrite lookup_alter_eq, Ht. cbn. rewrite Ho in Ht. by injection Ht as ->.
    + rewrite lookup_alter_ne, Ht by done. done.
  - destruct (decide (owner = target)) as [->|Hne].
    + rewrite !lookup_alter_eq, Ho. done.
    + rewrite lookup_alter_ne, lookup_alter_eq, Ho by done. done.
  - intros Hne. split.
    + rewrite lookup_alter_ne, lookup_alter_eq, Ho by done. done.
    + rewrite lookup_alter_eq, lookup_alter_ne, Ht by done. done.
  - intros a Hao Hat. by rewrite !lookup_alter_ne.
Qed.

Lemma fabricate_success_witness :
  ∃ w' new,
    _gmFabricate (UActor 1) (UActor 2) (UOwned 1 6) (UOwned 1 5) 4 true Sample.party
    = (Returned true, w')
    ∧ Item.name new = "Temporary Grapple Gun"
    ∧ Actor.items <$> actors w' !! 2 = Some (Actor.items Sample.ally ++ [new])
    ∧ Actor.spells <$> actors w' !! 1
      = Some (<[4%Z := JInt 1]> (Actor.spells Sample.artificer)).
Proof.
  destruct (fabricate_success (UActor 1) (UActor 2) (UOwned 1 6) (UOwned 1 5) 4
              Sample.party 1 2 Sample.artificer Sample.ally
              (mkItemDoc (Some 1) (Sample.item 6 "Grapple Gun" Flags.empty))
              (Double.ofZ 2) eq_refl eq_refl eq_refl eq_refl eq_refl eq_refl)
    as (w' & new & Hrun & Hcopy & _ & Hitems & Hspells & _).
  exists w', new. split_and!; [exact Hrun | apply Hcopy | exact Hitems | exact Hspells].
Defined.

(** The handler either finds one of its inputs wanting and returns false,
    or runs its two steps. *)
Lemma fabricate_cases ownerActorUuid targetActorUuid blueprintUuid codexUuid
    slotLevel attached w :
  let ready owner ownerActor target targetActor blueprint x :=
    fromUuid w ownerActorUuid = Some (DocActor owner ownerActor)
    ∧ fromUuid w targetActorUuid = Some (DocActor target targetActor)
    ∧ fromUuid w blueprintUuid = Some (DocItem blueprint)
    ∧ slotsOf ownerActor slotLevel = JNum x
    ∧ Double.isFinite x = true ∧ Double.leb x Double.zero = false in
  (_gmFabricate ownerActorUuid targetActorUuid blueprintUuid codexUuid slotLevel
     attached w = (Returned false, w)
   ∧ ∀ owner ownerActor target targetActor blueprint x,
       ¬ ready owner ownerActor target targetActor blueprint x)
  ∨ ∃ owner ownerActor target targetActor blueprint x,
      ready owner ownerActor target targetActor blueprint x
      ∧ _gmFabricate ownerActorUuid targetActorUuid blueprintUuid codexUuid
          slotLevel attached w
        = let w1 :=
            setActor owner
              (setSpells <[slotLevel := JNum (Double.sub x Double.one)]>) w in
          if attached
          then (Returned true,
                createEmbeddedItem target
                  (setFlags (markTemporary codexUuid)
                     (setName ("Temporary " +:+ Item.name (data blueprint))
                        (stripLocation true (data blueprint)))) w1)
          else (Threw, w1).
Proof.
  cbn zeta. unfold _gmFabricate.
  destruct (fromUuid w ownerActorUuid) as [[owner ownerActor| |]|] eqn:Ho;
    try (left; split; [done|]; intros ? ? ? ? ? ? (? & _); congruence).
  destruct (fromUuid w targetActorUuid) as [[target targetActor| |]|] eqn:Ht;
    try (left; split; [done|]; intros ? ? ? ? ? ? (_ & ? & _); congruence).
  destruct (fromUuid w blueprintUuid) as [[|blueprint|]|] eqn:Hb;
    try (left; split; [done|]; intros ? ? ? ? ? ? (_ & _ & ? & _); congruence).
  destruct (slotsOf ownerActor slotLevel) as [| | |x|] eqn:Hs;
    try (left; split; [done|]; intros ? ? ? ? ? ? (? & _ & _ & ? & _); congruence).
  destruct (negb (Double.isFinite x) || Double.leb x Double.zero) eqn:Hx.
  - left. split; [done|]. intros ? ? ? ? ? x0 (H1 & _ & _ & H4 & Hfin & Hpos).
    assert (x0 = x) as -> by congruence. by rewrite Hfin, Hpos in Hx.
  - apply orb_false_elim in Hx as [Hfin%negb_false_iff Hpos].
    right. by exists owner, ownerActor, target, targetActor, blueprint, x.
Qed.

(** X2. The outcomes of [fabricate].  The handler is ready when owner and
    target resolve to actors, the blueprint to an item and the owner's pool
    for the category is a finite number above 0.  It returns true exactly
    when it is ready and the second step succeeds, and it throws exactly
    when it is ready and the second step fails.  A call that returns false
    leaves the world as it was.  A call that throws has a partial effect:
    it leaves the world with the owner's pool lowered and nothing else
    changed, so no record is created for the spent resource. *)
Theorem fabricate_outcome (ownerActorUuid targetActorUuid blueprintUuid
    codexUuid : Uuid) (slotLevel : Z) (attached : bool) (w : World) :
  let r := _gmFabricate ownerActorUuid targetActorUuid blueprintUuid codexUuid
             slotLevel attached w in
  let ready :=
    ∃ owner ownerActor target targetActor blueprint x,
      fromUuid w ownerActorUuid = Some (DocActor owner ownerActor)
      ∧ fromUuid w targetActorUuid = Some (DocActor target targetActor)
      ∧ fromUuid w blueprintUuid = Some (DocItem blueprint)
      ∧ slotsOf ownerActor slotLevel = JNum x
      ∧ Double.isFinite x = true ∧ Double.leb x Double.zero = false in
  (r.1 = Returned true ↔ ready ∧ attached = true)
  ∧ (r.1 = Threw ↔ ready ∧ attached = false)
  ∧ (r.1 = Returned false → r.2 = w)
  ∧ (r.1 = Threw →
     ∀ owner ownerActor x,
       fromUuid w ownerActorUuid = Some (DocActor owner ownerActor) →
       slotsOf ownerActor slotLevel = JNum x →
       r.2 = setActor owner
               (setSpells <[slotLevel := JNum (Double.sub x Double.one)]>) w).
Proof.
  cbn zeta.
  destruct (fabricate_cases ownerActorUuid targetActorUuid blueprintUuid codexUuid
              slotLevel attached w)
    as [[-> Hnot]|(owner & ownerActor & target & targetActor & blueprint & x
                   & Hready & ->)]; cbn [fst snd].
  - split_and!; try done.
    + split; [done|]. intros [(? & ? & ? & ? & ? & ? & Hready) _].
      by destruct (Hnot _ _ _ _ _ _ Hready).
    + split; [done|]. intros [(? & ? & ? & ? & ? & ? & Hready) _].
      by destruct (Hnot _ _ _ _ _ _ Hready).
  - assert (∃ owner ownerActor target targetActor blueprint x,
              fromUuid w ownerActorUuid = Some (DocActor owner ownerActor)
              ∧ fromUuid w targetActorUuid = Some (DocActor target targetActor)
              ∧ fromUuid w blueprintUuid = Some (DocItem blueprint)
              ∧ slotsOf ownerActor slotLevel = JNum x
              ∧ Double.isFinite x = true ∧ Double.leb x Double.zero = false)
      as Hex by (by exists owner, ownerActor, target, targetActor, blueprint, x).
    destruct Hready as (Ho & _ & _ & Hs & _).
    destruct attached; cbn [fst snd].
    + split_and!; try done. split; [done|]. by intros [_ ?].
    + split_and!; try done.
      * split; [done|]. by intros [_ ?].
      * intros _ owner0 ownerActor0 x0 Ho0 Hs0.
        assert (owner0 = owner ∧ ownerActor0 = ownerActor) as [-> ->]
          by (split; congruence).
        by assert (x0 = x) as -> by congruence.
Qed.

Lemma fabricate_outcome_witness :
  (_gmFabricate (UActor 1) (UActor 2) (UOwned 1 6) (UOwned 1 5) 4 true
     Sample.party).1 = Returned true
  ∧ (_gmFabricate (UActor 1) (UActor 2) (UOwned 1 6) (UOwned 1 5) 9 true
       Sample.party).2 = Sample.party
  ∧ (_gmFabricate (UActor 1) (UActor 2) (UOwned 1 6) (UOwned 1 5) 4 false
       Sample.party).2
    = setActor 1 (setSpells <[4%Z := JInt 1]>) Sample.party.
Proof.
  split_and!.
  - apply (proj1 (fabricate_outcome (UActor 1) (UActor 2) (UOwned 1 6) (UOwned 1 5)
                    4 true Sample.party)).
    split; [|done].
    exists 1, Sample.artificer, 2, Sample.ally,
      (mkItemDoc (Some 1) (Sample.item 6 "Grapple Gun" Flags.empty)), (Double.ofZ 2).
    split_and!; reflexivity.
  - apply (proj1 (proj2 (proj2 (fabricate_outcome (UActor 1) (UActor 2) (UOwned 1 6)
                                  (UOwned 1 5) 9 true Sample.party)))).
    reflexivity.
  - apply (proj2 (proj2 (proj2 (fabricate_outcome (UActor 1) (UActor 2) (UOwned 1 6)
                                  (UOwned 1 5) 4 false Sample.party)))
             eq_refl 1 Sample.artificer (Double.ofZ 2) eq_refl eq_refl).
Defined.

Lemma setActorItems_delete_insert d act :
  setActorItems (deleteById (Item.id (created (Actor.items act) d)))
    (setActorItems (insertNew d) act) = act.
Proof.
  destruct act as [name spells l]. unfold setActorItems.
  cbn [Actor.items Actor.name Actor.spells]. by rewrite deleteById_insertNew.
Qed.

(** X3. Fabricate, then recall the fabricated record with the same
    container reference: the recall returns true and removes exactly that
    record, so the target's items are as they were before the fabrication,
    while the owner's pool stays lowered.  The world after both calls is
    the initial world with the pool entry replaced by the number that
    subtracting one from it gives. *)
Theorem fabricate_then_recall (ownerActorUuid targetActorUuid blueprintUuid
    codexUuid : Uuid) (slotLevel : Z) (w : World) (owner target : Id)
    (ownerActor targetActor : Actor.t) (blueprint : ItemDoc) (x : Double.t) :
  fromUuid w ownerActorUuid = Some (DocActor owner ownerActor) →
  fromUuid w targetActorUuid = Some (DocActor target targetActor) →
  fromUuid w blueprintUuid = Some (DocItem blueprint) →
  slotsOf ownerActor slotLevel = JNum x →
  Double.isFinite x = true → Double.leb x Double.zero = false →
  ∃ w' new,
    _gmFabricate ownerActorUuid targetActorUuid blueprintUuid codexUuid
      slotLevel true w = (Returned true, w')
    ∧ Actor.items <$> actors w' !! target = Some (Actor.items targetActor ++ [new])
    ∧ _gmRecall (UOwned target (Item.id new)) (Some codexUuid) w'
      = (true,
         setActor owner
           (setSpells <[slotLevel := JNum (Double.sub x Double.one)]>) w).
Proof.
  intros Howner Htarget Hbp Hslots Hfin Hpos.
  pose proof (fromUuid_actor _ _ _ _ Howner) as [-> Ho].
  pose proof (fromUuid_actor _ _ _ _ Htarget) as [-> Ht].
  unfold _gmFabricate. rewrite Howner, Htarget, Hbp, Hslots, Hfin, Hpos.
  cbn [negb orb].
  set (itemData := setFlags (markTemporary codexUuid)
                     (setName ("Temporary " +:+ Item.name (data blueprint))
                        (stripLocation true (data blueprint)))).
  set (w1 := setActor owner
               (setSpells <[slotLevel := JNum (Double.sub x Double.one)]>) w).
  assert (∃ act1, actors w1 !! target = Some act1
                  ∧ Actor.items act1 = Actor.items targetActor) as (act1 & Hact1 & Hitems1).
  { unfold w1. cbn [setActor actors]. destruct (decide (owner = target)) as [->|Hne].
    - rewrite lookup_alter_eq, Ho. eexists. split; [done|].
      rewrite Ho in Ht. by injection Ht as ->.
    - rewrite lookup_alter_ne, Ht by done. eauto. }
  eexists _, (created (Actor.items targetActor) itemData).
  split; [reflexivity|]. split.
  { cbn [createEmbeddedItem setActor actors]. rewrite lookup_alter_eq, Hact1.
    cbn. unfold insertNew. by rewrite Hitems1. }
  unfold _gmRecall. cbn [fromUuid createEmbeddedItem setActor actors].
  rewrite lookup_alter_eq, Hact1.
  cbn [fmap option_fmap option_map mbind option_bind setActorItems Actor.items].
  rewrite <- Hitems1, findFirst_insertNew. cbn [fmap option_fmap option_map compose].
  rewrite decide_False by (by intros []).
  f_equal. unfold deleteItem. cbn [parent data].
  assert (alter (setActorItems (deleteById (Item.id (created (Actor.items act1) itemData))))
            target (alter (setActorItems (insertNew itemData)) target (actors w1))
          = actors w1) as Hactors.
  { apply map_eq. intros a. destruct (decide (a = target)) as [->|Hne].
    - rewrite !lookup_alter_eq, Hact1. cbn. f_equal. apply setActorItems_delete_insert.
    - by rewrite !lookup_alter_ne. }
  unfold createEmbeddedItem, setActor at 1 2.
  cbn [actors items folders messages console].
  rewrite Hactors. by destruct w1.
Qed.

Lemma fabricate_then_recall_witness :
  ∃ w' new,
    _gmFabricate (UActor 1) (UActor 2) (UOwned 1 6) (UOwned 1 5) 4 true Sample.party
    = (Returned true, w')
    ∧ Actor.items <$> actors w' !! 2 = Some (Actor.items Sample.ally ++ [new])
    ∧ _gmRecall (UOwned 2 (Item.id new)) (Some (UOwned 1 5)) w'
      = (true, setActor 1 (setSpells <[4%Z := JInt 1]>) Sample.party).
Proof.
  apply (fabricate_then_recall (UActor 1) (UActor 2) (UOwned 1 6) (UOwned 1 5) 4
           Sample.party 1 2 Sample.artificer Sample.ally
           (mkItemDoc (Some 1) (Sample.item 6 "Grapple Gun" Flags.empty))
           (Double.ofZ 2)); reflexivity.
Defined.

(** ** Creating records on an actor *)

(** X4. [create-record]: when the owner does not resolve to an actor the
    handler returns null and changes nothing.  Otherwise it returns a
    reference that was not in use, which resolves to the created record:
    owned by that actor, with the given name, the given type (["loot"] for
    an empty type), parented to the given container, marked as innovation
    with category null; every other item reference resolves as before.
    Such a record has no category until one is assigned: [getSlotLevel]
    returns null for it against every Container whose maps have no entry
    for its reference and its name. *)
Theorem createInnovation_record (actorUuid : Uuid) (codexId : Id)
    (itemName itemType : string) (w : World) :
  ((∀ a actor, fromUuid w actorUuid ≠ Some (DocActor a actor)) →
   _gmCreateInnovation actorUuid codexId itemName itemType w = (None, w))
  ∧ (∀ a actor, fromUuid w actorUuid = Some (DocActor a actor) →
     ∃ u w' doc,
       _gmCreateInnovation actorUuid codexId itemName itemType w = (Some u, w')
       ∧ resolveItem w u = None
       ∧ resolveItem w' u = Some doc
       ∧ uuid doc = u ∧ parent doc = Some a
       ∧ Actor.items <$> actors w' !! a = Some (Actor.items actor ++ [data doc])
       ∧ Item.name (data doc) = itemName
       ∧ Item.type (data doc) = (if decide (itemType = "") then "loot" else itemType)
       ∧ Item.container (data doc) = RefId codexId
       ∧ Flags.isInnovation (Item.flags (data doc)) = true
       ∧ Flags.spellLevel (Item.flags (data doc)) = JNull
       ∧ Flags.createdBy (Item.flags (data doc)) = Some actorUuid
       ∧ (∀ v, v ≠ u → resolveItem w' v = resolveItem w v)
       ∧ (∀ codex, uuidMapOf codex !! u = None →
                   nameMapOf codex !! itemName = None →
                   getSlotLevel codex doc = None)).
Proof.
  split.
  - intros Hmissing. unfold _gmCreateInnovation.
    destruct (fromUuid w actorUuid) as [[a actor| |]|]; try done.
    by destruct (Hmissing a actor).
  - intros a actor Hactor.
    pose proof (fromUuid_actor _ _ _ _ Hactor) as [-> Ha].
    unfold _gmCreateInnovation. rewrite Hactor.
    set (itemData := Item.mk 0 itemName ""
           (if decide (itemType = "") then "loot" else itemType) None
           (RefId codexId) RefNull
           (Flags.mk false false true false JNull (Some (UActor a)) None None None
              None)).
    eexists _, _, (mkItemDoc (Some a) (created (Actor.items actor) itemData)).
    split; [reflexivity|].
    split; [by apply resolveItem_fresh|].
    split; [rewrite (resolveItem_createEmbeddedItem w a actor) by done;
            by rewrite decide_True|].
    split; [done|]. split; [done|].
    split; [cbn [createEmbeddedItem setActor actors];
            by rewrite lookup_alter_eq, Ha|].
    do 6 (split; [done|]).
    split.
    + intros v Hv. rewrite (resolveItem_createEmbeddedItem w a actor) by done.
      by rewrite decide_False.
    + intros codex Huuid Hname.
      rewrite getSlotLevel_byFlag; [done|..].
      * unfold getKey. by rewrite Huuid.
      * unfold getKey. cbn [data created withId Item.name itemData]. by rewrite Hname.
Qed.

Lemma createInnovation_record_witness :
  _gmCreateInnovation (UActor 7) 5 "Rocket Boots" "" Sample.party = (None, Sample.party)
  ∧ ∃ u w' doc,
      _gmCreateInnovation (UActor 1) 5 "Rocket Boots" "" Sample.party = (Some u, w')
      ∧ resolveItem w' u = Some doc
      ∧ Item.type (data doc) = "loot"
      ∧ getSlotLevel
          (mkItemDoc (Some 1)
             (Item.mk 5 CODEX_NAME "book.webp" "container" None RefNull RefNull
                Sample.codexFlags)) doc = None.
Proof.
  destruct (createInnovation_record (UActor 7) 5 "Rocket Boots" "" Sample.party)
    as [Hmissing _].
  destruct (createInnovation_record (UActor 1) 5 "Rocket Boots" "" Sample.party)
    as [_ Hcreate].
  split.
  - apply Hmissing. intros a actor. vm_compute. discriminate.
  - destruct (Hcreate 1 Sample.artificer eq_refl)
      as (u & w' & doc & Hrun & _ & Hres & _ & _ & _ & _ & Htype & _ & _ & _ & _ & _ & Hlevel).
    exists u, w', doc. split_and!; [exact Hrun | exact Hres | exact Htype |].
    apply Hlevel; reflexivity.
Defined.

Lemma findFirst_hasId_NoDup l x :
  NoDup (Item.id <$> l) → x ∈ l → findFirst (hasId (Item.id x)) l = Some x.
Proof.
  induction l as [|y l IH]; [by intros _ ?%elem_of_nil|].
  cbn [fmap list_fmap]. rewrite NoDup_cons, elem_of_cons. intros [Hy Hl] Hx.
  rewrite findFirst_cons. destruct (decide (hasId (Item.id x) y)) as [Hid|Hid].
  - destruct Hx as [->|Hx]; [done|]. destruct Hy. unfold hasId in Hid.
    rewrite Hid. by apply list_elem_of_fmap_2.
  - destruct Hx as [->|Hx]; [by destruct Hid|]. by apply IH.
Qed.

(** X5. The reference [ensure-container] returns is sound.  For an owner
    whose items have distinct identifiers, a result that is not null
    resolves, in the world the call leaves, to an item owned by that actor
    that [isCodexItem] recognises.  If the reference did not resolve before
    the call, the item is new: it is the last of the owner's items and its
    folder and container fields are null.  The call changes neither the
    world collection of items, nor the folders, nor any other actor. *)
Theorem ensure_container_result (actorUuid : Uuid) (w : World) (a : Id)
    (actor : Actor.t) (u : Uuid) (w' : World) :
  fromUuid w actorUuid = Some (DocActor a actor) →
  NoDup (Item.id <$> Actor.items actor) →
  _gmAddCodexToActor actorUuid w = (Some u, w') →
  (∃ doc, resolveItem w' u = Some doc ∧ parent doc = Some a
          ∧ isCodexItem (data doc) = true
          ∧ (resolveItem w u = None →
             Item.folder (data doc) = None ∧ Item.container (data doc) = RefNull
             ∧ Item.containerId (data doc) = RefNull
             ∧ Actor.items <$> actors w' !! a = Some (Actor.items actor ++ [data doc])))
  ∧ items w' = items w ∧ folders w' = folders w
  ∧ (∀ b, b ≠ a → actors w' !! b = actors w !! b).
Proof.
  intros Hactor Hnodup. pose proof (fromUuid_actor _ _ _ _ Hactor) as [-> Ha].
  unfold _gmAddCodexToActor. rewrite Hactor.
  destruct (findFirst (λ i, isCodexItem i = true) (Actor.items actor))
    as [existing|] eqn:Hexisting.
  - intros [= <- <-]. split; [|done].
    apply findFirst_Some in Hexisting as [Hin Hcodex].
    assert (resolveItem w (uuid (mkItemDoc (Some a) existing))
            = Some (mkItemDoc (Some a) existing)) as Hres.
    { unfold uuid. cbn [parent data]. rewrite resolveItem_UOwned, Ha.
      cbn [mbind option_bind]. by rewrite findFirst_hasId_NoDup. }
    exists (mkItemDoc (Some a) existing). split; [done|]. split; [done|].
    split; [done|]. intros Hnone. by rewrite Hres in Hnone.
  - destruct (findFirst (λ i, Flags.isCodex (Item.flags i) = true) (items w))
      as [worldCodex|] eqn:Htemplate; [|done].
    intros [= <- <-]. split.
    + exists (mkItemDoc (Some a)
                (created (Actor.items actor) (stripLocation false worldCodex))).
      split.
      { rewrite (resolveItem_createEmbeddedItem w a actor) by done.
        by rewrite decide_True. }
      split; [done|]. split.
      { apply findFirst_Some in Htemplate as [_ Hflag]. by apply isCodexItem_created. }
      intros _. split_and!; try done.
      cbn [createEmbeddedItem setActor actors]. by rewrite lookup_alter_eq, Ha.
    + split_and!; try done. intros b Hb.
      cbn [createEmbeddedItem setActor actors]. by rewrite lookup_alter_ne.
Qed.

Lemma ensure_container_result_witness :
  ∃ doc, resolveItem (_gmAddCodexToActor (UActor 4) Sample.library).2 (UOwned 4 1)
         = Some doc
         ∧ parent doc = Some 4 ∧ isCodexItem (data doc) = true.
Proof.
  destruct (ensure_container_result (UActor 4) Sample.library 4
              (Actor.mk "Newcomer" ∅ []) (UOwned 4 1)
              (_gmAddCodexToActor (UActor 4) Sample.library).2
              eq_refl (NoDup_nil_2 : NoDup (Item.id <$> [])) eq_refl)
    as [(doc & Hres & Hparent & Hcodex & _) _].
  exists doc. split_and!; assumption.
Defined.

(** ** Mirror: creation and the at-most-one invariant *)

Section filter_insert.
Context {A : Type} (P : A → Prop) `{!∀ x, Decision (P x)}.

Lemma list_find_filter_head l k x :
  list_find P l = Some (k, x) → filter P l = x :: tail (filter P l).
Proof.
  revert k. induction l as [|y l IH]; intros k; [done|]. cbn [list_find].
  destruct (decide (P y)) as [Hy|Hy].
  - intros [= <- <-]. by rewrite filter_cons_True.
  - rewrite filter_cons_False by done.
    destruct (list_find P l) as [[k' x']|]; [|done]. cbn. intros [= <- <-]. eauto.
Qed.

(** Replacing the first [P]-element by another [P]-element replaces the
    head of the [P]-elements. *)
Lemma filter_insert_first l k x x' :
  list_find P l = Some (k, x) → P x' →
  filter P (<[k := x']> l) = x' :: tail (filter P l).
Proof.
  revert k. induction l as [|y l IH]; intros k; [done|]. cbn [list_find].
  destruct (decide (P y)) as [Hy|Hy].
  - intros [= <- <-] Hx'. change (filter P (x' :: l) = x' :: tail (filter P (y :: l))).
    by rewrite !filter_cons_True.
  - destruct (list_find P l) as [[k' x'']|] eqn:Hfind; [|done].
    cbn [fmap option_fmap option_map prod_map fst snd id].
    intros [= <- <-] Hx'.
    change (filter P (y :: <[k':=x']> l) = x' :: tail (filter P (y :: l))).
    rewrite !filter_cons_False by done. by apply IH.
Qed.

(** Replacing an element outside [P] by an element outside [P] does not
    change the [P]-elements. *)
Lemma filter_insert_outside (l : list A) (k : nat) x x' :
  l !! k = Some x → ¬ P x → ¬ P x' → filter P (<[k := x']> l) = filter P l.
Proof.
  revert k. induction l as [|y l IH]; intros [|k]; try done.
  - intros [= ->] Hx Hx'. change (filter P (x' :: l) = filter P (x :: l)).
    by rewrite !filter_cons_False.
  - intros Hk Hx Hx'. change (filter P (y :: <[k:=x']> l) = filter P (y :: l)).
    rewrite !filter_cons, (IH k) by done. done.
Qed.

Lemma list_find_None_filter (l : list A) : list_find P l = None ↔ filter P l = [].
Proof.
  rewrite list_find_None. induction l as [|y l IH]; [done|].
  rewrite Forall_cons, filter_cons. destruct (decide (P y)); [|tauto].
  split; [tauto|done].
Qed.
End filter_insert.

(** X7. [mirror], creation path: when the category folder exists and the
    source has no Mirror, the handler appends one item to the world
    collection, under an identifier not in use: the payload placed in that
    folder, with the container fields cleared, tagged with the source
    reference and the category; its other flags are the payload's, the two
    assignment maps as their JSON copies.  The items that existed, the
    actors, the folders, the chat and the console are as before. *)
Theorem mirror_creates (itemData : Item.t) (actorItemUuid : Uuid)
    (level : option Z) (w : World) (folder : Folder.t) :
  getSpellLevelFolder w level = Some folder →
  mirrorsOf actorItemUuid w = [] →
  let w' := _gmMirror itemData actorItemUuid level w in
  ∃ new, items w' = items w ++ [new]
    ∧ (Item.id new ∉ Item.id <$> items w)
    ∧ Item.folder new = Some (Folder.id folder)
    ∧ Item.name new = Item.name itemData ∧ Item.img new = Item.img itemData
    ∧ Item.type new = Item.type itemData
    ∧ Item.container new = RefNull ∧ Item.containerId new = RefNull
    ∧ Flags.mirrorOf (Item.flags new) = Some actorItemUuid
    ∧ Flags.spellLevel (Item.flags new) = levelVal level
    ∧ (let f := Item.flags itemData in let f' := Item.flags new in
       Flags.isCodex f' = Flags.isCodex f
       ∧ Flags.isCreateFeature f' = Flags.isCreateFeature f
       ∧ Flags.isInnovation f' = Flags.isInnovation f
       ∧ Flags.isTemporary f' = Flags.isTemporary f
       ∧ Flags.createdBy f' = Flags.createdBy f
       ∧ Flags.originUuid f' = Flags.originUuid f
       ∧ Flags.slotLevelsByUuid f' = Js.duplicate <$> Flags.slotLevelsByUuid f
       ∧ Flags.slotLevelsByName f' = Js.duplicate <$> Flags.slotLevelsByName f)
    ∧ actors w' = actors w ∧ folders w' = folders w
    ∧ messages w' = messages w ∧ console w' = console w.
Proof.
  intros Hfolder Hnone. cbn zeta. unfold _gmMirror. rewrite Hfolder.
  apply list_find_None_filter in Hnone. rewrite Hnone.
  eexists. split; [reflexivity|]. split; [apply created_id_fresh|]. done.
Qed.

Lemma mirror_creates_witness :
  ∃ new, items (_gmMirror Sample.grappleGun (UOwned 1 6) (Some 3%Z) Sample.catalog)
         = items Sample.catalog ++ [new]
         ∧ Item.folder new = Some 5
         ∧ Flags.mirrorOf (Item.flags new) = Some (UOwned 1 6)
         ∧ Flags.spellLevel (Item.flags new) = JInt 3.
Proof.
  destruct (mirror_creates Sample.grappleGun (UOwned 1 6) (Some 3%Z) Sample.catalog
              (Folder.mk 5 "3rd" "Item" (Some 1)) eq_refl eq_refl)
    as (new & Hitems & _ & Hfolder & _ & _ & _ & _ & _ & Hmirror & Hlevel & _).
  exists new. split_and!; assumption.
Defined.

Lemma folders_mirror itemData actorItemUuid level w :
  folders (_gmMirror itemData actorItemUuid level w) = folders w.
Proof.
  unfold _gmMirror. destruct (getSpellLevelFolder w level) as [folder|]; [|done].
  destruct (list_find _ (items w)) as [[k m]|]; [|done].
  by destruct (decide (Item.folder m ≠ Some (Folder.id folder))).
Qed.

Lemma getSpellLevelFolder_ext w w' level :
  folders w' = folders w → getSpellLevelFolder w' level = getSpellLevelFolder w level.
Proof. intros Hf. unfold getSpellLevelFolder. by rewrite Hf. Qed.

(** The two paths of [mirror], as equations on the world collection. *)
Lemma mirror_update_items itemData actorItemUuid level w folder k mirrorItem :
  getSpellLevelFolder w level = Some folder →
  list_find (isMirrorOf actorItemUuid) (items w) = Some (k, mirrorItem) →
  items (_gmMirror itemData actorItemUuid level w)
  = <[k := relocated mirrorItem itemData folder]> (items w).
Proof.
  intros Hfolder Hfind. unfold _gmMirror. rewrite Hfolder, Hfind.
  apply list_find_Some in Hfind as (Hk & _ & _).
  destruct (decide (Item.folder mirrorItem ≠ Some (Folder.id folder))) as [Hne|Heq];
    cbn.
  - rewrite list_alter_alter_eq. by rewrite (alter_lookup_insert _ _ _ _ Hk).
  - apply dec_stable in Heq. rewrite (alter_lookup_insert _ _ _ _ Hk).
    unfold relocated, setNameImg. by rewrite Heq.
Qed.

Lemma mirror_create_items itemData actorItemUuid level w folder :
  getSpellLevelFolder w level = Some folder →
  mirrorsOf actorItemUuid w = [] →
  _gmMirror itemData actorItemUuid level w
  = createItem
      (setFlags (markMirror actorItemUuid level)
         (stripLocation true
            (setFolder (Some (Folder.id folder)) (duplicateItem itemData)))) w.
Proof.
  intros Hfolder Hnone. unfold _gmMirror. rewrite Hfolder.
  apply list_find_None_filter in Hnone. by rewrite Hnone.
Qed.

Lemma mirrorsOf_mirror itemData actorItemUuid level w folder :
  getSpellLevelFolder w level = Some folder →
  let w' := _gmMirror itemData actorItemUuid level w in
  length (mirrorsOf actorItemUuid w') = max 1 (length (mirrorsOf actorItemUuid w))
  ∧ (∃ m, head (mirrorsOf actorItemUuid w') = Some m
          ∧ Item.folder m = Some (Folder.id folder)
          ∧ Item.name m = Item.name itemData ∧ Item.img m = Item.img itemData)
  ∧ tail (mirrorsOf actorItemUuid w') = tail (mirrorsOf actorItemUuid w)
  ∧ (∀ other, other ≠ actorItemUuid → mirrorsOf other w' = mirrorsOf other w)
  ∧ getSpellLevelFolder w' level = Some folder.
Proof.
  intros Hfolder. cbn zeta.
  destruct (list_find (isMirrorOf actorItemUuid) (items w)) as [[k m]|] eqn:Hfind.
  - pose proof (mirror_update_items itemData actorItemUuid level w folder k m
                  Hfolder Hfind) as Hitems.
    assert (isMirrorOf actorItemUuid (relocated m itemData folder)) as Hrel.
    { apply list_find_Some in Hfind as (_ & Hm & _). exact Hm. }
    unfold mirrorsOf. rewrite Hitems.
    rewrite (filter_insert_first _ _ _ _ _ Hfind Hrel).
    rewrite (list_find_filter_head _ _ _ _ Hfind) at 2.
    split; [cbn; lia|]. split; [by eexists|]. split; [done|]. split.
    + intros other Hother. apply list_find_Some in Hfind as (Hk & Hm & _).
      apply (filter_insert_outside _ _ _ _ _ Hk); unfold isMirrorOf in *; congruence.
    + by rewrite (getSpellLevelFolder_ext w) by apply folders_mirror.
  - assert (mirrorsOf actorItemUuid w = []) as Hnone
      by (by apply list_find_None_filter).
    rewrite (mirror_create_items itemData actorItemUuid level w folder Hfolder Hnone).
    unfold mirrorsOf in *. cbn [createItem setItems items]. unfold insertNew.
    rewrite filter_app, Hnone.
    rewrite filter_cons_True, filter_nil by done.
    split; [done|]. split; [by eexists|]. split; [done|]. split.
    + intros other Hother. cbn [createItem setItems items]. unfold insertNew.
      rewrite filter_app, filter_cons_False, filter_nil.
      * by rewrite app_nil_r.
      * unfold isMirrorOf. cbn. congruence.
    + by rewrite (getSpellLevelFolder_ext w).
Qed.

(** X8. [mirror] keeps the number of Mirrors per source at most one.  When
    the category folder exists, the source has afterwards as many Mirrors
    as before, or one if it had none; the first of them lies in the
    category folder and carries the payload's name and image; the Mirrors
    of every other source are as before. *)
Theorem mirror_count (itemData : Item.t) (actorItemUuid : Uuid)
    (level : option Z) (w : World) (folder : Folder.t) :
  getSpellLevelFolder w level = Some folder →
  let w' := _gmMirror itemData actorItemUuid level w in
  length (mirrorsOf actorItemUuid w') = max 1 (length (mirrorsOf actorItemUuid w))
  ∧ (∃ m, head (mirrorsOf actorItemUuid w') = Some m
          ∧ Item.folder m = Some (Folder.id folder)
          ∧ Item.name m = Item.name itemData ∧ Item.img m = Item.img itemData)
  ∧ tail (mirrorsOf actorItemUuid w') = tail (mirrorsOf actorItemUuid w)
  ∧ (∀ other, other ≠ actorItemUuid → mirrorsOf other w' = mirrorsOf other w)
  ∧ getSpellLevelFolder w' level = Some folder.
Proof. apply mirrorsOf_mirror. Qed.

Lemma mirror_count_witness :
  length (mirrorsOf (UOwned 1 6)
            (_gmMirror Sample.grappleHook (UOwned 1 6) (Some 5%Z) Sample.mirrored))
  = max 1 (length (mirrorsOf (UOwned 1 6) Sample.mirrored)).
Proof.
  apply (mirror_count Sample.grappleHook (UOwned 1 6) (Some 5%Z) Sample.mirrored
           Sample.fifth eq_refl).
Defined.

(** X9. Mirroring a source twice, under a first and then a second
    category whose folders exist, from a world in which the source has at
    most one Mirror, leaves exactly one Mirror of the source; it lies in
    the folder of the second category and carries the second payload's name
    and image. *)
Theorem mirror_twice (data1 data2 : Item.t) (actorItemUuid : Uuid)
    (catA catB : option Z) (w : World) (folderA folderB : Folder.t) :
  getSpellLevelFolder w catA = Some folderA →
  getSpellLevelFolder w catB = Some folderB →
  (length (mirrorsOf actorItemUuid w) ≤ 1)%nat →
  let w' := _gmMirror data2 actorItemUuid catB
              (_gmMirror data1 actorItemUuid catA w) in
  ∃ m, mirrorsOf actorItemUuid w' = [m]
       ∧ Item.folder m = Some (Folder.id folderB)
       ∧ Item.folder m = Folder.id <$> getSpellLevelFolder w' catB
       ∧ Item.name m = Item.name data2 ∧ Item.img m = Item.img data2.
Proof.
  intros HA HB Hone. cbn zeta.
  set (w1 := _gmMirror data1 actorItemUuid catA w).
  destruct (mirrorsOf_mirror data1 actorItemUuid catA w folderA HA)
    as (Hlen1 & _ & _ & _ & _). fold w1 in Hlen1.
  assert (getSpellLevelFolder w1 catB = Some folderB) as HB1.
  { by rewrite (getSpellLevelFolder_ext w) by apply folders_mirror. }
  destruct (mirrorsOf_mirror data2 actorItemUuid catB w1 folderB HB1)
    as (Hlen2 & (m & Hhead & Hfolder & Hname & Himg) & _ & _ & HB2).
  exists m. rewrite HB2.
  destruct (mirrorsOf actorItemUuid (_gmMirror data2 actorItemUuid catB w1))
    as [|m' [|m'' rest]]; cbn in Hlen2, Hhead; try done; [|lia].
  by injection Hhead as ->.
Qed.

Lemma mirror_twice_witness :
  ∃ m, mirrorsOf (UOwned 1 6)
         (_gmMirror Sample.grappleHook (UOwned 1 6) (Some 5%Z)
            (_gmMirror Sample.grappleGun (UOwned 1 6) (Some 3%Z) Sample.catalog))
       = [m]
       ∧ Item.folder m = Some 7.
Proof.
  destruct (mirror_twice Sample.grappleGun Sample.grappleHook (UOwned 1 6)
              (Some 3%Z) (Some 5%Z) Sample.catalog
              (Folder.mk 5 "3rd" "Item" (Some 1)) Sample.fifth eq_refl eq_refl)
    as (m & Hm & Hfolder & _).
  - vm_compute. lia.
  - exists m. split; assumption.
Defined.




(** ** Folder lookup *)

Lemma folderName_cases level :
  (∃ z, level = Some z ∧ (1 ≤ z ≤ 9)%Z
        ∧ folderName level = SPELL_LEVEL_FOLDERS !! Z.to_nat z
        ∧ is_Some (SPELL_LEVEL_FOLDERS !! Z.to_nat z)
        ∧ folderName level ≠ Some "Uncategorized")
  ∨ ((∀ z, level = Some z → ¬ (1 ≤ z ≤ 9)%Z)
     ∧ folderName level = Some "Uncategorized").
Proof.
  destruct level as [z|]; [|right; done].
  destruct (decide (1 ≤ z ≤ 9)%Z) as [Hz|Hz].
  - left. exists z. unfold folderName. rewrite bool_decide_eq_true_2 by done.
    assert (z = 1 ∨ z = 2 ∨ z = 3 ∨ z = 4 ∨ z = 5 ∨ z = 6 ∨ z = 7 ∨ z = 8 ∨ z = 9)%Z
      as Hcases by lia.
    destruct Hcases as [->|[->|[->|[->|[->|[->|[->|[->| ->]]]]]]]]; by repeat split.
  - right. split; [by intros ? [= <-]|]. unfold folderName.
    by rewrite bool_decide_eq_false_2.
Qed.

(** X10. [getSpellLevelFolder] is sound and consults the first root only.
    A folder it returns is an Item folder of the world whose parent is the
    first root candidate; it is named "Uncategorized" when the level is
    null or outside 1..9, and after the level's entry of
    [SPELL_LEVEL_FOLDERS] (never "Uncategorized") otherwise.  It returns
    null exactly when there is no root candidate, or the first root
    candidate has no Item subfolder of that name. *)
Theorem getSpellLevelFolder_sound (w : World) (level : option Z) :
  (∀ f, getSpellLevelFolder w level = Some f →
     f ∈ folders w ∧ Folder.type f = "Item"
     ∧ (∃ root, findFirst isRootFolder (folders w) = Some root
                ∧ root ∈ folders w ∧ Folder.name root = CODEX_NAME
                ∧ Folder.folder root = None
                ∧ Folder.folder f = Some (Folder.id root))
     ∧ ((∃ z, level = Some z ∧ (1 ≤ z ≤ 9)%Z
              ∧ SPELL_LEVEL_FOLDERS !! Z.to_nat z = Some (Folder.name f)
              ∧ Folder.name f ≠ "Uncategorized")
        ∨ ((∀ z, level = Some z → ¬ (1 ≤ z ≤ 9)%Z)
           ∧ Folder.name f = "Uncategorized")))
  ∧ (getSpellLevelFolder w level = None ↔
       findFirst isRootFolder (folders w) = None
       ∨ ∃ root, findFirst isRootFolder (folders w) = Some root
                 ∧ ∀ g, g ∈ folders w →
                        ¬ isSubfolder (folderName level) (Folder.id root) g).
Proof.
  split.
  - intros f. unfold getSpellLevelFolder.
    destruct (findFirst isRootFolder (folders w)) as [root|] eqn:Hroot; [|done].
    intros [Hin (Hname & Htype & Hparent)]%findFirst_Some.
    apply findFirst_Some in Hroot as [Hrin (Hrname & _ & Hrparent)].
    split; [done|]. split; [done|]. split; [by exists root|].
    destruct (folderName_cases level) as [(z & -> & Hz & Heq & _ & Hne)
                                          | [Hout Heq]].
    + left. exists z. rewrite <- Heq, <- Hname.
      split; [done|]. split; [done|]. split; [done|].
      intros Hunc. apply Hne. by rewrite <- Hname, Hunc.
    + right. split; [done|]. rewrite Heq in Hname. by injection Hname.
  - unfold getSpellLevelFolder.
    destruct (findFirst isRootFolder (folders w)) as [root|] eqn:Hroot.
    + rewrite findFirst_None, Forall_forall. split.
      * intros Hnone. right. by exists root.
      * intros [?|(root' & [= <-] & Hnone)]; done.
    + split; [by left|done].
Qed.

Lemma getSpellLevelFolder_sound_witness :
  Sample.fifth ∈ folders Sample.catalog
  ∧ Folder.type Sample.fifth = "Item"
  ∧ getSpellLevelFolder Sample.party (Some 5%Z) = None.
Proof.
  destruct (getSpellLevelFolder_sound Sample.catalog (Some 5%Z)) as [Hsome _].
  destruct (getSpellLevelFolder_sound Sample.party (Some 5%Z)) as [_ Hnone].
  destruct (Hsome Sample.fifth eq_refl) as (Hin & Htype & _).
  split_and!; [exact Hin | exact Htype |].
  apply Hnone. left. reflexivity.
Defined.

(** A subfolder that sits under a duplicate root is not found: the lookup
    only consults the first root candidate. *)
Example getSpellLevelFolder_duplicate_root :
  let w := mkWorld ∅ []
             [Folder.mk 1 CODEX_NAME "Item" None;
              Folder.mk 2 CODEX_NAME "Item" None;
              Folder.mk 3 "3rd" "Item" (Some 2)] [] [] in
  getSpellLevelFolder w (Some 3%Z) = None.
Proof. reflexivity. Qed.

(** ** Category lookup: range and precedence *)

(** X11. [getSlotLevel] returns null or an integer between 1 and 9.  The
    identifier-keyed map takes precedence over the name-keyed map, which
    takes precedence over the blueprint's own flag: the result is the first
    of the three that parses to an integer between 1 and 9, and null
    exactly when none does. *)
Theorem getSlotLevel_precedence (codex blueprint : ItemDoc) :
  let byUuid := Js.parseInt (getKey (uuidMapOf codex) (uuid blueprint)) in
  let byName :=
    Js.parseInt (getKey (nameMapOf codex) (Item.name (data blueprint))) in
  let byFlag := Js.parseInt (Flags.spellLevel (Item.flags (data blueprint))) in
  (∀ z, getSlotLevel codex blueprint = Some z → (1 ≤ z ≤ 9)%Z)
  ∧ (Js.isLevel byUuid = true → getSlotLevel codex blueprint = byUuid)
  ∧ (Js.isLevel byUuid = false → Js.isLevel byName = true →
     getSlotLevel codex blueprint = byName)
  ∧ (Js.isLevel byUuid = false → Js.isLevel byName = false →
     Js.isLevel byFlag = true → getSlotLevel codex blueprint = byFlag)
  ∧ (getSlotLevel codex blueprint = None ↔
       Js.isLevel byUuid = false ∧ Js.isLevel byName = false
       ∧ Js.isLevel byFlag = false).
Proof.
  cbn zeta. split_and!.
  - apply getSlotLevel_range.
  - apply getSlotLevel_byUuid.
  - apply getSlotLevel_byName.
  - intros H1 H2 H3. rewrite getSlotLevel_byFlag by done. by rewrite H3.
  - apply getSlotLevel_None.
Qed.

Lemma getSlotLevel_precedence_witness :
  getSlotLevel Sample.markedCodex Sample.gunDoc = Some 3%Z
  ∧ (1 ≤ 3 ≤ 9)%Z.
Proof.
  destruct (getSlotLevel_precedence Sample.markedCodex Sample.gunDoc)
    as (Hrange & Huuid & _).
  assert (getSlotLevel Sample.markedCodex Sample.gunDoc = Some 3%Z) as Hlevel.
  { rewrite Huuid; reflexivity. }
  split; [exact Hlevel|]. apply Hrange. exact Hlevel.
Defined.

(** ** Assigning a category, then looking it up *)

Lemma findFirst_alter_cases (g : Item.t → Item.t) k l i x :
  (∀ y, Item.id (g y) = Item.id y) →
  findFirst (hasId i) l = Some x →
  findFirst (hasId i) (alter g k l) = Some x
  ∨ findFirst (hasId i) (alter g k l) = Some (g x).
Proof.
  intros Hid. revert k. induction l as [|y l IH]; intros [|k]; try done.
  - cbn [alter list_alter]. rewrite !findFirst_cons.
    destruct (decide (hasId i (g y))) as [H1|H1], (decide (hasId i y)) as [H2|H2];
      unfold hasId in H1, H2; rewrite Hid in H1; try done.
    + intros [= ->]. by right.
    + by left.
  - cbn [alter list_alter]. rewrite !findFirst_cons.
    destruct (decide (hasId i y)); [by left|]. apply IH.
Qed.

Lemma resolveItem_ext w w' v :
  actors w' = actors w → items w' = items w → resolveItem w' v = resolveItem w v.
Proof.
  intros Ha Hi. destruct v;
    rewrite ?resolveItem_UActor, ?resolveItem_UFolder, ?resolveItem_UItem,
      ?resolveItem_UOwned; by rewrite ?Ha, ?Hi.
Qed.

(** [mirror] keeps every item document in place, with its owner and flags;
    its name is as before or became the payload's. *)
Lemma resolveItem_mirror itemData actorItemUuid level w v d :
  resolveItem w v = Some d →
  ∃ d', resolveItem (_gmMirror itemData actorItemUuid level w) v = Some d'
        ∧ parent d' = parent d
        ∧ Item.flags (data d') = Item.flags (data d)
        ∧ (Item.name (data d') = Item.name (data d)
           ∨ Item.name (data d') = Item.name itemData).
Proof.
  intros Hd. unfold _gmMirror.
  destruct (getSpellLevelFolder w level) as [folder|].
  2:{ exists d. rewrite (resolveItem_ext w) by done. by eauto. }
  destruct v as [a|i|a i|f];
    [by rewrite resolveItem_UActor in Hd| |
     |by rewrite resolveItem_UFolder in Hd].
  - rewrite resolveItem_UItem in Hd.
    destruct (findFirst (hasId i) (items w)) as [x|] eqn:Hx; [|done].
    injection Hd as <-.
    destruct (list_find (isMirrorOf actorItemUuid) (items w)) as [[k m]|].
    + set (g := λ y, setNameImg (Item.name itemData) (Item.img itemData)
                       (if decide (Item.folder m ≠ Some (Folder.id folder))
                        then setFolder (Some (Folder.id folder)) y else y)).
      assert (items (setItems
                (alter (setNameImg (Item.name itemData) (Item.img itemData)) k)
                (if decide (Item.folder m ≠ Some (Folder.id folder))
                 then setItems (alter (setFolder (Some (Folder.id folder))) k) w
                 else w)) = alter g k (items w)) as Hitems.
      { unfold g. destruct (decide (Item.folder m ≠ Some (Folder.id folder)));
          cbn [items setItems]; [|done]. by rewrite list_alter_alter_eq. }
      rewrite resolveItem_UItem, Hitems.
      destruct (findFirst_alter_cases g k (items w) i x) as [-> | ->]; [| done | |].
      * intros y. unfold g.
        by destruct (decide (Item.folder m ≠ Some (Folder.id folder))).
      * exists (mkItemDoc None x). eauto.
      * exists (mkItemDoc None (g x)). split; [done|]. split; [done|].
        unfold g. cbn [data].
        destruct (decide (Item.folder m ≠ Some (Folder.id folder))); by eauto.
    + exists (mkItemDoc None x). rewrite resolveItem_UItem.
      unfold createItem, insertNew. cbn [items setItems].
      rewrite findFirst_snoc, Hx. by eauto.
  - exists d. split; [|by eauto]. rewrite <- Hd. rewrite !resolveItem_UOwned.
    destruct (list_find (isMirrorOf actorItemUuid) (items w)) as [[k m]|]; [|done].
    by destruct (decide (Item.folder m ≠ Some (Folder.id folder))).
Qed.

Lemma resolveItem_setFlag_same w u e d :
  resolveItem w u = Some d →
  resolveItem (_gmSetFlag u e w) u
  = Some (mkItemDoc (parent d) (setFlags (setFlag e) (data d))).
Proof.
  intros Hd. unfold _gmSetFlag.
  assert (fromUuid w u = Some (DocItem d)) as ->.
  { unfold resolveItem in Hd.
    destruct (fromUuid w u) as [[| |]|]; try done. by injection Hd as ->. }
  rewrite (resolveItem_updateItem w u d _ u) by done. by rewrite decide_True.
Qed.

Lemma resolveItem_setFlag_name w u e v d :
  resolveItem w v = Some d →
  ∃ d', resolveItem (_gmSetFlag u e w) v = Some d'
        ∧ Item.name (data d') = Item.name (data d).
Proof.
  intros Hd. unfold _gmSetFlag.
  destruct (fromUuid w u) as [[|du|]|] eqn:Hu; try by eauto.
  assert (resolveItem w u = Some du) as Hdu by (unfold resolveItem; by rewrite Hu).
  rewrite (resolveItem_updateItem w u du _ v) by done.
  destruct (decide (v = u)) as [->|Hne]; [|by eauto].
  rewrite Hdu in Hd. injection Hd as ->. by eauto.
Qed.

(** The blueprint after an accepted assignment: it carries the category in
    its own flag and has kept its name. *)
Lemma assign_category_blueprint userName codexRef blueprintRef level w
    codex blueprint lvl :
  resolveItem w codexRef = Some codex →
  resolveItem w blueprintRef = Some blueprint →
  checkLevel (normalizeLevel level) = Some lvl →
  ∃ bp', resolveItem (setSlotLevelForBlueprint userName codexRef blueprintRef level w)
           blueprintRef = Some bp'
         ∧ Flags.spellLevel (Item.flags (data bp')) = levelVal lvl
         ∧ Item.name (data bp') = Item.name (data blueprint).
Proof.
  intros Hcodex Hbp Hlvl. unfold setSlotLevelForBlueprint.
  rewrite Hcodex, Hbp, Hlvl.
  rewrite (resolveItem_uuid _ _ _ Hcodex), (resolveItem_uuid _ _ _ Hbp).
  unfold setItemFlag, requestGMNotification, mirrorToWorldFolder.
  set (w1 := _gmSetFlag codexRef _ w).
  set (w2 := _gmSetFlag codexRef _ w1).
  set (w3 := _gmSetFlag blueprintRef (SpellLevel (levelVal lvl)) w2).
  destruct (resolveItem_setFlag_name w codexRef
              ltac:(match eval unfold w1 in w1 with
                    | _gmSetFlag _ ?entry _ => exact entry
                    end) blueprintRef blueprint Hbp) as (d1 & Hd1 & Hn1).
  fold w1 in Hd1.
  destruct (resolveItem_setFlag_name w1 codexRef
              ltac:(match eval unfold w2 in w2 with
                    | _gmSetFlag _ ?entry _ => exact entry
                    end) blueprintRef d1 Hd1) as (d2 & Hd2 & Hn2).
  fold w2 in Hd2.
  pose proof (resolveItem_setFlag_same w2 blueprintRef (SpellLevel (levelVal lvl))
                d2 Hd2) as Hd3.
  fold w3 in Hd3. rewrite Hd3. cbn [default data].
  destruct (resolveItem_mirror (setFlags (setFlag (SpellLevel (levelVal lvl))) (data d2))
              (uuid (mkItemDoc (parent d2)
                       (setFlags (setFlag (SpellLevel (levelVal lvl))) (data d2))))
              lvl w3 blueprintRef _ Hd3) as (bp' & Hbp' & _ & Hflags & Hname).
  exists bp'. split.
  { rewrite (resolveItem_ext (_gmMirror _ _ _ w3)) by done. exact Hbp'. }
  split; [by rewrite Hflags|].
  rewrite <- Hn1, <- Hn2. by destruct Hname as [-> | ->].
Qed.

(** The Container after an accepted assignment: what its two maps hold
    for the blueprint. *)
Lemma assign_category_codex userName codexRef blueprintRef level w codex blueprint
    lvl :
  resolveItem w codexRef = Some codex →
  resolveItem w blueprintRef = Some blueprint →
  checkLevel (normalizeLevel level) = Some lvl →
  let w' := setSlotLevelForBlueprint userName codexRef blueprintRef level w in
  ∃ codex', resolveItem w' codexRef = Some codex'
    ∧ uuidMapOf codex' !! blueprintRef = JInt <$> lvl
    ∧ (Item.name (data blueprint) ≠ "" → lvl = None →
       nameMapOf codex' !! Item.name (data blueprint) = None).
Proof.
  intros Hcodex Hbp Hlvl w'.
  destruct (assign_category_stores_maps userName codexRef blueprintRef level w
              codex blueprint lvl Hcodex Hbp Hlvl) as (fl & Hfl & Hm1 & Hm2).
  apply flagsAt_Some in Hfl as (codex' & Hcodex' & <-).
  exists codex'. split; [exact Hcodex'|]. split.
  - unfold uuidMapOf at 1. rewrite Hm1.
    destruct lvl; cbn; [apply lookup_insert_eq | apply lookup_delete_eq].
  - intros Hname ->. unfold nameMapOf at 1. rewrite Hm2.
    rewrite decide_False by done. cbn. apply lookup_delete_eq.
Qed.

Lemma lookup_after_assign userName codexRef blueprintRef level w codex blueprint
    lvl :
  resolveItem w codexRef = Some codex →
  resolveItem w blueprintRef = Some blueprint →
  checkLevel (normalizeLevel level) = Some lvl →
  lvl ≠ None ∨ Item.name (data blueprint) ≠ "" →
  let w' := setSlotLevelForBlueprint userName codexRef blueprintRef level w in
  ∃ codex' blueprint',
    resolveItem w' codexRef = Some codex'
    ∧ resolveItem w' blueprintRef = Some blueprint'
    ∧ getSlotLevel codex' blueprint' = lvl.
Proof.
  intros Hcodex Hbp Hlvl Hcase w'.
  destruct (assign_category_codex userName codexRef blueprintRef level w codex
              blueprint lvl Hcodex Hbp Hlvl)
    as (codex' & Hcodex' & Huuid & Hname).
  destruct (assign_category_blueprint userName codexRef blueprintRef level w codex
              blueprint lvl Hcodex Hbp Hlvl)
    as (bp' & Hbp' & Hflag & Hbpname).
  exists codex', bp'. split; [exact Hcodex'|]. split; [exact Hbp'|].
  pose proof (resolveItem_uuid _ _ _ Hbp') as Hu.
  pose proof (getSlotLevel_byUuid codex' bp') as Hfirst.
  pose proof (proj2 (getSlotLevel_None codex' bp')) as Hnone.
  rewrite Hu in Hfirst, Hnone. unfold getKey in Hfirst, Hnone.
  rewrite Huuid in Hfirst, Hnone.
  destruct lvl as [z|];
    cbn [fmap option_fmap option_map default from_option id] in Hfirst, Hnone.
  - assert (1 ≤ z ≤ 9)%Z as Hz.
    { cut (checkLevel (normalizeLevel level) = Some (Some z)); [|done].
      by intros (_ & _ & ?)%checkLevel_accepted. }
    rewrite parseInt_digit in Hfirst by lia. apply Hfirst. cbn.
    by apply bool_decide_eq_true_2.
  - destruct Hcase as [?|Hne]; [done|]. apply Hnone.
    rewrite Hbpname, (Hname Hne eq_refl), Hflag. done.
Qed.

(** X12. Assign, then look up.  After an accepted assignment of a category
    between 1 and 9, [getSlotLevel] on the Container and the blueprint, as
    the world then holds them, returns that category; after an accepted
    un-assignment of a blueprint whose name is not empty it returns
    null. *)
Theorem assign_then_lookup (userName : string) (codexRef blueprintRef : Uuid)
    (level : JsVal) (w : World) (codex blueprint : ItemDoc) (lvl : option Z) :
  resolveItem w codexRef = Some codex →
  resolveItem w blueprintRef = Some blueprint →
  checkLevel (normalizeLevel level) = Some lvl →
  lvl ≠ None ∨ Item.name (data blueprint) ≠ "" →
  let w' := setSlotLevelForBlueprint userName codexRef blueprintRef level w in
  ∃ codex' blueprint',
    resolveItem w' codexRef = Some codex'
    ∧ resolveItem w' blueprintRef = Some blueprint'
    ∧ getSlotLevel codex' blueprint' = lvl.
Proof. apply lookup_after_assign. Qed.

Lemma assign_then_lookup_witness :
  let w' := setSlotLevelForBlueprint "Player" (UOwned 1 5) (UOwned 1 6) (JStr "4")
              Sample.party in
  ∃ codex' blueprint',
    resolveItem w' (UOwned 1 5) = Some codex'
    ∧ resolveItem w' (UOwned 1 6) = Some blueprint'
    ∧ getSlotLevel codex' blueprint' = Some 4%Z.
Proof.
  apply (assign_then_lookup "Player" (UOwned 1 5) (UOwned 1 6) (JStr "4")
           Sample.party
           (mkItemDoc (Some 1)
              (Item.mk 5 CODEX_NAME "book.webp" "container" None RefNull RefNull
                 Sample.codexFlags))
           Sample.gunDoc (Some 4%Z)); [reflexivity..|].
  left. discriminate.
Defined.

(** ** Folder repair: what it deletes *)

Lemma conservative_deleteIfEmpty w0 entry s f :
  Conservative w0 s → Conservative w0 (deleteIfEmpty entry s f).
Proof.
  intros (Ha & Hi & Hm & Hdel & Hkeep). unfold deleteIfEmpty.
  destruct (isFolderEmpty (world s) f) eqn:Hempty; [|done].
  split_and!; cbn; try done.
  - apply Forall_app. split; [done|]. by apply Forall_singleton.
  - intros g Hg. destruct (Hkeep g Hg) as [Hin|(d & Hd & Hid)].
    + destruct (decide (Folder.id g = Folder.id f)) as [Heq|Hne].
      * right. eexists. split; [apply elem_of_app; right; apply list_elem_of_singleton;
                                 reflexivity|]. done.
      * left. apply list_elem_of_filter. done.
    + right. exists d. split; [|done]. apply elem_of_app. by left.
Qed.

Lemma conservative_sweep w0 entry cands s :
  Conservative w0 s → Conservative w0 (foldl (deleteIfEmpty entry) s cands).
Proof.
  revert s. induction cands as [|c cands IH]; intros s Hs; [done|].
  cbn. apply IH. by apply conservative_deleteIfEmpty.
Qed.

Lemma conservative_create w0 s name type parent entry :
  Conservative w0 s →
  Conservative w0
    (mkRepair (consoleLog entry (createFolder name type parent (world s)).2) (deleted s)).
Proof.
  intros (Ha & Hi & Hm & Hdel & Hkeep). split_and!; cbn; try done.
  intros g Hg. destruct (Hkeep g Hg) as [Hin|?]; [|by right].
  left. apply elem_of_app. by left.
Qed.

Lemma conservative_ensureRoot w0 s :
  Conservative w0 s → Conservative w0 (ensureRoot s).2.
Proof.
  intros Hs. unfold ensureRoot.
  destruct (filter isRootFolder (folders (world s))) as [|root dupes].
  - cbn. by apply (conservative_create w0 s).
  - cbn. by apply conservative_sweep.
Qed.

Lemma conservative_ensureSubfolder w0 root s name :
  Conservative w0 s → Conservative w0 (ensureSubfolder root s name).
Proof.
  intros Hs. unfold ensureSubfolder.
  set (matches := filter _ (folders (world s))).
  assert (Conservative w0
            (if bool_decide (1 < length matches)
             then foldl (deleteIfEmpty (LogDeleteDuplicateSubfolder name)) s
                    (tail matches)
             else s)) as Hs1.
  { case_bool_decide; [by apply conservative_sweep|done]. }
  destruct (bool_decide (length matches = 0)); [|done].
  exact (conservative_create w0 _ _ _ _ _ Hs1).
Qed.

Lemma conservative_cleanStrays w0 s name :
  Conservative w0 s → Conservative w0 (cleanStrays s name).
Proof. intros Hs. by apply conservative_sweep. Qed.

Lemma conservative_foldl w0 (step : Repair → string → Repair) names s :
  (∀ s n, Conservative w0 s → Conservative w0 (step s n)) →
  Conservative w0 s → Conservative w0 (foldl step s names).
Proof.
  intros Hstep. revert s. induction names as [|n names IH]; intros s Hs; [done|].
  cbn. apply IH. by apply Hstep.
Qed.

Lemma conservative_ensureFolderHierarchy w :
  Conservative w (ensureFolderHierarchy w).2.
Proof.
  unfold ensureFolderHierarchy.
  assert (Conservative w (mkRepair w [])) as Hinit.
  { split_and!; cbn; try done. intros f Hf. by left. }
  apply conservative_ensureRoot in Hinit.
  destruct (ensureRoot (mkRepair w [])) as [root s]. cbn [snd] in Hinit |- *.
  apply conservative_foldl; [by intros; apply conservative_cleanStrays|].
  apply conservative_foldl; [by intros; apply conservative_ensureSubfolder|].
  done.
Qed.

Lemma isFolderEmpty_no_item w f it :
  isFolderEmpty w f = true → it ∈ items w → Item.folder it ≠ Some (Folder.id f).
Proof.
  unfold isFolderEmpty. rewrite andb_true_iff, !negb_true_iff, !bool_decide_eq_false.
  intros [Hitems _] Hin Hfolder. apply Hitems. apply Exists_exists. eauto.
Qed.

(** X13. The repair pass is conservative.  It leaves actors, items and
    chat alone.  Every folder it deletes is, in the world the deletion runs
    in, empty: no record parented to it and no child folder.  A folder of
    the initial world is missing afterwards only if a journaled deletion
    removed its identifier.  So a folder that holds a record is never
    deleted. *)
Theorem repair_conservative (w : World) :
  let r := (ensureFolderHierarchy w).2 in
  actors (world r) = actors w ∧ items (world r) = items w
  ∧ messages (world r) = messages w
  ∧ Forall (λ d, isFolderEmpty (before d) (victim d) = true) (deleted r)
  ∧ (∀ f, f ∈ folders w → f ∉ folders (world r) →
          ∃ d, d ∈ deleted r ∧ Folder.id (victim d) = Folder.id f)
  ∧ (∀ f it, f ∈ folders w → it ∈ items w →
             Item.folder it = Some (Folder.id f) → f ∈ folders (world r)).
Proof.
  cbn zeta. destruct (conservative_ensureFolderHierarchy w)
    as (Ha & Hi & Hm & Hdel & Hkeep).
  split_and!; try done.
  - eapply Forall_impl; [exact Hdel|]. by intros d [? _].
  - intros f Hf Hgone. by destruct (Hkeep f Hf).
  - intros f it Hf Hit Hfolder. destruct (Hkeep f Hf) as [?|(d & Hd & Hid)]; [done|].
    rewrite Forall_forall in Hdel. destruct (Hdel d Hd) as [Hempty Hitems].
    rewrite <- Hitems in Hit.
    destruct (isFolderEmpty_no_item _ _ _ Hempty Hit). by rewrite Hid.
Qed.

Lemma repair_conservative_witness :
  Folder.mk 4 "1st" "Item" (Some 1) ∈ folders (world (ensureFolderHierarchy Sample.cluttered).2).
Proof.
  destruct (repair_conservative Sample.cluttered) as (_ & _ & _ & _ & _ & Hheld).
  apply (Hheld (Folder.mk 4 "1st" "Item" (Some 1))
           (Item.mk 1 "Grapple Gun" "icon.webp" "loot" (Some 4) RefNull RefNull Flags.empty)).
  - vm_compute. apply list_elem_of_In. cbn. tauto.
  - vm_compute. apply list_elem_of_In. cbn. tauto.
  - reflexivity.
Defined.

(** The pass on [Sample.cluttered]: the empty duplicate root and the empty
    stray go, the duplicate subfolder that holds an item stays, and the
    nine missing subfolders are created. *)
Example repair_cluttered :
  let r := (ensureFolderHierarchy Sample.cluttered).2 in
  Folder.id <$> (victim <$> deleted r) = [2; 5]
  ∧ Folder.id <$> folders (world r) = [1; 3; 4; 6; 7; 8; 9; 10; 11; 12; 13; 14].
Proof. split; vm_compute; reflexivity. Qed.

(** ** Folder repair: sweeps *)

Lemma isFolderEmpty_holdsNothing w f :
  isFolderEmpty w f = true ↔ holdsNothing w (Folder.id f).
Proof.
  unfold isFolderEmpty, holdsNothing.
  rewrite andb_true_iff, !negb_true_iff, !bool_decide_eq_false.
  rewrite <- !Forall_Exists_neg. done.
Qed.

Lemma isFolderEmpty_false w f :
  isFolderEmpty w f = false ↔ ¬ holdsNothing w (Folder.id f).
Proof.
  rewrite <- isFolderEmpty_holdsNothing. by destruct (isFolderEmpty w f).
Qed.

Lemma findFirst_head_filter {A} (P : A → Prop) `{!∀ x, Decision (P x)} (l : list A) :
  findFirst P l = head (filter P l).
Proof.
  induction l as [|x l IH]; [done|].
  rewrite findFirst_cons, filter_cons. by destruct (decide (P x)).
Qed.

Lemma folder_id_inj (l : list Folder.t) f g :
  NoDup (Folder.id <$> l) → f ∈ l → g ∈ l → Folder.id f = Folder.id g → f = g.
Proof.
  induction l as [|x l IH]; [by intros _ ?%elem_of_nil|].
  cbn [fmap list_fmap]. rewrite NoDup_cons, !elem_of_cons.
  intros [Hx Hl] [->|Hf] [->|Hg] Hid; try done.
  - destruct Hx. rewrite Hid. by apply list_elem_of_fmap_2.
  - destruct Hx. rewrite <- Hid. by apply list_elem_of_fmap_2.
  - by apply IH.
Qed.

Lemma NoDup_ids_filter (P : Folder.t → Prop) `{!∀ x, Decision (P x)} l :
  NoDup (Folder.id <$> l) → NoDup (Folder.id <$> filter P l).
Proof.
  intros Hl. eapply sublist_NoDup; [exact Hl|].
  apply fmap_sublist, sublist_filter.
Qed.

Lemma filter_all {A} (P : A → Prop) `{!∀ x, Decision (P x)} (l : list A) :
  (∀ x, x ∈ l → P x) → filter P l = l.
Proof.
  induction l as [|x l IH]; [done|]. intros Hl.
  rewrite filter_cons_True by (apply Hl; left). f_equal. apply IH.
  intros y Hy. apply Hl. by right.
Qed.

Lemma filter_ext_in {A} (P Q : A → Prop) `{!∀ x, Decision (P x)}
    `{!∀ x, Decision (Q x)} (l : list A) :
  (∀ x, x ∈ l → P x ↔ Q x) → filter P l = filter Q l.
Proof.
  induction l as [|x l IH]; [done|]. intros Hl.
  rewrite !filter_cons. rewrite IH by (intros y Hy; apply Hl; by right).
  destruct (decide (P x)) as [HP|HP], (decide (Q x)) as [HQ|HQ]; try done.
  - destruct HQ. apply Hl; [left|done].
  - destruct HP. apply Hl; [left|done].
Qed.

Lemma filter_comm {A} (P Q : A → Prop) `{!∀ x, Decision (P x)}
    `{!∀ x, Decision (Q x)} (l : list A) :
  filter P (filter Q l) = filter Q (filter P l).
Proof. rewrite !list_filter_filter. apply list_filter_iff. tauto. Qed.

Lemma Forall_filter_iff {A} (Q R : A → Prop) `{!∀ x, Decision (R x)} (l : list A) :
  (∀ x, x ∈ l → ¬ R x → Q x) → Forall Q (filter R l) ↔ Forall Q l.
Proof.
  intros Hl. rewrite !Forall_forall. split.
  - intros Hall x Hx. destruct (decide (R x)); [|by apply Hl].
    apply Hall. by apply list_elem_of_filter.
  - intros Hall x [_ Hx]%list_elem_of_filter. by apply Hall.
Qed.

(** Deleting a folder changes "holds nothing" only for the parent of the
    folders deleted. *)
Lemma holdsNothing_deleteFolder w f x :
  (∀ g, g ∈ folders w → Folder.id g = Folder.id f → parentId g ≠ Some x) →
  holdsNothing (deleteFolder f w) x ↔ holdsNothing w x.
Proof.
  intros Hremoved. unfold holdsNothing, deleteFolder. cbn [items folders setFolders].
  rewrite Forall_filter_iff; [done|].
  intros g Hg Hid. apply Hremoved; [done|]. by apply dec_stable.
Qed.

(** What a sweep does.  When the folders that carry a candidate's
    identifier all have the parent [p], and no candidate is [p] itself, the
    sweep deletes exactly the folders doomed in the world it starts in, and
    changes "holds nothing" for no identifier other than [p]. *)
Lemma sweep_spec entry (p : option Id) cands s :
  (∀ g, g ∈ folders (world s) → Folder.id g ∈ Folder.id <$> cands →
        parentId g = p) →
  (∀ i, i ∈ Folder.id <$> cands → p ≠ Some i) →
  let s' := foldl (deleteIfEmpty entry) s cands in
  folders (world s')
  = filter (λ f, ¬ doomed (world s) cands f) (folders (world s))
  ∧ items (world s') = items (world s)
  ∧ (∀ x, p ≠ Some x → holdsNothing (world s') x ↔ holdsNothing (world s) x).
Proof.
  cbn zeta. revert s. induction cands as [|c cands IH]; intros s Hparent Hp.
  - cbn [foldl]. split; [|done]. symmetry. apply filter_all.
    intros f _ [Hin _]. by apply elem_of_nil in Hin.
  - cbn [foldl].
    destruct (isFolderEmpty (world s) c) eqn:Hempty.
    + assert (deleteIfEmpty entry s c
              = mkRepair (deleteFolder c (consoleLog (entry (Folder.id c)) (world s)))
                  (deleted s ++ [mkDeletion c (world s)])) as ->
        by (unfold deleteIfEmpty; by rewrite Hempty).
      apply isFolderEmpty_holdsNothing in Hempty.
      set (s1 := mkRepair _ _).
      assert (∀ x, p ≠ Some x → holdsNothing (world s1) x ↔ holdsNothing (world s) x)
        as Hframe.
      { intros x Hx. unfold s1. cbn [world]. rewrite holdsNothing_deleteFolder; [done|].
        intros g Hg Hid. rewrite (Hparent g); [done|done|].
        cbn [fmap list_fmap]. rewrite Hid. left. }
      destruct (IH s1) as (Hfolders & Hitems & Hframe').
      { intros g [_ Hg]%list_elem_of_filter Hid. apply Hparent; [done|].
        cbn [fmap list_fmap]. by right. }
      { intros i Hi. apply Hp. cbn [fmap list_fmap]. by right. }
      split; [|split; [by rewrite Hitems|]].
      * rewrite Hfolders.
        assert (folders (world s1)
                = filter (λ x, Folder.id x ≠ Folder.id c) (folders (world s))) as ->
          by done.
        rewrite list_filter_filter. apply filter_ext_in. intros f Hf.
        unfold doomed. cbn [fmap list_fmap]. rewrite elem_of_cons. split.
        -- intros [Hnot Hne] [[Hid|Hin] Hnothing]; [done|].
           apply Hnot. split; [done|]. apply Hframe; [|done].
           apply Hp. cbn [fmap list_fmap]. by right.
        -- intros Hnot. split.
           ++ intros [Hin Hnothing]. apply Hnot. split; [by right|].
              apply Hframe; [|done]. apply Hp. cbn [fmap list_fmap]. by right.
           ++ intros Hid. apply Hnot. split; [by left|]. by rewrite Hid.
      * intros x Hx. rewrite Hframe' by done. by apply Hframe.
    + assert (deleteIfEmpty entry s c = s) as ->
        by (unfold deleteIfEmpty; by rewrite Hempty).
      apply isFolderEmpty_false in Hempty.
      destruct (IH s) as (Hfolders & Hitems & Hframe).
      { intros g Hg Hid. apply Hparent; [done|]. cbn [fmap list_fmap]. by right. }
      { intros i Hi. apply Hp. cbn [fmap list_fmap]. by right. }
      split; [|done].
      rewrite Hfolders. apply filter_ext_in. intros f Hf.
      unfold doomed. cbn [fmap list_fmap]. rewrite elem_of_cons. split.
      * intros Hnot [[Hid|Hin] Hnothing]; [|by apply Hnot].
        apply Hempty. by rewrite <- Hid.
      * intros Hnot [Hin Hnothing]. apply Hnot. split; [by right|done].
Qed.

(** A sweep over candidates that all hold something does nothing. *)
Lemma sweep_nothing entry cands s :
  Forall (λ d, ¬ holdsNothing (world s) (Folder.id d)) cands →
  foldl (deleteIfEmpty entry) s cands = s.
Proof.
  induction 1 as [|c cands Hc _ IH]; [done|].
  cbn [foldl]. apply isFolderEmpty_false in Hc.
  assert (deleteIfEmpty entry s c = s) as ->
    by (unfold deleteIfEmpty; by rewrite Hc).
  exact IH.
Qed.

(** A sweep over folders of the current world that share a parent and are
    not that parent, in a world with distinct folder identifiers. *)
Lemma sweep_wf entry (p : option Id) cands s :
  wfFolders (world s) →
  (∀ c, c ∈ cands → c ∈ folders (world s) ∧ parentId c = p ∧ p ≠ Some (Folder.id c)) →
  let s' := foldl (deleteIfEmpty entry) s cands in
  folders (world s')
  = filter (λ f, ¬ doomed (world s) cands f) (folders (world s))
  ∧ items (world s') = items (world s)
  ∧ (∀ x, p ≠ Some x → holdsNothing (world s') x ↔ holdsNothing (world s) x)
  ∧ wfFolders (world s')
  ∧ (∀ f, f ∈ folders (world s) → doomed (world s) cands f → f ∈ cands).
Proof.
  intros Hwf Hcands. cbn zeta.
  assert (∀ g, g ∈ folders (world s) → Folder.id g ∈ Folder.id <$> cands → g ∈ cands)
    as Hmember.
  { intros g Hg (c & Hid & Hc)%list_elem_of_fmap.
    destruct (Hcands c Hc) as (Hin & _).
    by rewrite (folder_id_inj _ g c Hwf Hg Hin Hid). }
  destruct (sweep_spec entry p cands s) as (Hfolders & Hitems & Hframe).
  { intros g Hg Hid. by apply Hcands, Hmember. }
  { intros i (c & -> & Hc)%list_elem_of_fmap. by apply Hcands. }
  split_and!; try done.
  - unfold wfFolders. rewrite Hfolders. by apply NoDup_ids_filter.
  - intros f Hf [Hid _]. by apply Hmember.
Qed.

Lemma holdsNothing_ext w w' x :
  items w' = items w → folders w' = folders w → holdsNothing w' x ↔ holdsNothing w x.
Proof. intros Hi Hf. unfold holdsNothing. by rewrite Hi, Hf. Qed.

(** Creating a folder can only make the parent hold something. *)
Lemma holdsNothing_createFolder w name type parent x :
  parent ≠ Some x →
  holdsNothing (createFolder name type parent w).2 x ↔ holdsNothing w x.
Proof.
  intros Hp. unfold holdsNothing, createFolder. cbn [snd items folders setFolders].
  rewrite Forall_app, Forall_singleton. cbn [parentId Folder.folder]. tauto.
Qed.

Lemma holdsNothing_createFolder_mono w name type parent x :
  ¬ holdsNothing w x → ¬ holdsNothing (createFolder name type parent w).2 x.
Proof.
  intros Hnot Hnothing. apply Hnot. revert Hnothing.
  unfold holdsNothing, createFolder. cbn [snd items folders setFolders].
  rewrite Forall_app. tauto.
Qed.

Lemma wfFolders_createFolder w name type parent :
  wfFolders w → wfFolders (createFolder name type parent w).2.
Proof.
  unfold wfFolders, createFolder. cbn [snd folders setFolders]. intros Hwf.
  rewrite fmap_app. apply NoDup_app. split; [done|]. split; [|apply NoDup_singleton].
  intros i Hi ->%list_elem_of_singleton. cbn in Hi. by apply freshId_fresh in Hi.
Qed.

Lemma RootsOk_root_in root w : RootsOk root w → root ∈ folders w ∧ isRootFolder root.
Proof.
  intros (rest & Hfilter & _).
  assert (root ∈ filter isRootFolder (folders w)) as Hin by (rewrite Hfilter; left).
  apply list_elem_of_filter in Hin. tauto.
Qed.

(** Phase 1: the root. *)
Lemma ensureRoot_spec s :
  wfFolders (world s) →
  let r := ensureRoot s in
  wfFolders (world r.2) ∧ RootsOk r.1 (world r.2)
  ∧ Spares r.1 (world s) (world r.2).
Proof.
  intros Hwf. cbn zeta. unfold ensureRoot.
  destruct (filter isRootFolder (folders (world s))) as [|root dupes] eqn:Hcands.
  - cbn [fst snd world createFolder].
    split; [exact (wfFolders_createFolder (world s) CODEX_NAME "Item" None Hwf)|].
    split.
    + exists []. split; [|done]. unfold consoleLog, setFolders. cbn [folders].
      rewrite filter_app, Hcands, filter_cons_True, filter_nil; done.
    + split; [done|]. split.
      * intros x _. exact (holdsNothing_createFolder (world s) _ _ None x
                             (ltac:(done))).
      * intros f Hf _ _. unfold consoleLog, setFolders. cbn [folders].
        apply elem_of_app. by left.
  - cbn [fst snd].
    assert (NoDup (Folder.id <$> root :: dupes)) as Hnodup.
    { rewrite <- Hcands. by apply NoDup_ids_filter. }
    cbn [fmap list_fmap] in Hnodup. apply NoDup_cons in Hnodup as [Hroot Hdupes].
    assert (∀ c, c ∈ dupes → c ∈ folders (world s) ∧ isRootFolder c) as Hdup.
    { intros c Hc. assert (c ∈ filter isRootFolder (folders (world s))) as Hin
        by (rewrite Hcands; by right).
      apply list_elem_of_filter in Hin. tauto. }
    destruct (sweep_wf LogDeleteDuplicateRoot None dupes s Hwf)
      as (Hfolders & Hitems & Hframe & Hwf' & Hmember).
    { intros c Hc. destruct (Hdup c Hc) as (Hin & _ & _ & Hparent). done. }
    split; [done|]. split.
    + exists (filter (λ f, ¬ doomed (world s) dupes f) dupes). split.
      * rewrite Hfolders, filter_comm, Hcands, filter_cons_True; [done|].
        intros [Hid _]. done.
      * apply Forall_forall. intros d [Hkeep Hd]%list_elem_of_filter.
        rewrite Hframe by done. intros Hnothing. apply Hkeep. split; [|done].
        by apply list_elem_of_fmap_2.
    + split; [done|]. split; [by intros x _; apply Hframe|].
      intros f Hf _ Hnot. rewrite Hfolders. apply list_elem_of_filter. split; [|done].
      by intros [_ ?].
Qed.

Lemma isSubfolder_id_ne_root (l : list Folder.t) root n r c :
  NoDup (Folder.id <$> l) → root ∈ l → isRootFolder root → c ∈ l →
  isSubfolder n r c → Folder.id c ≠ Folder.id root.
Proof.
  intros Hwf Hroot (_ & _ & Hnone) Hc (_ & _ & Hsome) Hid.
  rewrite (folder_id_inj l c root Hwf Hc Hroot Hid) in Hsome. congruence.
Qed.

Lemma holdsNothing_consoleLog e w x : holdsNothing (consoleLog e w) x ↔ holdsNothing w x.
Proof. done. Qed.

(** Phase 2, one round: the subfolder [name]. *)
Lemma ensureSubfolder_spec root s name :
  wfFolders (world s) → RootsOk root (world s) →
  let s' := ensureSubfolder root s name in
  wfFolders (world s') ∧ RootsOk root (world s') ∧ SubsOk root (world s') name
  ∧ (∀ n, SubsOk root (world s) n → SubsOk root (world s') n)
  ∧ Spares root (world s) (world s').
Proof.
  intros Hwf Hroots. cbn zeta.
  pose proof (RootsOk_root_in _ _ Hroots) as [Hrootin Hrootis].
  destruct Hroots as (rest & Hrootfilter & Hrest).
  unfold ensureSubfolder.
  destruct (filter (isSubfolder (Some name) (Folder.id root)) (folders (world s)))
    as [|h tl] eqn:Hmatches.
  - (* no subfolder of that name: create it *)
    rewrite (bool_decide_eq_false_2 (1 < length (@nil Folder.t))) by (cbn; lia).
    rewrite (bool_decide_eq_true_2 (length (@nil Folder.t) = 0)) by done.
    set (new := Folder.mk (freshId (Folder.id <$> folders (world s))) name "Item"
                  (Some (Folder.id root))).
    assert (∀ P `{!∀ x, Decision (P x)},
              filter P (folders (world s) ++ [new])
              = filter P (folders (world s)) ++ if decide (P new) then [new] else [])
      as Hfilter.
    { intros P ?. by rewrite filter_app, filter_cons, filter_nil. }
    cbn [createFolder world deleted]. fold new.
    assert (folders (consoleLog (LogCreatedSubfolder (Folder.name new) (Folder.name root))
                       (setFolders (λ l, l ++ [new]) (world s)))
            = folders (world s) ++ [new]) as Hfolders by done.
    split; [exact (wfFolders_createFolder (world s) name "Item"
                     (Some (Folder.id root)) Hwf)|].
    split.
    { exists rest. split.
      - rewrite Hfolders, Hfilter, Hrootfilter. rewrite decide_False; [by rewrite app_nil_r|].
        by intros (_ & _ & ?).
      - eapply Forall_impl; [exact Hrest|]. intros d Hd.
        exact (holdsNothing_createFolder_mono (world s) name "Item" _ _ Hd). }
    split.
    { exists new, []. split; [|done].
      rewrite Hfolders, Hfilter, Hmatches. by rewrite decide_True. }
    split.
    { intros n (first & rest' & Hn & Hrest').
      destruct (decide (n = name)) as [->|Hne]; [by rewrite Hmatches in Hn|].
      exists first, rest'. split.
      - rewrite Hfolders, Hfilter, Hn. rewrite decide_False; [by rewrite app_nil_r|].
        intros ([= ?] & _). done.
      - eapply Forall_impl; [exact Hrest'|]. intros d Hd.
        exact (holdsNothing_createFolder_mono (world s) name "Item" _ _ Hd). }
    split; [done|]. split.
    { intros x Hx. apply (holdsNothing_createFolder (world s) name "Item").
      congruence. }
    intros f Hf _ _. rewrite Hfolders. apply elem_of_app. by left.
  - (* the first match stays; the other matches are swept *)
    rewrite (bool_decide_eq_false_2 (length (h :: tl) = 0)) by done.
    assert ((if bool_decide (1 < length (h :: tl))
             then foldl (deleteIfEmpty (LogDeleteDuplicateSubfolder name)) s
                    (tail (h :: tl))
             else s)
            = foldl (deleteIfEmpty (LogDeleteDuplicateSubfolder name)) s tl) as ->.
    { case_bool_decide as Hlen; [done|]. destruct tl; [done|]. cbn in Hlen. lia. }
    assert (NoDup (Folder.id <$> h :: tl)) as Hnodup.
    { rewrite <- Hmatches. by apply NoDup_ids_filter. }
    cbn [fmap list_fmap] in Hnodup. apply NoDup_cons in Hnodup as [Hh Htl].
    assert (∀ c, c ∈ h :: tl →
                 c ∈ folders (world s) ∧ isSubfolder (Some name) (Folder.id root) c)
      as Hmatch.
    { intros c Hc. rewrite <- Hmatches in Hc. apply list_elem_of_filter in Hc. tauto. }
    assert (∀ c n, c ∈ folders (world s) → isSubfolder n (Folder.id root) c →
                   Folder.id c ≠ Folder.id root) as Hneroot.
    { intros c n Hc Hsub.
      exact (isSubfolder_id_ne_root _ root n _ c Hwf Hrootin Hrootis Hc Hsub). }
    destruct (sweep_wf (LogDeleteDuplicateSubfolder name) (Some (Folder.id root)) tl s
                Hwf) as (Hfolders & Hitems & Hframe & Hwf' & Hmember).
    { intros c Hc. destruct (Hmatch c) as (Hin & Hsub); [by right|].
      split; [done|]. split; [apply Hsub|].
      intros [= Hid]. by apply (Hneroot c (Some name) Hin Hsub). }
    assert (∀ x, x ≠ Folder.id root →
                 holdsNothing
                   (world (foldl (deleteIfEmpty (LogDeleteDuplicateSubfolder name)) s tl))
                   x ↔ holdsNothing (world s) x) as Hframe'.
    { intros x Hx. apply Hframe. congruence. }
    split; [done|]. split.
    { exists rest. split.
      - rewrite Hfolders, filter_comm, Hrootfilter. apply filter_all.
        intros f Hf Hdoomed.
        assert (f ∈ filter isRootFolder (folders (world s))) as Hfin
          by (by rewrite Hrootfilter).
        apply list_elem_of_filter in Hfin as [(_ & _ & Hnone) Hfin].
        destruct (Hmatch f) as (_ & _ & _ & Hsome);
          [right; by apply Hmember|]. congruence.
      - apply Forall_forall. intros d Hd. rewrite Hframe'.
        + rewrite Forall_forall in Hrest. by apply Hrest.
        + assert (NoDup (Folder.id <$> root :: rest)) as Hnd.
          { rewrite <- Hrootfilter. by apply NoDup_ids_filter. }
          cbn [fmap list_fmap] in Hnd. apply NoDup_cons in Hnd as [Hnd _].
          intros Hid. apply Hnd. rewrite <- Hid. by apply list_elem_of_fmap_2. }
    assert (SubsOk root
              (world (foldl (deleteIfEmpty (LogDeleteDuplicateSubfolder name)) s tl))
              name) as Hsubs.
    { exists h, (filter (λ f, ¬ doomed (world s) tl f) tl). split.
      - rewrite Hfolders, filter_comm, Hmatches, filter_cons_True; [done|].
        by intros [Hid _].
      - apply Forall_forall. intros d [Hkeep Hd]%list_elem_of_filter.
        destruct (Hmatch d) as (Hin & Hsub); [by right|].
        rewrite Hframe' by (exact (Hneroot _ _ Hin Hsub)).
        intros Hnothing. apply Hkeep. split; [|done]. by apply list_elem_of_fmap_2. }
    split; [exact Hsubs|]. split.
    { intros n (first & rest' & Hn & Hrest').
      destruct (decide (n = name)) as [->|Hne]; [exact Hsubs|].
      assert (∀ f, f ∈ first :: rest' →
                   f ∈ folders (world s) ∧ isSubfolder (Some n) (Folder.id root) f)
        as Hn'.
      { intros f Hf. rewrite <- Hn in Hf. apply list_elem_of_filter in Hf. tauto. }
      exists first, rest'. split.
      - rewrite Hfolders, filter_comm, Hn. apply filter_all.
        intros f Hf Hdoomed. destruct (Hn' f Hf) as (Hin & [= Hname] & _).
        destruct (Hmatch f) as (_ & [= Hname'] & _); [right; by apply Hmember|].
        congruence.
      - apply Forall_forall. intros d Hd.
        destruct (Hn' d) as (Hin & Hsub); [by right|].
        rewrite Hframe' by (exact (Hneroot _ _ Hin Hsub)).
        rewrite Forall_forall in Hrest'. by apply Hrest'. }
    split; [done|]. split; [done|].
    intros f Hf _ Hnot. rewrite Hfolders. apply list_elem_of_filter. split; [|done].
    by intros [_ ?].
Qed.

(** Phase 3, one round: the strays named [name]. *)
Lemma cleanStrays_spec root s name :
  name ≠ CODEX_NAME → wfFolders (world s) → RootsOk root (world s) →
  let s' := cleanStrays s name in
  wfFolders (world s') ∧ RootsOk root (world s') ∧ StraysOk (world s') name
  ∧ (∀ n, SubsOk root (world s) n → SubsOk root (world s') n)
  ∧ (∀ n, StraysOk (world s) n → StraysOk (world s') n)
  ∧ Spares root (world s) (world s').
Proof.
  intros Hname Hwf Hroots. cbn zeta.
  destruct Hroots as (rest & Hrootfilter & Hrest).
  unfold cleanStrays.
  set (cands := filter (isStray name) (folders (world s))).
  assert (∀ c, c ∈ cands → c ∈ folders (world s) ∧ isStray name c) as Hstray.
  { intros c Hc. apply list_elem_of_filter in Hc. tauto. }
  destruct (sweep_wf (LogDeleteStray name) None cands s Hwf)
    as (Hfolders & Hitems & Hframe & Hwf' & Hmember).
  { intros c Hc. destruct (Hstray c Hc) as (Hin & _ & _ & Hparent). done. }
  assert (∀ x, holdsNothing (world (foldl (deleteIfEmpty (LogDeleteStray name)) s cands)) x
               ↔ holdsNothing (world s) x) as Hframe'.
  { intros x. by apply Hframe. }
  split; [done|]. split.
  { exists rest. split.
    - rewrite Hfolders, filter_comm, Hrootfilter. apply filter_all.
      intros f Hf Hdoomed.
      assert (f ∈ filter isRootFolder (folders (world s))) as Hfin
        by (by rewrite Hrootfilter).
      apply list_elem_of_filter in Hfin as [(Hfname & _) Hfin].
      destruct (Hstray f) as (_ & Hfname' & _); [by apply Hmember|]. congruence.
    - apply Forall_forall. intros d Hd. rewrite Hframe'.
      rewrite Forall_forall in Hrest. by apply Hrest. }
  assert (StraysOk (world (foldl (deleteIfEmpty (LogDeleteStray name)) s cands)) name)
    as Hstrays.
  { unfold StraysOk. rewrite Hfolders, filter_comm. fold cands.
    apply Forall_forall. intros d [Hkeep Hd]%list_elem_of_filter.
    rewrite Hframe'. intros Hnothing. apply Hkeep. split; [|done].
    by apply list_elem_of_fmap_2. }
  split; [exact Hstrays|]. split.
  { intros n (first & rest' & Hn & Hrest'). exists first, rest'. split.
    - rewrite Hfolders, filter_comm, Hn. apply filter_all.
      intros f Hf Hdoomed. rewrite <- Hn in Hf.
      apply list_elem_of_filter in Hf as [(_ & _ & Hsome) Hfin].
      destruct (Hstray f) as (_ & _ & _ & Hnone); [by apply Hmember|].
      unfold parentId in Hnone. congruence.
    - apply Forall_forall. intros d Hd. rewrite Hframe'.
      rewrite Forall_forall in Hrest'. by apply Hrest'. }
  split.
  { intros n Hn. destruct (decide (n = name)) as [->|Hne]; [exact Hstrays|].
    unfold StraysOk in *. rewrite Hfolders, filter_comm.
    rewrite filter_all.
    - apply Forall_forall. intros d Hd. rewrite Hframe'.
      rewrite Forall_forall in Hn. by apply Hn.
    - intros f [(Hfname & _) Hfin]%list_elem_of_filter Hdoomed.
      destruct (Hstray f) as (_ & Hfname' & _); [by apply Hmember|]. congruence. }
  split; [done|]. split; [by intros x _|].
  intros f Hf _ Hnot. rewrite Hfolders. apply list_elem_of_filter. split; [|done].
  by intros [_ ?].
Qed.

Lemma Spares_refl root w : Spares root w w.
Proof. by split_and!. Qed.

Lemma Spares_trans root w1 w2 w3 :
  Spares root w1 w2 → Spares root w2 w3 → Spares root w1 w3.
Proof.
  intros (Hi1 & Hf1 & Hk1) (Hi2 & Hf2 & Hk2). split_and!.
  - by rewrite Hi2.
  - intros x Hx. rewrite Hf2, Hf1; done.
  - intros f Hf Hid Hnot. apply Hk2; [by apply Hk1|done|]. by rewrite Hf1.
Qed.

Lemma foldl_ensureSubfolder_spec root names s :
  wfFolders (world s) → RootsOk root (world s) →
  let s' := foldl (ensureSubfolder root) s names in
  wfFolders (world s') ∧ RootsOk root (world s')
  ∧ Forall (SubsOk root (world s')) names
  ∧ (∀ n, SubsOk root (world s) n → SubsOk root (world s') n)
  ∧ Spares root (world s) (world s').
Proof.
  cbn zeta. revert s. induction names as [|name names IH]; intros s Hwf Hroots.
  - cbn [foldl]. split_and!; try done; apply Spares_refl.
  - cbn [foldl].
    destruct (ensureSubfolder_spec root s name Hwf Hroots)
      as (Hwf1 & Hroots1 & Hsub1 & Hkeep1 & Hspares1).
    destruct (IH _ Hwf1 Hroots1) as (Hwf2 & Hroots2 & Hsubs2 & Hkeep2 & Hspares2).
    split_and!; try done.
    + apply Forall_cons. split; [by apply Hkeep2|done].
    + intros n Hn. by apply Hkeep2, Hkeep1.
    + by eapply Spares_trans.
Qed.

Lemma foldl_cleanStrays_spec root names s :
  Forall (λ n, n ≠ CODEX_NAME) names →
  wfFolders (world s) → RootsOk root (world s) →
  let s' := foldl cleanStrays s names in
  wfFolders (world s') ∧ RootsOk root (world s')
  ∧ Forall (StraysOk (world s')) names
  ∧ (∀ n, SubsOk root (world s) n → SubsOk root (world s') n)
  ∧ (∀ n, StraysOk (world s) n → StraysOk (world s') n)
  ∧ Spares root (world s) (world s').
Proof.
  cbn zeta. intros Hnames. revert s.
  induction Hnames as [|name names Hname _ IH]; intros s Hwf Hroots.
  - cbn [foldl]. split_and!; try done; apply Spares_refl.
  - cbn [foldl].
    destruct (cleanStrays_spec root s name Hname Hwf Hroots)
      as (Hwf1 & Hroots1 & Hstray1 & Hsubs1 & Hkeep1 & Hspares1).
    destruct (IH _ Hwf1 Hroots1)
      as (Hwf2 & Hroots2 & Hstrays2 & Hsubs2 & Hkeep2 & Hspares2).
    split_and!; try done.
    + apply Forall_cons. split; [by apply Hkeep2|done].
    + intros n Hn. by apply Hsubs2, Hsubs1.
    + intros n Hn. by apply Hkeep2, Hkeep1.
    + by eapply Spares_trans.
Qed.

Lemma level_names_not_root : Forall (λ n, n ≠ CODEX_NAME) SPELL_LEVEL_FOLDERS.
Proof. repeat constructor; discriminate. Qed.

(** The pass leaves a repaired world, and on its way spares what holds
    something. *)
Lemma repair_repaired w :
  wfFolders w →
  let r := ensureFolderHierarchy w in
  Repaired r.1 (world r.2) ∧ Spares r.1 w (world r.2).
Proof.
  intros Hwf. cbn zeta. unfold ensureFolderHierarchy.
  pose proof (ensureRoot_spec (mkRepair w []) Hwf) as (Hwf1 & Hroots1 & Hspares1).
  destruct (ensureRoot (mkRepair w [])) as [root s1]. cbn [fst snd world] in *.
  destruct (foldl_ensureSubfolder_spec root SPELL_LEVEL_FOLDERS s1 Hwf1 Hroots1)
    as (Hwf2 & Hroots2 & Hsubs2 & _ & Hspares2).
  destruct (foldl_cleanStrays_spec root SPELL_LEVEL_FOLDERS _ level_names_not_root
              Hwf2 Hroots2) as (Hwf3 & Hroots3 & Hstrays3 & Hsubs3 & _ & Hspares3).
  split.
  - split_and!; try done. eapply Forall_impl; [exact Hsubs2|]. exact Hsubs3.
  - eapply Spares_trans; [exact Hspares1|]. by eapply Spares_trans.
Qed.

(** A repaired world is a fixed point of the pass: nothing is created,
    nothing deleted and nothing logged. *)
Lemma ensureSubfolder_fixed root s name :
  SubsOk root (world s) name → ensureSubfolder root s name = s.
Proof.
  intros (first & rest & Hfilter & Hrest). unfold ensureSubfolder.
  rewrite Hfilter. cbn [length tail].
  rewrite (bool_decide_eq_false_2 (S (length rest) = 0)) by lia.
  destruct (bool_decide (1 < S (length rest))); [|done].
  by apply sweep_nothing.
Qed.

Lemma repair_fixed root w :
  Repaired root w → ensureFolderHierarchy w = (root, mkRepair w []).
Proof.
  intros (_ & (rest & Hroot & Hrest) & Hsubs & Hstrays).
  unfold ensureFolderHierarchy, ensureRoot. cbn [world]. rewrite Hroot.
  rewrite sweep_nothing by done.
  assert (∀ names s, Forall (SubsOk root (world s)) names →
            foldl (ensureSubfolder root) s names = s) as Hphase2.
  { intros names s. induction 1 as [|n names Hn _ IH]; [done|].
    cbn [foldl]. by rewrite ensureSubfolder_fixed. }
  rewrite Hphase2 by done.
  assert (∀ names s, Forall (StraysOk (world s)) names →
            foldl cleanStrays s names = s) as Hphase3.
  { intros names s. induction 1 as [|n names Hn _ IH]; [done|].
    cbn [foldl]. unfold cleanStrays at 2. by rewrite sweep_nothing. }
  by rewrite Hphase3.
Qed.

Lemma ensureFolderHierarchy_root w :
  (ensureFolderHierarchy w).1 = (ensureRoot (mkRepair w [])).1.
Proof.
  unfold ensureFolderHierarchy. by destruct (ensureRoot (mkRepair w [])).
Qed.

Lemma ensureRoot_same_id s f :
  wfFolders (world s) → f ∈ folders (world s) →
  Folder.id f = Folder.id (ensureRoot s).1 → f = (ensureRoot s).1.
Proof.
  intros Hwf Hf. unfold ensureRoot.
  destruct (filter isRootFolder (folders (world s))) as [|root dupes] eqn:Hfilter.
  - unfold createFolder. cbn [fst Folder.id]. intros Hid.
    destruct (freshId_fresh (Folder.id <$> folders (world s))).
    rewrite <- Hid. by apply list_elem_of_fmap_2.
  - cbn [fst]. intros Hid. apply (folder_id_inj (folders (world s))); try done.
    assert (root ∈ filter isRootFolder (folders (world s))) as Hin
      by (rewrite Hfilter; left).
    apply list_elem_of_filter in Hin. tauto.
Qed.

(** Every level has a name among the subfolder names. *)
Lemma folderName_listed level :
  ∃ name, folderName level = Some name ∧ name ∈ SPELL_LEVEL_FOLDERS.
Proof.
  destruct (folderName_cases level) as [(z & _ & _ & -> & [name Hname] & _)|[_ ->]].
  - exists name. split; [done|]. by eapply list_elem_of_lookup_2.
  - exists "Uncategorized". split; [done|]. left.
Qed.

(** X14. After the repair pass every category has its folder.  In a world
    whose folder identifiers are distinct, the folder the pass returns is
    the first root candidate of the resulting world, and
    [getSpellLevelFolder] finds a folder for every level that is null or an
    integer: the folder of the category for 1 to 9, and "Uncategorized" for
    null and for an integer outside 1..9. *)
Theorem repair_complete (w : World) (level : option Z) :
  wfFolders w →
  let r := ensureFolderHierarchy w in
  findFirst isRootFolder (folders (world r.2)) = Some r.1
  ∧ ∃ f, getSpellLevelFolder (world r.2) level = Some f
         ∧ Folder.folder f = Some (Folder.id r.1)
         ∧ Some (Folder.name f) = folderName level.
Proof.
  intros Hwf. cbn zeta.
  destruct (repair_repaired w Hwf) as [(_ & (rest & Hroot & _) & Hsubs & _) _].
  assert (findFirst isRootFolder (folders (world (ensureFolderHierarchy w).2))
          = Some (ensureFolderHierarchy w).1) as Hfirst
    by (by rewrite findFirst_head_filter, Hroot).
  split; [done|].
  destruct (folderName_listed level) as (name & Hname & Hlisted).
  rewrite Forall_forall in Hsubs.
  destruct (Hsubs name Hlisted) as (first & others & Hfilter & _).
  exists first.
  assert (first ∈ filter (isSubfolder (Some name)
                            (Folder.id (ensureFolderHierarchy w).1))
                    (folders (world (ensureFolderHierarchy w).2))) as Hin
    by (rewrite Hfilter; left).
  apply list_elem_of_filter in Hin as [(Hfname & _ & Hparent) _].
  split_and!.
  - unfold getSpellLevelFolder. rewrite Hfirst, Hname.
    by rewrite findFirst_head_filter, Hfilter.
  - done.
  - by rewrite Hname, Hfname.
Qed.

Lemma repair_complete_witness :
  ∃ f, getSpellLevelFolder (world (ensureFolderHierarchy Sample.cluttered).2) (Some 2%Z)
       = Some f
       ∧ Folder.folder f = Some 1 ∧ Some (Folder.name f) = Some "2nd".
Proof.
  destruct (repair_complete Sample.cluttered (Some 2%Z)) as [_ Hfound].
  - vm_compute. repeat constructor; intros Hin; apply list_elem_of_In in Hin;
      cbn in Hin; intuition discriminate.
  - exact Hfound.
Defined.

(** X15. The repair pass is idempotent.  Run on its own result, in a world
    whose folder identifiers are distinct, it returns the same root, creates
    and deletes nothing and writes no log line: the world is unchanged. *)
Theorem repair_idempotent (w : World) :
  wfFolders w →
  let r := ensureFolderHierarchy w in
  ensureFolderHierarchy (world r.2) = (r.1, mkRepair (world r.2) []).
Proof.
  intros Hwf. cbn zeta. apply repair_fixed. by apply repair_repaired.
Qed.

Lemma repair_idempotent_witness :
  ensureFolderHierarchy (world (ensureFolderHierarchy Sample.cluttered).2)
  = ((ensureFolderHierarchy Sample.cluttered).1,
     mkRepair (world (ensureFolderHierarchy Sample.cluttered).2) []).
Proof.
  apply (repair_idempotent Sample.cluttered).
  vm_compute. repeat constructor; intros Hin; apply list_elem_of_In in Hin;
    cbn in Hin; intuition discriminate.
Defined.

Lemma repair_keeps_occupied w f :
  wfFolders w → f ∈ folders w → ¬ holdsNothing w (Folder.id f) →
  f ∈ folders (world (ensureFolderHierarchy w).2).
Proof.
  intros Hwf Hf Hholds.
  destruct (repair_repaired w Hwf) as [(_ & Hroots & _) (_ & _ & Hkeep)].
  destruct (decide (Folder.id f = Folder.id (ensureFolderHierarchy w).1))
    as [Hid|Hid]; [|by apply Hkeep].
  rewrite ensureFolderHierarchy_root in Hid.
  apply (ensureRoot_same_id (mkRepair w [])) in Hid; [|done..].
  rewrite Hid, <- ensureFolderHierarchy_root.
  by apply RootsOk_root_in in Hroots as [? _].
Qed.

(** X16. The repair pass spares every folder that holds something.  In a
    world whose folder identifiers are distinct, a folder that is the parent
    of an item or of another folder when the pass starts is still there,
    unchanged, when it ends. *)
Theorem repair_spares_occupied (w : World) (f : Folder.t) :
  wfFolders w → f ∈ folders w → ¬ holdsNothing w (Folder.id f) →
  f ∈ folders (world (ensureFolderHierarchy w).2).
Proof. apply repair_keeps_occupied. Qed.

Lemma repair_spares_occupied_witness :
  Folder.mk 1 CODEX_NAME "Item" None
  ∈ folders (world (ensureFolderHierarchy Sample.cluttered).2).
Proof.
  apply (repair_spares_occupied Sample.cluttered).
  - vm_compute. repeat constructor; intros Hin; apply list_elem_of_In in Hin;
      cbn in Hin; intuition discriminate.
  - vm_compute. apply list_elem_of_In. cbn. tauto.
  - intros [_ Hchildren]. rewrite Forall_forall in Hchildren.
    apply (Hchildren (Folder.mk 3 "1st" "Item" (Some 1))); [|reflexivity].
    vm_compute. apply list_elem_of_In. cbn. tauto.
Defined.

(** ** Folder repair: twice in a row *)

(** C7. The repair pass is idempotent and conservative.  In a world whose
    folder identifiers are distinct, running the pass on its own result
    returns the same root and leaves that world as it is: the folders are
    the same, and the second run creates and deletes nothing.  Every folder
    a run deletes, the first run or the second, is empty in the world the
    deletion runs in: no record is parented to it and it has no child
    folder.  A folder of the initial world is missing afterwards only if a
    journaled deletion removed its identifier; a folder that holds a record
    when the pass starts is never deleted, and in a world whose folder
    identifiers are distinct neither is one that holds a child folder. *)
Theorem repair_twice (w : World) :
  let r1 := ensureFolderHierarchy w in
  let r2 := ensureFolderHierarchy (world r1.2) in
  (wfFolders w →
   r2.1 = r1.1 ∧ world r2.2 = world r1.2
   ∧ folders (world r2.2) = folders (world r1.2) ∧ deleted r2.2 = [])
  ∧ Forall (λ d, isFolderEmpty (before d) (victim d) = true)
      (deleted r1.2 ++ deleted r2.2)
  ∧ (∀ f, f ∈ folders w → f ∉ folders (world r1.2) →
          ∃ d, d ∈ deleted r1.2 ∧ Folder.id (victim d) = Folder.id f)
  ∧ (∀ f it, f ∈ folders w → it ∈ items w →
             Item.folder it = Some (Folder.id f) → f ∈ folders (world r1.2))
  ∧ (wfFolders w →
     ∀ f, f ∈ folders w → ¬ holdsNothing w (Folder.id f) →
          f ∈ folders (world r1.2)).
Proof.
  cbn zeta.
  destruct (conservative_ensureFolderHierarchy w) as (_ & Hi & _ & Hdel & Hkeep).
  destruct (conservative_ensureFolderHierarchy
              (world (ensureFolderHierarchy w).2)) as (_ & _ & _ & Hdel2 & _).
  split_and!.
  - intros Hwf. destruct (repair_repaired w Hwf) as [Hrepaired _].
    rewrite (repair_fixed _ _ Hrepaired). done.
  - apply Forall_app. split.
    + eapply Forall_impl; [exact Hdel|]. by intros d [? _].
    + eapply Forall_impl; [exact Hdel2|]. by intros d [? _].
  - intros f Hf Hgone. by destruct (Hkeep f Hf).
  - intros f it Hf Hit Hfolder. destruct (Hkeep f Hf) as [?|(d & Hd & Hid)]; [done|].
    rewrite Forall_forall in Hdel. destruct (Hdel d Hd) as [Hempty Hitems].
    rewrite <- Hitems in Hit.
    destruct (isFolderEmpty_no_item _ _ _ Hempty Hit). by rewrite Hid.
  - intros Hwf f. by apply repair_keeps_occupied.
Qed.

Lemma repair_twice_witness :
  let r1 := ensureFolderHierarchy Sample.cluttered in
  let r2 := ensureFolderHierarchy (world r1.2) in
  r2.1 = r1.1 ∧ world r2.2 = world r1.2
  ∧ folders (world r2.2) = folders (world r1.2) ∧ deleted r2.2 = [].
Proof.
  apply (proj1 (repair_twice Sample.cluttered)).
  vm_compute. repeat constructor; intros Hin; apply list_elem_of_In in Hin;
    cbn in Hin; intuition discriminate.
Defined.

(** The first run on [Sample.cluttered] has work to do; the second has
    none. *)
Example repair_twice_cluttered :
  let r1 := ensureFolderHierarchy Sample.cluttered in
  let r2 := ensureFolderHierarchy (world r1.2) in
  deleted r1.2 ≠ [] ∧ folders (world r1.2) ≠ folders Sample.cluttered
  ∧ deleted r2.2 = [] ∧ folders (world r2.2) = folders (world r1.2).
Proof.
  cbn zeta. split_and!; try (vm_compute; reflexivity); vm_compute; discriminate.
Qed.

(** * The setup, the window and the player-facing entry points *)

(** ** World items *)

Lemma is_Some_findFirst_app {A} (P : A → Prop) `{!∀ x, Decision (P x)} l l' :
  is_Some (findFirst P l) → findFirst P (l ++ l') = findFirst P l.
Proof.
  induction l as [|x l IH]; [by intros [? ?]|].
  cbn [app]. rewrite !findFirst_cons. destruct (decide (P x)); [done|]. exact IH.
Qed.

Lemma findFirst_insertNew_flag (P : Item.t → Prop) `{!∀ x, Decision (P x)} l d :
  (∀ i, P (withId i d)) → is_Some (findFirst P (insertNew d l)).
Proof.
  intros Hd. unfold insertNew. rewrite findFirst_snoc.
  destruct (findFirst P l); [done|]. rewrite decide_True; [done|]. apply Hd.
Qed.

Lemma findFirst_insertNew_keep (P : Item.t → Prop) `{!∀ x, Decision (P x)} l d :
  is_Some (findFirst P l) → findFirst P (insertNew d l) = findFirst P l.
Proof. apply is_Some_findFirst_app. Qed.

Lemma findFirst_insertNew_miss (P : Item.t → Prop) `{!∀ x, Decision (P x)} l d :
  (∀ i, ¬ P (withId i d)) → findFirst P (insertNew d l) = findFirst P l.
Proof.
  intros Hd. unfold insertNew. rewrite findFirst_snoc.
  destruct (findFirst P l); [done|]. rewrite decide_False; [done|]. apply Hd.
Qed.

Lemma ensureWorldItems_spec rootFolder create w :
  let w' := ensureWorldItems rootFolder create w in
  (hasFeature w ∧ hasTemplate w ∨ create = false → w' = w)
  ∧ (create = true → hasFeature w' ∧ hasTemplate w')
  ∧ (∃ new, items w' = items w ++ new ∧ (length new ≤ 2)%nat
            ∧ Forall (λ i, Item.folder i = Some (Folder.id rootFolder)) new
            ∧ (hasFeature w →
               Forall (λ i, Flags.isCreateFeature (Item.flags i) = false) new)
            ∧ (hasTemplate w →
               Forall (λ i, Flags.isCodex (Item.flags i) = false) new))
  ∧ actors w' = actors w ∧ folders w' = folders w
  ∧ messages w' = messages w ∧ console w' = console w.
Proof.
  cbn zeta. unfold hasFeature, hasTemplate, ensureWorldItems.
  assert (∀ (P Q : list Item.t → Prop), P [] → Q [] →
            ∃ new : list Item.t, items w = items w ++ new ∧ (length new ≤ 2)%nat
              ∧ Forall (λ i, Item.folder i = Some (Folder.id rootFolder)) new
              ∧ P new ∧ Q new) as Hnothing.
  { intros P Q HP HQ. exists []. rewrite app_nil_r. split; [done|].
    split; [cbn; lia|]. done. }
  destruct (findFirst (λ i, Flags.isCreateFeature (Item.flags i) = true) (items w))
    as [feat|] eqn:Hfeat;
  destruct (findFirst (λ i, Flags.isCodex (Item.flags i) = true) (items w))
    as [codex|] eqn:Hcodex.
  - rewrite bool_decide_eq_true_2 by (split; eauto).
    split; [done|]. split; [intros _; rewrite Hfeat, Hcodex; split; eauto|].
    split; [|done]. by apply Hnothing.
  - rewrite bool_decide_eq_false_2 by (intros [_ [? ?]]; done).
    destruct create; cbn [negb].
    + rewrite (bool_decide_eq_false_2 (Some feat = None)) by done.
      rewrite (bool_decide_eq_true_2 (None = None)) by done.
      cbn [createItem setItems items actors folders messages console].
      split; [intros [[_ [? ?]]|?]; done|]. split.
      { intros _. split.
        - rewrite findFirst_insertNew_miss by done. rewrite Hfeat. eauto.
        - by apply findFirst_insertNew_flag. }
      split; [|done]. eexists [_]. split; [reflexivity|].
      split; [cbn; lia|]. split; [by repeat constructor|].
      split; [intros _; by repeat constructor|by intros [? ?]].
    + split; [done|]. split; [done|]. split; [|done]. by apply Hnothing.
  - rewrite bool_decide_eq_false_2 by (intros [[? ?] _]; done).
    destruct create; cbn [negb].
    + rewrite (bool_decide_eq_true_2 (None = None)) by done.
      rewrite (bool_decide_eq_false_2 (Some codex = None)) by done.
      cbn [createItem setItems items actors folders messages console].
      split; [intros [[[? ?] _]|?]; done|]. split.
      { intros _. split.
        - by apply findFirst_insertNew_flag.
        - rewrite findFirst_insertNew_miss by done. rewrite Hcodex. eauto. }
      split; [|done]. eexists [_]. split; [reflexivity|].
      split; [cbn; lia|]. split; [by repeat constructor|].
      split; [by intros [? ?]|intros _; by repeat constructor].
    + split; [done|]. split; [done|]. split; [|done]. by apply Hnothing.
  - rewrite bool_decide_eq_false_2 by (intros [[? ?] _]; done).
    destruct create; cbn [negb].
    + rewrite !(bool_decide_eq_true_2 (None = None)) by done.
      cbn [createItem setItems items actors folders messages console].
      split; [intros [[[? ?] _]|?]; done|]. split.
      { intros _. split.
        - rewrite findFirst_insertNew_keep; by apply findFirst_insertNew_flag.
        - by apply findFirst_insertNew_flag. }
      split; [|done]. eexists [_; _].
      split; [unfold insertNew; by rewrite <- app_assoc|].
      split; [cbn; lia|]. split; [by repeat constructor|].
      split; by intros [? ?].
    + split; [done|]. split; [done|]. split; [|done]. by apply Hnothing.
Qed.

(** X17. Setup of the world items.  When both items exist, or the GM
    declines, [ensureWorldItems] leaves the world as it is.  When the GM
    accepts, the world holds both items afterwards; at most two items are
    appended, each in the root folder and only for a kind that was missing,
    so a kind that exists is found as before; items that existed, actors,
    folders, chat and console are untouched. *)
Theorem world_items_setup (rootFolder : Folder.t) (create : bool) (w : World) :
  let w' := ensureWorldItems rootFolder create w in
  (hasFeature w ∧ hasTemplate w ∨ create = false → w' = w)
  ∧ (create = true → hasFeature w' ∧ hasTemplate w')
  ∧ (∃ new, items w' = items w ++ new ∧ (length new ≤ 2)%nat
            ∧ Forall (λ i, Item.folder i = Some (Folder.id rootFolder)) new
            ∧ (hasFeature w →
               Forall (λ i, Flags.isCreateFeature (Item.flags i) = false) new)
            ∧ (hasTemplate w →
               Forall (λ i, Flags.isCodex (Item.flags i) = false) new))
  ∧ actors w' = actors w ∧ folders w' = folders w
  ∧ messages w' = messages w ∧ console w' = console w.
Proof. apply ensureWorldItems_spec. Qed.

Lemma world_items_setup_witness :
  let w' := ensureWorldItems (Folder.mk 1 CODEX_NAME "Item" None) true Sample.catalog in
  hasFeature w' ∧ hasTemplate w'.
Proof.
  apply (world_items_setup (Folder.mk 1 CODEX_NAME "Item" None) true Sample.catalog).
  reflexivity.
Defined.

(** Items added to a repaired world leave it repaired. *)
Lemma holdsNothing_more_items w w' x :
  folders w' = folders w → (∀ it, it ∈ items w → it ∈ items w') →
  holdsNothing w' x → holdsNothing w x.
Proof.
  intros Hfolders Hitems [Hi Hf]. split.
  - rewrite Forall_forall in Hi |- *. intros it Hit. by apply Hi, Hitems.
  - by rewrite <- Hfolders.
Qed.

Lemma Repaired_more_items root w w' :
  folders w' = folders w → (∀ it, it ∈ items w → it ∈ items w') →
  Repaired root w → Repaired root w'.
Proof.
  intros Hfolders Hitems (Hwf & Hroots & Hsubs & Hstrays).
  assert (∀ l, Forall (λ d, ¬ holdsNothing w (Folder.id d)) l →
               Forall (λ d, ¬ holdsNothing w' (Folder.id d)) l) as Hmono.
  { intros l Hl. eapply Forall_impl; [exact Hl|]. intros d Hd Hnothing. apply Hd.
    by eapply holdsNothing_more_items. }
  split_and!.
  - unfold wfFolders. by rewrite Hfolders.
  - destruct Hroots as (rest & Hfilter & Hrest). exists rest.
    rewrite Hfolders. split; [done|]. by apply Hmono.
  - eapply Forall_impl; [exact Hsubs|]. intros name (first & rest & Hfilter & Hrest).
    exists first, rest. rewrite Hfolders. split; [done|]. by apply Hmono.
  - eapply Forall_impl; [exact Hstrays|]. intros name Hname.
    unfold StraysOk in *. rewrite Hfolders. by apply Hmono.
Qed.

Lemma onReady_unfold create w :
  onReady true create w
  = ensureWorldItems (ensureFolderHierarchy w).1 create
      (world (ensureFolderHierarchy w).2).
Proof. unfold onReady. by destruct (ensureFolderHierarchy w). Qed.

(** X18. The [ready] hook of a GM is idempotent.  In a world whose folder
    identifiers are distinct, once the GM has accepted the setup a further
    run changes nothing, whatever the GM answers then; and a run the GM
    declined, followed by another one declined, changes nothing either. *)
Theorem ready_idempotent (w : World) (create : bool) :
  wfFolders w →
  onReady true create (onReady true true w) = onReady true true w
  ∧ onReady true false (onReady true false w) = onReady true false w.
Proof.
  intros Hwf. destruct (repair_repaired w Hwf) as [Hrepaired _].
  set (root := (ensureFolderHierarchy w).1) in *.
  set (w1 := world (ensureFolderHierarchy w).2) in *.
  assert (∀ c, Repaired root (onReady true c w)) as Hready.
  { intros c. rewrite onReady_unfold. fold root w1.
    destruct (ensureWorldItems_spec root c w1)
      as (_ & _ & (new & Hitems & _) & _ & Hfolders & _).
    apply (Repaired_more_items root w1); [done| |done].
    intros it Hit. rewrite Hitems. apply elem_of_app. by left. }
  split.
  - rewrite (onReady_unfold create), (repair_fixed root) by apply Hready.
    cbn [fst snd world].
    apply (proj1 (ensureWorldItems_spec root create (onReady true true w))).
    left. rewrite onReady_unfold. fold root w1.
    by apply (ensureWorldItems_spec root true w1).
  - rewrite (onReady_unfold false (onReady true false w)),
      (repair_fixed root) by apply Hready.
    cbn [fst snd world].
    apply (proj1 (ensureWorldItems_spec root false (onReady true false w))).
    by right.
Qed.

Lemma ready_idempotent_witness :
  onReady true false (onReady true true Sample.cluttered)
  = onReady true true Sample.cluttered.
Proof.
  destruct (ready_idempotent Sample.cluttered false) as [Hagain _]; [|exact Hagain].
  vm_compute. repeat constructor; intros Hin; apply list_elem_of_In in Hin;
    cbn in Hin; intuition discriminate.
Defined.



(** ** The category selector *)

Lemma buildSlotOptions_unfold sel :
  buildSlotOptions sel
  = SlotOption.mk "0" "Uncategorized"
      (Js.strictEq sel JNull || Js.strictEq sel (JInt 0)
       || Js.strictEq sel JUndefined)
    :: ((λ i, SlotOption.mk (Js.toString (JInt i)) (Js.toString (JInt i))
                (Js.strictEq (JInt i) sel))
          <$> [1; 2; 3; 4; 5; 6; 7; 8; 9]%Z).
Proof. reflexivity. Qed.

(** Every option carries a value the assign-category workflow accepts. *)
Lemma buildSlotOptions_accepted sel o :
  o ∈ buildSlotOptions sel →
  ∃ lvl, SlotOption.value o = optionValue lvl
         ∧ (lvl = None ∨ ∃ z, lvl = Some z ∧ (1 ≤ z ≤ 9)%Z)
         ∧ checkLevel (normalizeLevel (levelOfRaw (SlotOption.value o))) = Some lvl.
Proof.
  rewrite buildSlotOptions_unfold. cbn [fmap list_fmap].
  rewrite !elem_of_cons, elem_of_nil.
  intros [->|[->|[->|[->|[->|[->|[->|[->|[->|[->|[]]]]]]]]]]];
    [exists None; split; [reflexivity|]; split; [by left|reflexivity]|..].
  all: match goal with
       | |- context [Js.toString (JInt ?k)] =>
           exists (Some k); split; [reflexivity|];
           split; [right; exists k; split; [done|lia]|vm_compute; reflexivity]
       end.
Qed.

(** The option marked as selected is the one of the current category. *)
Lemma buildSlotOptions_selected lvl o :
  lvl = None ∨ (∃ z, lvl = Some z ∧ (1 ≤ z ≤ 9)%Z) →
  o ∈ buildSlotOptions (levelVal lvl) →
  SlotOption.selected o = true ↔ SlotOption.value o = optionValue lvl.
Proof.
  intros Hlvl. rewrite buildSlotOptions_unfold. cbn [fmap list_fmap].
  rewrite !elem_of_cons, elem_of_nil.
  assert (lvl = None ∨ lvl = Some 1 ∨ lvl = Some 2 ∨ lvl = Some 3 ∨ lvl = Some 4
          ∨ lvl = Some 5 ∨ lvl = Some 6 ∨ lvl = Some 7 ∨ lvl = Some 8
          ∨ lvl = Some 9)%Z as Hcases.
  { destruct Hlvl as [->|(z & -> & Hz)]; [by left|]. right.
    assert (z = 1 ∨ z = 2 ∨ z = 3 ∨ z = 4 ∨ z = 5 ∨ z = 6 ∨ z = 7 ∨ z = 8 ∨ z = 9)%Z
      as Hz' by lia.
    destruct Hz' as [->|[->|[->|[->|[->|[->|[->|[->| ->]]]]]]]]; tauto. }
  destruct Hcases as [->|[->|[->|[->|[->|[->|[->|[->|[->| ->]]]]]]]]];
    intros [->|[->|[->|[->|[->|[->|[->|[->|[->|[->|[]]]]]]]]]]];
    vm_compute; split; intros Heq; first [reflexivity | discriminate Heq].
Qed.

(** X20. Choosing an option of the category selector.  Every option that
    [buildSlotOptions] offers carries a value that the [change] listener
    turns into an accepted level.  When the Container and the blueprint
    resolve (and, for the option "Uncategorized", the blueprint has a
    name), the listener stores the choice, and the selector built from
    [getSlotLevel] afterwards marks as selected exactly the option that was
    chosen. *)
Theorem slot_option_round_trip (userName : string) (codexRef blueprintRef : Uuid)
    (w : World) (codex blueprint : ItemDoc) (sel : JsVal) (o : SlotOption.t) :
  resolveItem w codexRef = Some codex →
  resolveItem w blueprintRef = Some blueprint →
  o ∈ buildSlotOptions sel →
  SlotOption.value o ≠ "0" ∨ Item.name (data blueprint) ≠ "" →
  ∃ w' codex' blueprint',
    onSlotLevelChange userName (Some codexRef) (Some blueprintRef)
      (SlotOption.value o) w = Some w'
    ∧ resolveItem w' codexRef = Some codex'
    ∧ resolveItem w' blueprintRef = Some blueprint'
    ∧ ∀ o', o' ∈ buildSlotOptions (levelVal (getSlotLevel codex' blueprint')) →
            SlotOption.selected o' = true
            ↔ SlotOption.value o' = SlotOption.value o.
Proof.
  intros Hcodex Hbp Ho Hcase.
  destruct (buildSlotOptions_accepted sel o Ho) as (lvl & Hvalue & Hrange & Hlvl).
  assert (lvl ≠ None ∨ Item.name (data blueprint) ≠ "") as Hcase'.
  { destruct Hcase as [Hne|?]; [|by right]. left. intros ->. by apply Hne. }
  destruct (lookup_after_assign userName codexRef blueprintRef
              (levelOfRaw (SlotOption.value o)) w codex blueprint lvl
              Hcodex Hbp Hlvl Hcase') as (codex' & bp' & Hcodex' & Hbp' & Hlevel).
  eexists _, codex', bp'. split.
  { unfold onSlotLevelChange. unfold resolveItem in Hbp.
    destruct (fromUuid w blueprintRef) as [[| |]|]; try done. }
  split; [exact Hcodex'|]. split; [exact Hbp'|].
  intros o' Ho'. rewrite Hlevel in Ho'. rewrite Hvalue.
  by apply buildSlotOptions_selected.
Qed.

Lemma slot_option_round_trip_witness :
  ∃ w' codex' blueprint',
    onSlotLevelChange "Player" (Some (UOwned 1 5)) (Some (UOwned 1 6)) "4"
      Sample.party = Some w'
    ∧ resolveItem w' (UOwned 1 5) = Some codex'
    ∧ resolveItem w' (UOwned 1 6) = Some blueprint'
    ∧ ∀ o', o' ∈ buildSlotOptions (levelVal (getSlotLevel codex' blueprint')) →
            SlotOption.selected o' = true ↔ SlotOption.value o' = "4".
Proof.
  apply (slot_option_round_trip "Player" (UOwned 1 5) (UOwned 1 6) Sample.party
           (mkItemDoc (Some 1)
              (Item.mk 5 CODEX_NAME "book.webp" "container" None RefNull RefNull
                 Sample.codexFlags))
           Sample.gunDoc JNull (SlotOption.mk "4" "4" false)).
  - reflexivity.
  - reflexivity.
  - vm_compute. apply list_elem_of_In. cbn. tauto.
  - left. discriminate.
Defined.

(** ** Opening the window *)

Lemma Spaced_step r rendered codexItem now :
  Spaced (r, rendered) →
  Spaced (match openCodex (Some codexItem) now r with
          | (r', Some c) => (r', rendered ++ [(c, now)])
          | (r', None) => (r', rendered)
          end).
Proof.
  intros [Hrecent Hspaced]. unfold openCodex, RecentOpen in *.
  case_bool_decide as Hnow; [done|].
  cbn [fst snd] in *. split; cbn [fst snd].
  - intros c t [Hin|Hin%list_elem_of_singleton]%elem_of_app.
    + destruct (Hrecent c t Hin) as (t' & Ht' & Hle).
      destruct (decide (uuid codexItem = uuid c)) as [Heq|Hne].
      * exists now. rewrite Heq. split; [apply lookup_insert_eq|].
        rewrite Heq, Ht' in Hnow. cbn in Hnow. lia.
      * exists t'. split; [|done]. rewrite <- Ht'. by apply lookup_insert_ne.
    + injection Hin as -> ->. exists now. split; [apply lookup_insert_eq|lia].
  - intros i j c1 t1 c2 t2 Hij Hi Hj Hsame.
    destruct (decide (j < length rendered)%nat) as [Hlt|Hge].
    + rewrite lookup_app_l in Hi, Hj by lia. by apply (Hspaced i j c1 t1 c2 t2).
    + assert (j = length rendered) as ->.
      { apply lookup_lt_Some in Hj. rewrite length_app in Hj. cbn in Hj. lia. }
      rewrite lookup_app_l in Hi by lia.
      rewrite list_lookup_middle in Hj by done. injection Hj as <- <-.
      destruct (Hrecent c1 t1) as (t' & Ht' & Hle);
        [by eapply list_elem_of_lookup_2|].
      rewrite <- Hsame, Ht' in Hnow. cbn in Hnow. lia.
Qed.

Lemma Spaced_openAll calls recent : Spaced (openAll calls recent).
Proof.
  unfold openAll.
  assert (Spaced (recent, [])) as Hinit.
  { split; cbn [fst snd].
    - by intros c t ?%elem_of_nil.
    - intros i j c1 t1 c2 t2 _ Hi. by rewrite lookup_nil in Hi. }
  revert Hinit. generalize (recent, @nil (ItemDoc * Z)).
  induction calls as [|[codexItem now] calls IH]; intros st Hst; [done|].
  cbn [foldl]. apply IH. destruct st as [r rendered]. by apply Spaced_step.
Qed.

(** X21. [openCodex] debounces.  Over any sequence of calls, from any state
    of [RECENT_OPEN], two windows rendered for the same Container come from
    calls whose times are at least 250 ms apart, the later call having the
    later time. *)
Theorem openCodex_spacing (calls : list (ItemDoc * Z)) (recent : RecentOpen)
    (i j : nat) (c1 c2 : ItemDoc) (t1 t2 : Z) :
  (i < j)%nat →
  (openAll calls recent).2 !! i = Some (c1, t1) →
  (openAll calls recent).2 !! j = Some (c2, t2) →
  uuid c1 = uuid c2 →
  (t1 + 250 ≤ t2)%Z.
Proof. intros Hij Hi Hj Hsame. by eapply (Spaced_openAll calls recent). Qed.

Lemma openCodex_spacing_witness : (1000 + 250 ≤ 1250)%Z.
Proof.
  apply (openCodex_spacing
           [(Sample.gunDoc, 1000%Z); (Sample.gunDoc, 1100%Z); (Sample.gunDoc, 1250%Z)]
           ∅ 0 1 Sample.gunDoc Sample.gunDoc 1000 1250).
  - lia.
  - reflexivity.
  - reflexivity.
  - reflexivity.
Defined.

(** ** Fabricating from the window *)




(** The window on [Sample.party] after the blueprint got level 4: the
    owner has two slots of that level, and the copy is made. *)
Example fabricate_from_window :
  (_fabricate (Some (UOwned 1 5)) (UOwned 1 6) (UActor 2) true id id true
     (setSlotLevelForBlueprint "Player" (UOwned 1 5) (UOwned 1 6) (JStr "4")
        Sample.party)).1
  = Returned [InfoFabricated].
Proof. vm_compute. reflexivity. Qed.

(** When the world changes in between, the checks do not suffice.  If the
    owner's slots of level 4 are spent while the request travels, the
    handler returns false and "Fabrication failed." is shown; if they are
    spent while the dialog is open, the window reports that no slot is
    left; and if the second step of the handler fails, [_fabricate] throws
    and leaves the world with a slot spent and no copy made. *)
Example fabricate_checks_outrun :
  let w :=
    setSlotLevelForBlueprint "Player" (UOwned 1 5) (UOwned 1 6) (JStr "4")
      Sample.party in
  let spend := setActor 1 (setSpells <[4%Z := JInt 0]>) in
  let run others transit attached :=
    _fabricate (Some (UOwned 1 5)) (UOwned 1 6) (UActor 2) true others transit
      attached w in
  (run id spend true).1 = Returned [ErrorFabricationFailed]
  ∧ (run spend id true).1 = Returned [WarnNoSlots]
  ∧ run id id false
    = (Threw, setActor 1 (setSpells <[4%Z := JInt 1]>) w).
Proof. cbn zeta. split_and!; vm_compute; reflexivity. Qed.

(** ** The active tab *)

Lemma elem_of_getActiveInnovations codex w e :
  e ∈ getActiveInnovations (Some codex) w ↔
    ∃ a actor item,
      actors w !! a = Some actor ∧ item ∈ Actor.items actor
      ∧ Flags.originUuid (Item.flags item) = Some (uuid codex)
      ∧ e = Active.mk (Item.name item) (Item.img item) (UOwned a (Item.id item))
              (Actor.name actor).
Proof.
  unfold getActiveInnovations. rewrite list_elem_of_bind. split.
  - intros ([a actor] & He & Ha%elem_of_map_to_list).
    apply list_elem_of_fmap in He as (item & -> & [Horigin Hitem]%list_elem_of_filter).
    by exists a, actor, item.
  - intros (a & actor & item & Ha & Hitem & Horigin & ->).
    exists (a, actor). split; [|by apply elem_of_map_to_list].
    apply list_elem_of_fmap. exists item. split; [done|].
    by apply list_elem_of_filter.
Qed.





(** X24. A fabricated item shows on the active tab.  After a successful
    [fabricate] for a Container, the item created on the target is listed
    on the active tab of that Container, under the blueprint's name
    prefixed with "Temporary " and the target's name; its reference did not
    resolve before the call. *)
Theorem fabricate_listed (ownerActorUuid targetActorUuid blueprintUuid : Uuid)
    (codex : ItemDoc) (slotLevel : Z) (attached : bool) (w w' : World) :
  fabricate ownerActorUuid targetActorUuid blueprintUuid (uuid codex) slotLevel
    attached w
  = (Returned true, w') →
  ∃ e blueprint target targetActor,
    e ∈ getActiveInnovations (Some codex) w'
    ∧ resolveItem w blueprintUuid = Some blueprint
    ∧ fromUuid w targetActorUuid = Some (DocActor target targetActor)
    ∧ Active.itemName e = "Temporary " +:+ Item.name (data blueprint)
    ∧ Active.itemImg e = Item.img (data blueprint)
    ∧ Active.actorName e = Actor.name targetActor
    ∧ (∃ i, Active.itemUuid e = UOwned target i)
    ∧ resolveItem w (Active.itemUuid e) = None.
Proof.
  unfold fabricate, _gmFabricate.
  destruct (fromUuid w ownerActorUuid) as [[owner ownerActor| |]|] eqn:Ho; try done.
  destruct (fromUuid w targetActorUuid) as [[target targetActor| |]|] eqn:Ht;
    try done.
  destruct (fromUuid w blueprintUuid) as [[|blueprint|]|] eqn:Hb; try done.
  destruct (slotsOf ownerActor slotLevel) as [| | |x|] eqn:Hslots; try done.
  destruct (negb (Double.isFinite x) || Double.leb x Double.zero); [done|].
  destruct attached; [|done]. intros [= <-].
  pose proof (fromUuid_actor _ _ _ _ Ho) as [-> Hoa].
  pose proof (fromUuid_actor _ _ _ _ Ht) as [-> Hta].
  set (itemData := setFlags (markTemporary (uuid codex))
                     (setName ("Temporary " +:+ Item.name (data blueprint))
                        (stripLocation true (data blueprint)))).
  set (targetActor' := if decide (owner = target)
                       then setSpells
                              <[slotLevel := JNum (Double.sub x Double.one)]>
                              targetActor
                       else targetActor).
  assert (Actor.items targetActor' = Actor.items targetActor
          ∧ Actor.name targetActor' = Actor.name targetActor) as [Hitems Hname].
  { unfold targetActor'. by destruct (decide (owner = target)). }
  set (new := created (Actor.items targetActor) itemData).
  exists (Active.mk (Item.name new) (Item.img new) (UOwned target (Item.id new))
            (Actor.name targetActor)), blueprint, target, targetActor.
  split.
  { apply elem_of_getActiveInnovations.
    exists target, (setActorItems (insertNew itemData) targetActor'), new.
    split.
    { cbn [createEmbeddedItem setActor actors]. rewrite lookup_alter_eq.
      unfold targetActor'. destruct (decide (owner = target)) as [->|Hne].
      - rewrite lookup_alter_eq, Hta. done.
      - rewrite lookup_alter_ne, Hta by done. done. }
    split.
    { cbn [setActorItems Actor.items]. rewrite Hitems. unfold insertNew.
      apply elem_of_app. right. by apply list_elem_of_singleton. }
    split; [done|]. cbn [setActorItems Actor.name]. by rewrite Hname. }
  split; [by unfold resolveItem; rewrite Hb|]. split; [done|].
  split; [done|]. split; [done|]. split; [done|]. split; [by eexists|].
  cbn [Active.itemUuid]. rewrite resolveItem_UOwned, Hta. cbn [mbind option_bind].
  by rewrite findFirst_hasId_None by apply created_id_fresh.
Qed.

Lemma fabricate_listed_witness :
  ∃ e, e ∈ getActiveInnovations
             (Some (mkItemDoc (Some 1)
                      (Item.mk 5 CODEX_NAME "book.webp" "container" None RefNull RefNull
                         Sample.codexFlags)))
             (fabricate (UActor 1) (UActor 2) (UOwned 1 6) (UOwned 1 5) 4 true
                Sample.party).2
       ∧ Active.itemName e = "Temporary Grapple Gun".
Proof.
  destruct (fabricate_listed (UActor 1) (UActor 2) (UOwned 1 6)
              (mkItemDoc (Some 1)
                 (Item.mk 5 CODEX_NAME "book.webp" "container" None RefNull RefNull
                    Sample.codexFlags))
              4 true Sample.party
              (fabricate (UActor 1) (UActor 2) (UOwned 1 6) (UOwned 1 5) 4 true
                 Sample.party).2 eq_refl)
    as (e & blueprint & target & targetActor & He & Hbp & _ & Hname & _).
  exists e. split; [exact He|]. rewrite Hname.
  injection Hbp as <-. reflexivity.
Defined.

(** ** Using the feature *)




(** The two outcomes on an actor without a Container: with the copy caught
    up the Container is announced and its window opens; without, the error
    is shown, though the Container is attached. *)
Example useCreateFeature_replica :
  let run synced :=
    useCreateFeature (mkItemDoc (Some 4) (Sample.item 9 FEAT_NAME Flags.empty)) 1000
      synced (mkClient Sample.library ∅) in
  (run true).1.2 = [InfoCodexAdded] ∧ is_Some (run true).2
  ∧ (run false).1.2 = [ErrorCodexNotFound] ∧ (run false).2 = None
  ∧ store (run false).1.1 = store (run true).1.1.
Proof. cbn zeta. split_and!; try (vm_compute; reflexivity). vm_compute. eauto. Qed.

(** ** Creating a blueprint from the window *)




(** The two outcomes of an accepted request: with the copy caught up the
    blueprint is returned, mirrored and announced; without, the error is
    shown and the blueprint is left on the actor, with no Mirror and no
    whisper. *)
Example createNewInnovation_replica :
  let run synced :=
    createNewInnovation "Player"
      (mkItemDoc (Some 1)
         (Item.mk 5 CODEX_NAME "book.webp" "container" None RefNull RefNull
            Sample.codexFlags))
      1 (Some ("Rocket Boots", "loot")) synced Sample.party in
  is_Some (run true).1.1 ∧ (run true).1.2 = []
  ∧ length (messages (run true).2) = 1
  ∧ (run false).1.1 = None ∧ (run false).1.2 = [ErrorCreatedNotFound]
  ∧ messages (run false).2 = []
  ∧ is_Some (resolveItem (run false).2 (UOwned 1 7)).
Proof.
  cbn zeta. split_and!; try (vm_compute; reflexivity); vm_compute; eauto.
Qed.

(** ** The blueprints tab *)

(** An item lies in the Container when one of the two container fields
    holds the identifier or the UUID of the Container. *)
Lemma isItemInCodex_true item codex :
  isItemInCodex item codex = true ↔
    Item.container item = RefId (Item.id (data codex))
    ∨ Item.container item = RefUuid (uuid codex)
    ∨ Item.containerId item = RefId (Item.id (data codex))
    ∨ Item.containerId item = RefUuid (uuid codex).
Proof. unfold isItemInCodex. cbn zeta. by rewrite bool_decide_eq_true. Qed.

(** X27. The rows of the blueprints tab.  Every row stands for an item of
    the actor that lies in the Container (one of its two container fields
    holds the identifier or the UUID of the Container), with the category
    [getSlotLevel] reports for it.  A row can be fabricated exactly when it
    has a category, and its selector marks as selected exactly the option
    of that category ("0" for none).  The rows come in the order of the
    actor's items. *)
Theorem blueprint_rows (a : Id) (actor : Actor.t) (codex : ItemDoc) :
  let rows := getBlueprintItems a actor codex in
  Blueprint.uuid <$> rows
  = (λ item, UOwned a (Item.id item))
      <$> filter (λ item, isItemInCodex item codex = true) (Actor.items actor)
  ∧ (∀ item, item ∈ Actor.items actor →
       isItemInCodex item codex = true
       ↔ Item.container item = RefId (Item.id (data codex))
         ∨ Item.container item = RefUuid (uuid codex)
         ∨ Item.containerId item = RefId (Item.id (data codex))
         ∨ Item.containerId item = RefUuid (uuid codex))
  ∧ ∀ row, row ∈ rows →
      (∃ item, item ∈ Actor.items actor
               ∧ (Item.container item = RefId (Item.id (data codex))
                  ∨ Item.container item = RefUuid (uuid codex)
                  ∨ Item.containerId item = RefId (Item.id (data codex))
                  ∨ Item.containerId item = RefUuid (uuid codex))
               ∧ Blueprint.uuid row = UOwned a (Item.id item)
               ∧ Blueprint.name row = Item.name item
               ∧ Blueprint.slotLevel row
                 = getSlotLevel codex (mkItemDoc (Some a) item))
      ∧ (Blueprint.canFabricate row = true ↔ is_Some (Blueprint.slotLevel row))
      ∧ (∀ o, o ∈ Blueprint.slotOptions row →
           SlotOption.selected o = true
           ↔ SlotOption.value o = optionValue (Blueprint.slotLevel row)).
Proof.
  cbn zeta. unfold getBlueprintItems. split.
  { rewrite <- list_fmap_compose. done. }
  split; [intros item _; apply isItemInCodex_true|].
  intros row (item & -> & [Hin Hitem]%list_elem_of_filter)%list_elem_of_fmap.
  cbn [Blueprint.uuid Blueprint.name Blueprint.slotLevel Blueprint.canFabricate
       Blueprint.slotOptions].
  pose proof (getSlotLevel_range codex (mkItemDoc (Some a) item)) as Hrange.
  split.
  { exists item. split; [done|]. split; [|done]. by apply isItemInCodex_true. }
  destruct (getSlotLevel codex (mkItemDoc (Some a) item)) as [z|].
  - specialize (Hrange z eq_refl). split.
    + rewrite bool_decide_eq_true. split; [by eauto|done].
    + intros o Ho. apply buildSlotOptions_selected; [|done]. right. by exists z.
  - split.
    + split; [done|by intros [? ?]].
    + intros o Ho. apply buildSlotOptions_selected; [|done]. by left.
Qed.

Lemma blueprint_rows_witness :
  Blueprint.uuid <$> getBlueprintItems 1
      (Actor.mk "Artificer" ∅
         [Item.mk 6 "Grapple Gun" "icon.webp" "loot" None (RefId 5) RefNull Flags.empty;
          Item.mk 7 "Lantern" "icon.webp" "loot" None RefNull RefNull Flags.empty;
          Item.mk 8 "Spyglass" "icon.webp" "loot" None RefNull (RefUuid (UOwned 1 5))
            Flags.empty;
          Item.mk 9 "Compass" "icon.webp" "loot" None (RefUuid (UOwned 2 5)) (RefId 4)
            Flags.empty])
      (mkItemDoc (Some 1) (Sample.item 5 CODEX_NAME Sample.codexFlags))
  = [UOwned 1 6; UOwned 1 8].
Proof.
  destruct (blueprint_rows 1
              (Actor.mk "Artificer" ∅
                 [Item.mk 6 "Grapple Gun" "icon.webp" "loot" None (RefId 5) RefNull
                    Flags.empty;
                  Item.mk 7 "Lantern" "icon.webp" "loot" None RefNull RefNull Flags.empty;
                  Item.mk 8 "Spyglass" "icon.webp" "loot" None RefNull
                    (RefUuid (UOwned 1 5)) Flags.empty;
                  Item.mk 9 "Compass" "icon.webp" "loot" None (RefUuid (UOwned 2 5))
                    (RefId 4) Flags.empty])
              (mkItemDoc (Some 1) (Sample.item 5 CODEX_NAME Sample.codexFlags)))
    as [Hrows _].
  rewrite Hrows. reflexivity.
Defined.

Lemma actors_mirror itemData actorItemUuid level w :
  actors (_gmMirror itemData actorItemUuid level w) = actors w.
Proof.
  unfold _gmMirror. destruct (getSpellLevelFolder w level) as [folder|]; [|done].
  destruct (list_find _ (items w)) as [[k m]|]; [|done].
  by destruct (decide (Item.folder m ≠ Some (Folder.id folder))).
Qed.

(** X28. A created blueprint shows on the blueprints tab.  When
    [createNewInnovation] returns a blueprint, the rows of the actor for
    the Container, in the world the call leaves, hold a row for it: under
    its reference and its name.  The row has no category and cannot be
    fabricated when the maps of the Container have no entry for the
    reference and the name; an entry for the name, left by another
    blueprint of that name, gives the new blueprint that category. *)
Theorem created_blueprint_listed (userName : string) (codex : ItemDoc)
    (actor : Id) (result : option (string * string)) (synced : bool) (w : World)
    (bp : ItemDoc) :
  let r := createNewInnovation userName codex actor result synced w in
  r.1.1 = Some bp →
  ∃ actor' row,
    actors r.2 !! actor = Some actor'
    ∧ row ∈ getBlueprintItems actor actor' codex
    ∧ Blueprint.uuid row = uuid bp
    ∧ Blueprint.name row = Item.name (data bp)
    ∧ (uuidMapOf codex !! uuid bp = None →
       (nameMapOf codex !! Item.name (data bp) = None →
        Blueprint.slotLevel row = None ∧ Blueprint.canFabricate row = false)
       ∧ (∀ z, nameMapOf codex !! Item.name (data bp) = Some (JInt z) →
               (1 ≤ z ≤ 9)%Z →
               Blueprint.slotLevel row = Some z ∧ Blueprint.canFabricate row = true)).
Proof.
  cbn zeta. unfold createNewInnovation.
  destruct result as [[name type]|]; [|done].
  destruct (decide (name = "")) as [->|Hname]; [done|].
  unfold createInnovationOnActor, _gmCreateInnovation.
  cbn [fromUuid]. destruct (actors w !! actor) as [a|] eqn:Ha;
    cbn [fmap option_fmap option_map]; [|done].
  set (itemData := Item.mk 0 name "" (if decide (type = "") then "loot" else type)
         None (RefId (Item.id (data codex))) RefNull
         (Flags.mk false false true false JNull (Some (UActor actor)) None None
            None None)).
  set (new := created (Actor.items a) itemData).
  set (w1 := createEmbeddedItem actor itemData w).
  assert (resolveItem w1 (uuid (mkItemDoc (Some actor) new))
          = Some (mkItemDoc (Some actor) new)) as Hres.
  { unfold w1. rewrite (resolveItem_createEmbeddedItem w actor a) by done.
    by rewrite decide_True. }
  assert (resolveItem w (uuid (mkItemDoc (Some actor) new)) = None) as Hfresh
    by apply (resolveItem_fresh w actor a itemData Ha).
  destruct synced; unfold replica; [|by rewrite Hfresh].
  rewrite Hres. unfold mirrorToWorldFolder, requestGMNotification, _gmNotify.
  cbn [fst snd data actors]. intros [= <-]. rewrite actors_mirror.
  exists (setActorItems (insertNew itemData) a).
  set (level := getSlotLevel codex (mkItemDoc (Some actor) new)).
  exists (Blueprint.mk (Item.name new) (Item.img new)
            (uuid (mkItemDoc (Some actor) new)) level
            (match level with
             | Some z => bool_decide (1 ≤ z ≤ 9)%Z
             | None => false
             end)
            (buildSlotOptions (levelVal level))).
  split.
  { unfold w1. cbn [createEmbeddedItem setActor actors].
    by rewrite lookup_alter_eq, Ha. }
  split.
  { unfold getBlueprintItems. apply list_elem_of_fmap. exists new. split; [done|].
    apply list_elem_of_filter. split.
    - apply isItemInCodex_true. by left.
    - cbn [setActorItems Actor.items]. unfold insertNew.
      apply elem_of_app. right. by apply list_elem_of_singleton. }
  split; [done|]. split; [done|].
  cbn [Blueprint.slotLevel Blueprint.canFabricate data].
  intros Huuid.
  assert (Js.isLevel (Js.parseInt (getKey (uuidMapOf codex)
                                     (uuid (mkItemDoc (Some actor) new)))) = false)
    as Hby.
  { unfold getKey. by rewrite Huuid. }
  split.
  - intros Hnone. unfold level.
    rewrite getSlotLevel_byFlag; [done|exact Hby|].
    unfold getKey. cbn [data]. by rewrite Hnone.
  - intros z Hz Hrange. unfold level.
    rewrite getSlotLevel_byName; [|exact Hby|].
    + unfold getKey. cbn [data]. rewrite Hz. cbn [default from_option id].
      rewrite parseInt_digit by lia. split; [done|]. by apply bool_decide_eq_true_2.
    + unfold getKey. cbn [data]. rewrite Hz. cbn [default from_option id].
      rewrite parseInt_digit by lia. cbn. by apply bool_decide_eq_true_2.
Qed.

Lemma created_blueprint_listed_witness :
  ∃ actor' row,
    actors (createNewInnovation "Player"
              (mkItemDoc (Some 1)
                 (Item.mk 5 CODEX_NAME "book.webp" "container" None RefNull RefNull
                    Sample.codexFlags))
              1 (Some ("Rocket Boots", "loot")) true Sample.party).2 !! 1
    = Some actor'
    ∧ row ∈ getBlueprintItems 1 actor'
              (mkItemDoc (Some 1)
                 (Item.mk 5 CODEX_NAME "book.webp" "container" None RefNull RefNull
                    Sample.codexFlags))
    ∧ Blueprint.name row = "Rocket Boots".
Proof.
  destruct (created_blueprint_listed "Player"
              (mkItemDoc (Some 1)
                 (Item.mk 5 CODEX_NAME "book.webp" "container" None RefNull RefNull
                    Sample.codexFlags))
              1 (Some ("Rocket Boots", "loot")) true Sample.party
              (mkItemDoc (Some 1)
                 (Item.mk 7 "Rocket Boots" "" "loot" None (RefId 5) RefNull
                    (Flags.mk false false true false JNull (Some (UActor 1)) None
                       None None None)))
              eq_refl)
    as (actor' & row & Hactor & Hrow & _ & Hname & _).
  exists actor', row. split; [exact Hactor|]. split; [exact Hrow|]. exact Hname.
Defined.
